(** * tsplice: the transcript checklist, preview ranges and the compile plan

    A shallow embedding of [main.go], [structs.go] and [utils.go].  Go strings
    are byte strings ([string]); Go's [int] is a 64-bit integer, written as a
    [Z] with its wrap-around; a [float64] is written as the exact number it
    stands for (see [float64] below).  The Bubble Tea runtime is a transition
    system: [Update] maps a model and a message to a model, the command it
    returns and the goroutines it starts. *)

From Stdlib Require Import Ascii ZArith QArith Qabs Qround Lia Bool.
From stdpp Require Import base list strings relations.

Open Scope Z_scope.

(** ** Results and errors *)

(** What [fmt.Sscanf] reports.  The texts of the library's messages are not
    kept, only their kind. *)
Inductive scan_err : Type :=
| unexpected_EOF
| unexpected_newline
| expected_integer
| input_does_not_match_format
| NumError (func num : string).

(** The [error] values of the program.  [%w] wrapping keeps the cause;
    [exec_failure] is what [exec.Cmd.Run] returns and [other_failure] stands
    for the errors of the file system and of the transcription request. *)
Inductive error : Type :=
| scan_failure (e : scan_err)
| exec_failure (e : string)
| other_failure (e : string)
| could_not_parse_start_time (ts : string) (cause : error)
| could_not_parse_end_time (ts : string) (cause : error)
| no_segments_selected
| failed_to_compile_video_segments (cause : error).

Inductive result (A : Type) : Type :=
| Ok (a : A)
| Err (e : error).
Arguments Ok {A} a.
Arguments Err {A} e.

(** ** Characters and byte strings *)

Definition is_digit (c : ascii) : bool := (("0" <=? c) && (c <=? "9"))%char.

Definition digit_val (c : ascii) : Z := Z.of_N (N_of_ascii c) - 48.

Definition digit_char (d : Z) : ascii := ascii_of_N (Z.to_N (d + 48)).

(** [strings.IndexByte(ok, c) >= 0] *)
Fixpoint one_of (ok : string) (c : ascii) : bool :=
  match ok with
  | "" => false
  | String k ok' => (k =? c)%char || one_of ok' c
  end.

Fixpoint span (p : ascii → bool) (s : string) : string * string :=
  match s with
  | "" => ("", "")
  | String c r =>
      if p c then let '(a, b) := span p r in (String c a, b) else ("", s)
  end.

Fixpoint string_forallb (p : ascii → bool) (s : string) : bool :=
  match s with
  | "" => true
  | String c r => p c && string_forallb p r
  end.

Fixpoint string_rev_onto (acc s : string) : string :=
  match s with
  | "" => acc
  | String c r => string_rev_onto (String c acc) r
  end.

Definition string_rev (s : string) : string := string_rev_onto "" s.

Fixpoint string_drop (n : nat) (s : string) : string :=
  match n, s with
  | O, _ => s
  | S k, String _ r => string_drop k r
  | S _, "" => ""
  end.

Fixpoint string_take (n : nat) (s : string) : string :=
  match n, s with
  | S k, String c r => String c (string_take k r)
  | _, _ => ""
  end.

(** The value of a run of decimal digits, most significant first. *)
Fixpoint digits_val_from (acc : Z) (s : string) : Z :=
  match s with
  | "" => acc
  | String c r => digits_val_from (10 * acc + digit_val c) r
  end.

Definition digits_val (s : string) : Z := digits_val_from 0 s.

(** [strings.HasPrefix] and [strings.HasSuffix] *)
Definition HasPrefix (s pre : string) : bool := String.prefix pre s.

Definition HasSuffix (s suf : string) : bool :=
  String.prefix (string_rev suf) (string_rev s).

(** [strings.TrimSuffix] *)
Definition TrimSuffix (s suf : string) : string :=
  if HasSuffix s suf
  then string_take (String.length s - String.length suf) s
  else s.

(** [strings.Split s sep] for a separator that is not empty, the only kind
    the program uses: the pieces of [s] between the occurrences of [sep],
    found from the left and not overlapping.  [skip] counts the bytes of a
    matched separator that are still to be passed over. *)
Fixpoint split_from (sep : string) (skip : nat) (s : string) : list string :=
  match s with
  | "" => [""]
  | String c r =>
      match skip with
      | S k => split_from sep k r
      | O =>
          if HasPrefix s sep
          then "" :: split_from sep (String.length sep - 1) r
          else match split_from sep 0 r with
               | h :: t => String c h :: t
               | [] => [String c ""]
               end
      end
  end.

Definition Split (s sep : string) : list string := split_from sep 0 s.

(** [strings.Join] *)
Fixpoint Join (elems : list string) (sep : string) : string :=
  match elems with
  | [] => ""
  | [e] => e
  | e :: rest => e +:+ sep +:+ Join rest sep
  end.

(** One white space character of Unicode at the head of [s], in UTF-8:
    what is left of [s] behind it.  The set is that of [unicode.IsSpace],
    which is also the table of [fmt]'s scanner. *)
Definition drop_space_rune (s : string) : option string :=
  match s with
  | String c r =>
      if one_of (String "009" (String "010" (String "011" (String "012"
                (String "013" " "))))) c
      then Some r
      else
        match N_of_ascii c, r with
        | 194%N, String d r2 =>
            if one_of (String "133" (String "160" "")) d then Some r2 else None
        | 225%N, String d (String e r3) =>
            if ((d =? "154") && (e =? "128"))%char then Some r3 else None
        | 226%N, String d (String e r3) =>
            match N_of_ascii d with
            | 128%N =>
                if ((N_of_ascii e <=? 138) && (128 <=? N_of_ascii e))%N
                   || one_of (String "168" (String "169" (String "175" ""))) e
                then Some r3 else None
            | 129%N => if (e =? "159")%char then Some r3 else None
            | _ => None
            end
        | 227%N, String d (String e r3) =>
            if ((d =? "128") && (e =? "128"))%char then Some r3 else None
        | _, _ => None
        end
  | "" => None
  end.

(** The same at the end of a string, on the reversed bytes. *)
Definition drop_space_rune_rev (s : string) : option string :=
  match s with
  | String c r =>
      if one_of (String "009" (String "010" (String "011" (String "012"
                (String "013" " "))))) c
      then Some r
      else
        match r with
        | String d r2 =>
            match drop_space_rune (String d (String c "")) with
            | Some "" => Some r2
            | _ =>
                match r2 with
                | String e r3 =>
                    match drop_space_rune (String e (String d (String c ""))) with
                    | Some "" => Some r3
                    | _ => None
                    end
                | "" => None
                end
            end
        | "" => None
        end
  | "" => None
  end.

Fixpoint trim_left (drop : string → option string) (fuel : nat) (s : string)
  : string :=
  match fuel with
  | O => s
  | S k => match drop s with
           | Some r => trim_left drop k r
           | None => s
           end
  end.

(** [strings.TrimSpace] *)
Definition TrimSpace (s : string) : string :=
  let l := trim_left drop_space_rune (String.length s) s in
  string_rev (trim_left drop_space_rune_rev (String.length l) (string_rev l)).



(** ** Numbers *)

(** Go's [int] on the 64-bit targets: the value of an arithmetic result is
    taken modulo [2^64] into the signed range. *)
Definition MaxInt64 : Z := 2 ^ 63 - 1.
Definition MinInt64 : Z := - 2 ^ 63.

Definition wrap64 (z : Z) : Z := (z + 2 ^ 63) mod 2 ^ 64 - 2 ^ 63.

(** A [float64] is written as the number it stands for: a finite value is
    an exact rational in lowest terms, and the rounding of the binary format
    is left out.  A timecode of whole milliseconds is below [2^53] thousandths,
    its [float64] is off by less than [1e-10], and [%.3f] prints the same
    digits for both. *)
Inductive float64 : Type :=
| NaN
| Inf (neg : bool)
| Fin (q : Q).

Definition float64_of_int (z : Z) : float64 := Fin (Qred (inject_Z z)).

Definition float64_add (a b : float64) : float64 :=
  match a, b with
  | NaN, _ | _, NaN => NaN
  | Inf x, Inf y => if Bool.eqb x y then Inf x else NaN
  | Inf x, Fin _ | Fin _, Inf x => Inf x
  | Fin x, Fin y => Fin (Qred (x + y))
  end.

(** From this magnitude on a decimal or hexadecimal text rounds to an
    infinity, and [strconv] reports a range error. *)
Definition float64_overflow : Q :=
  Eval vm_compute in inject_Z (2 ^ 1024 - 2 ^ 970).

Definition overflows (q : Q) : bool := Qle_bool float64_overflow (Qabs q).

(** [b ^ e] for an exponent of either sign. *)
Definition Qpow (b : Z) (e : Z) : Q :=
  if 0 <=? e then inject_Z (b ^ e) else / inject_Z (b ^ (- e)).

(** Decimal text of a number that is not negative. *)
Fixpoint decimal_onto (fuel : nat) (n : Z) (acc : string) : string :=
  match fuel with
  | O => acc
  | S k =>
      let acc' := String (digit_char (n mod 10)) acc in
      if n <? 10 then acc' else decimal_onto k (n / 10) acc'
  end.

Definition decimal (n : Z) : string :=
  decimal_onto (S (Z.to_nat (Z.log2 n))) n "".

Fixpoint zeros (n : nat) : string :=
  match n with
  | O => ""
  | S k => String "0" (zeros k)
  end.

(** Zero padding on the left up to [width] bytes. *)
Definition pad_zero (width : nat) (s : string) : string :=
  zeros (width - String.length s) +:+ s.

(** [fmt.Sprintf("%02d", n)]: the sign counts in the width. *)
Definition Sprintf_02d (n : Z) : string :=
  if n <? 0 then "-" +:+ pad_zero 1 (decimal (- n)) else pad_zero 2 (decimal n).

(** Rounding to the nearest integer, a tie to the even one. *)
Definition round_half_even (q : Q) : Z :=
  let f := Qfloor q in
  match (q - inject_Z f ?= 1 # 2)%Q with
  | Lt => f
  | Gt => f + 1
  | Eq => if Z.even f then f else f + 1
  end.

(** [fmt.Sprintf("%.3f", x)] *)
Definition Sprintf_3f (x : float64) : string :=
  match x with
  | NaN => "NaN"
  | Inf false => "+Inf"
  | Inf true => "-Inf"
  | Fin q =>
      let m := round_half_even (Qabs q * inject_Z 1000) in
      (if Qle_bool 0 q then "" else "-")
      +:+ decimal (m / 1000) +:+ "." +:+ pad_zero 3 (decimal (m mod 1000))
  end.

(** ** [strconv] *)

Definition lower (c : ascii) : ascii :=
  if (("A" <=? c) && (c <=? "Z"))%char
  then ascii_of_N (N_of_ascii c + 32) else c.

Fixpoint string_lower (s : string) : string :=
  match s with
  | "" => ""
  | String c r => String (lower c) (string_lower r)
  end.

Definition is_hex_letter (c : ascii) : bool :=
  (("a" <=? lower c) && (lower c <=? "f"))%char.

Definition hex_val (c : ascii) : Z :=
  if is_digit c then digit_val c else Z.of_N (N_of_ascii (lower c)) - 87.

Definition strip_sign (s : string) : bool * string :=
  match s with
  | String "+" r => (false, r)
  | String "-" r => (true, r)
  | _ => (false, s)
  end.

(** [strconv.ParseInt(s, 10, 64)]: an optional sign and decimal digits, in
    the range of [int64]; no underscore in base 10. *)
Definition ParseInt (s : string) : scan_err + Z :=
  let '(neg, body) := strip_sign s in
  if String.eqb body "" || negb (string_forallb is_digit body)
  then inl (NumError "ParseInt" s)
  else
    let v := if neg then - digits_val body else digits_val body in
    if (MinInt64 <=? v) && (v <=? MaxInt64) then inr v
    else inl (NumError "ParseInt" s).

(** [strconv.Atoi] *)
Definition Atoi (s : string) : scan_err + Z :=
  match ParseInt s with
  | inl _ => inl (NumError "Atoi" s)
  | inr v => inr v
  end.

(** [underscoreOK]: an underscore stands between two digits, or between a
    base prefix and a digit. *)
Fixpoint underscore_walk (hex : bool) (saw : ascii) (s : string) : bool :=
  match s with
  | "" => negb (saw =? "_")%char
  | String c r =>
      if is_digit c || (hex && is_hex_letter c) then underscore_walk hex "0" r
      else if (c =? "_")%char
           then (saw =? "0")%char && underscore_walk hex "_" r
           else negb (saw =? "_")%char && underscore_walk hex "!" r
  end.

Definition underscoreOK (s : string) : bool :=
  let s := match s with
           | String "+" r | String "-" r => r
           | _ => s
           end in
  match s with
  | String "0" (String x r) =>
      if one_of "box" (lower x)
      then underscore_walk (lower x =? "x")%char "0" r
      else underscore_walk false "^" s
  | _ => underscore_walk false "^" s
  end.

(** The digits of [readFloat], before and behind the point: whether a digit
    was seen, all digits as one integer, how many stand behind the point, and
    what follows them. *)
Fixpoint read_mantissa (hex sawdot sawdigits : bool) (mant nfrac : Z)
  (s : string) : bool * Z * Z * string :=
  match s with
  | "" => (sawdigits, mant, nfrac, "")
  | String c r =>
      if (c =? "_")%char then read_mantissa hex sawdot sawdigits mant nfrac r
      else if (c =? ".")%char
      then if sawdot then (sawdigits, mant, nfrac, s)
           else read_mantissa hex true sawdigits mant nfrac r
      else if is_digit c || (hex && is_hex_letter c)
      then read_mantissa hex sawdot true
             ((if hex then 16 else 10) * mant + hex_val c)
             (if sawdot then nfrac + 1 else nfrac) r
      else (sawdigits, mant, nfrac, s)
  end.

(** The digits of an exponent; the count stops growing at 10000. *)
Fixpoint read_exponent (e : Z) (s : string) : Z * string :=
  match s with
  | "" => (e, "")
  | String c r =>
      if (c =? "_")%char then read_exponent e r
      else if is_digit c
      then read_exponent (if e <? 10000 then e * 10 + digit_val c else e) r
      else (e, s)
  end.

(** [readFloat] and the conversion behind it, for a text without its sign:
    the exact value, when the whole text is one number. *)
Definition read_float (s : string) : option Q :=
  let hex := match s with
             | String "0" (String x (String _ _)) => (lower x =? "x")%char
             | _ => false
             end in
  let '(sawdigits, mant, nfrac, rest) :=
    read_mantissa hex false false 0 0 (if hex then string_drop 2 s else s) in
  if negb sawdigits then None
  else
    let scale := if hex then 4 * nfrac else nfrac in
    let base := if hex then 2 else 10 in
    match rest with
    | "" => if hex then None else Some (inject_Z mant * Qpow base (- scale))%Q
    | String c r =>
        if (lower c =? (if hex then "p" else "e"))%char
        then
          let '(eneg, digits) := strip_sign r in
          match digits with
          | String d _ =>
              if is_digit d
              then match read_exponent 0 digits with
                   | (e, "") =>
                       Some (inject_Z mant
                             * Qpow base ((if eneg then - e else e) - scale))%Q
                   | _ => None
                   end
              else None
          | "" => None
          end
        else None
    end.

(** [strconv.ParseFloat(s, 64)]; [underscoreOK] is asked when an underscore
    was read. *)
Definition ParseFloat (s : string) : scan_err + float64 :=
  let '(neg, body) := strip_sign s in
  if String.eqb (string_lower s) "nan" then inr NaN
  else if String.eqb (string_lower body) "inf"
          || String.eqb (string_lower body) "infinity"
  then inr (Inf neg)
  else
    match read_float body with
    | Some q =>
        if (one_of s "_" && negb (underscoreOK s)) || overflows q
        then inl (NumError "ParseFloat" s)
        else inr (Fin (Qred (if neg then - q else q)))
    | None => inl (NumError "ParseFloat" s)
    end.

(** [math.Ldexp] *)
Definition Ldexp (f : float64) (m : Z) : float64 :=
  match f with
  | Fin q =>
      let v := (q * Qpow 2 m)%Q in
      if overflows v then Inf (negb (Qle_bool 0 q)) else Fin (Qred v)
  | _ => f
  end.

(** ** [fmt.Sscanf] *)

(** The scanner state [ss] of package [fmt]: the token buffer and the input
    that is still unread.  An error ends the scan. *)
Record ss : Type := { buf : string; input : string }.

Definition scanner (A : Type) : Type := ss → scan_err + A * ss.

#[global] Instance scanner_ret : MRet scanner := λ A a s, inr (a, s).

#[global] Instance scanner_bind : MBind scanner := λ A B f m s,
  match m s with
  | inl e => inl e
  | inr (a, s') => f a s'
  end.

Definition scan_fail {A : Type} (e : scan_err) : scanner A := λ _, inl e.

Definition decimalDigits : string := "0123456789".
Definition hexadecimalDigits : string := "0123456789aAbBcCdDeEfF".
Definition sign : string := "+-".
Definition period : string := ".".
Definition exponent : string := "eEpP".

(** [s.buf = s.buf[:0]] *)
Definition reset_buf : scanner unit := λ s, inr ((), {| buf := ""; input := input s |}).

(** [string(s.buf)] *)
Definition token : scanner string := λ s, inr (buf s, s).

(** [s.accept(ok)]: the next character is taken into the buffer when it is
    one of [ok]. *)
Definition accept (ok : string) : scanner bool := λ s,
  match input s with
  | String c r =>
      if one_of ok c
      then inr (true, {| buf := buf s +:+ String c ""; input := r |})
      else inr (false, s)
  | "" => inr (false, s)
  end.

(** [for s.accept(ok) {}] *)
Definition accept_all (ok : string) : scanner unit := λ s,
  let '(a, r) := span (one_of ok) (input s) in
  inr ((), {| buf := buf s +:+ a; input := r |}).

(** [a && b] on scanner actions: [b] runs only after [a] gave [true]. *)
Definition and_then (a b : scanner bool) : scanner bool :=
  x ← a; if x : bool then b else mret false.

Definition notEOF : scanner unit := λ s,
  match input s with
  | "" => inl unexpected_EOF
  | _ => inr ((), s)
  end.

Fixpoint skip_space (fuel : nat) (inp : string) : scan_err + string :=
  match fuel with
  | O => inr inp
  | S k =>
      match inp with
      | "" => inr ""
      | String c _ =>
          if (c =? "010")%char then inl unexpected_newline
          else match drop_space_rune inp with
               | Some r => skip_space k r
               | None => inr inp
               end
      end
  end.

(** [s.SkipSpace()] of a scan in which a newline is not a space. *)
Definition SkipSpace : scanner unit := λ s,
  match skip_space (String.length (input s)) (input s) with
  | inl e => inl e
  | inr r => inr ((), {| buf := buf s; input := r |})
  end.

(** A literal character of the format. *)
Definition literal (c : ascii) : scanner unit := λ s,
  match input s with
  | "" => inl unexpected_EOF
  | String d r =>
      if (c =? d)%char then inr ((), {| buf := buf s; input := r |})
      else inl input_does_not_match_format
  end.

Definition lift {A : Type} (r : scan_err + A) : scanner A := λ s,
  match r with
  | inl e => inl e
  | inr a => inr (a, s)
  end.

(** [s.scanNumber(digits, false)] *)
Definition scanNumber (digits : string) : scanner string :=
  notEOF;;
  ok ← accept digits;
  if ok : bool then accept_all digits;; token else scan_fail expected_integer.

(** [s.scanInt('d', 64)] *)
Definition scanInt : scanner Z :=
  SkipSpace;;
  notEOF;;
  accept sign;;
  tok ← scanNumber (decimalDigits +:+ "_");
  lift (ParseInt tok).

(** [s.floatToken()] *)
Definition floatToken : scanner string :=
  reset_buf;;
  nan ← and_then (accept "nN") (and_then (accept "aA") (accept "nN"));
  if nan : bool then token else
  accept sign;;
  inf ← and_then (accept "iI") (and_then (accept "nN") (accept "fF"));
  if inf : bool then token else
  hex ← and_then (accept "0") (accept "xX");
  let digits := (if hex : bool then hexadecimalDigits else decimalDigits) +:+ "_" in
  let exp := if hex : bool then "pP" else exponent in
  accept_all digits;;
  dot ← accept period;
  (if dot : bool then accept_all digits else mret ());;
  e ← accept exp;
  (if e : bool then accept sign;; accept_all (decimalDigits +:+ "_")
   else mret ());;
  token.

Fixpoint index_of (c : ascii) (s : string) : option nat :=
  match s with
  | "" => None
  | String d r => if (c =? d)%char then Some O else S <$> index_of c r
  end.

(** [s.convertFloat(str, 64)]: a text with a [p] and no [x] is a decimal
    number with a binary exponent. *)
Definition convertFloat (str : string) : scan_err + float64 :=
  match index_of "p" str with
  | Some p =>
      if one_of str "x" || one_of str "X"
      then ParseFloat str
      else
        match ParseFloat (string_take p str) with
        | inl _ => inl (NumError "ParseFloat" str)
        | inr f =>
            match Atoi (string_drop (S p) str) with
            | inl _ => inl (NumError "Atoi" str)
            | inr m => inr (Ldexp f m)
            end
        end
  | None => ParseFloat str
  end.

(** The verbs [%d] and [%f] of [doScanf], with an [*int] and a [*float64]
    to store into. *)
Definition verb_d : scanner Z :=
  SkipSpace;; reset_buf;; scanInt.

Definition verb_f : scanner float64 :=
  SkipSpace;; reset_buf;; SkipSpace;; notEOF;;
  tok ← floatToken;
  lift (convertFloat tok).

Definition run_scan {A : Type} (m : scanner A) (str : string) : scan_err + A :=
  match m {| buf := ""; input := str |} with
  | inl e => inl e
  | inr (a, _) => inr a
  end.

(** [fmt.Sscanf(str, "%d", &n)] *)
Definition Sscanf_d (str : string) : scan_err + Z := run_scan verb_d str.

(** [fmt.Sscanf(str, "%d:%d:%f", &hours, &minutes, &seconds)] *)
Definition Sscanf_d_d_f (str : string) : scan_err + Z * Z * float64 :=
  run_scan (h ← verb_d; literal ":";; m ← verb_d; literal ":";;
            f ← verb_f; mret (h, m, f)) str.

(** ** structs.go *)

Record TranscriptItem : Type := {
  StartTime : string;
  EndTime : string;
  Text : string
}.

Record item : Type := {
  title : string;
  timestamp : string;
  selected : bool
}.

(** [list.Item] is an interface; [item] is the implementation of the program
    and [foreign_value] stands for a value of any other type. *)
Inductive list_Item : Type :=
| item_value (i : item)
| foreign_value (filterValue : string).

(** The type assertion [listItem.(item)] *)
Definition as_item (listItem : list_Item) : option item :=
  match listItem with
  | item_value i => Some i
  | foreign_value _ => None
  end.

(** [list.Model] of the bubbles library, as far as the program reads and
    writes it: the items and the index of the cursor.  No filter is applied:
    [Index] counts in [Items]. *)
Record list_Model : Type := {
  list_items : list list_Item;
  list_index : Z
}.

Definition Items (l : list_Model) : list list_Item := list_items l.

Definition Index (l : list_Model) : Z := list_index l.

(** [l.SetItems(items)] keeps the cursor. *)
Definition SetItems (l : list_Model) (items : list list_Item) : list_Model :=
  {| list_items := items; list_index := list_index l |}.

(** [list.New(items, delegate, width, height)] *)
Definition list_New (items : list list_Item) : list_Model :=
  {| list_items := items; list_index := 0 |}.

(** The zero value of [list.Model] *)
Definition list_zero : list_Model := {| list_items := []; list_index := 0 |}.

Definition len {A : Type} (l : list A) : Z := Z.of_nat (length l).

(** [items[i]]: [None] is the run-time panic of an index out of range. *)
Definition index {A : Type} (l : list A) (i : Z) : option A :=
  if i <? 0 then None else l !! Z.to_nat i.

(** What the program takes from its libraries and its platform without
    looking inside: the spinner, the keys that the list component handles,
    the commands those two produce, the file paths of the operating system
    and the wording of the scanner's errors. *)
Class Platform : Type := {
  spinner_Model : Type;
  lib_Cmd : Type;
  lib_Msg : Type;
  spinner_Tick : spinner_Model → lib_Cmd;
  spinner_Update : spinner_Model → lib_Msg → spinner_Model * list lib_Cmd;
  list_Update : list_Model → string → list_Model * list lib_Cmd;
  filepath_Base : string → string;
  filepath_Ext : string → string;
  filepath_Dir : string → string;
  filepath_Join : string → string → string;
  scan_err_Error : scan_err → string
}.

(** ** utils.go: timestamps *)

(** [strings.Split(ts, sep)[0]]; [Split] never returns an empty slice. *)
Definition first_part (ts sep : string) : string :=
  match Split ts sep with
  | a :: _ => a
  | [] => ""
  end.

Definition addSecondsToTimestamp (timestamp : string) (seconds : Z) : string :=
  match Split timestamp ":" with
  | [p0; p1; p2] =>
      match Split p2 "." with
      | [sec; frac] =>
          let currentSec := match Sscanf_d sec with
                            | inr n => n
                            | inl _ => 0
                            end in
          let newSec := wrap64 (currentSec + seconds) in
          let newSec := if 60 <=? newSec then 59 else newSec in
          p0 +:+ ":" +:+ p1 +:+ ":" +:+ Sprintf_02d newSec +:+ "." +:+ frac
      | _ => timestamp
      end
  | _ => timestamp
  end.

(** [None] is the panic of [items[currentIndex]] out of range.  The length of
    a slice is an [int], so [currentIndex+1] does not wrap where
    [currentIndex] is an index of [items]. *)
Definition getEndTime (items : list list_Item) (currentIndex : Z) : option string :=
  let next :=
    if currentIndex + 1 <? len items
    then match index items (currentIndex + 1) with
         | Some x => Some (as_item x)
         | None => None
         end
    else Some None in
  match next with
  | None => None
  | Some (Some nextItem) => Some (first_part (timestamp nextItem) " - ")
  | Some None =>
      match index items currentIndex with
      | None => None
      | Some x =>
          match as_item x with
          | Some currentItem =>
              let startTime := first_part (timestamp currentItem) " - " in
              Some (addSecondsToTimestamp startTime 10)
          | None => Some "00:00:10.000"
          end
      end
  end.

Definition parseTimeToSeconds (timeStr : string) : result float64 :=
  match Sscanf_d_d_f timeStr with
  | inl err => Err (scan_failure err)
  | inr (hours, minutes, seconds) =>
      Ok (float64_add
            (float64_add (float64_of_int (wrap64 (hours * 3600)))
                         (float64_of_int (wrap64 (minutes * 60))))
            seconds)
  end.

(** ** utils.go: the transcript *)

(** One [\d{2}:\d{2}:\d{2}\.\d{3}] and nothing else. *)
Definition is_timecode (s : string) : bool :=
  match s with
  | String h1 (String h2 (String c1 (String m1 (String m2 (String c2
      (String s1 (String s2 (String pt (String f1 (String f2 (String f3 ""))))))))))) =>
      is_digit h1 && is_digit h2 && (c1 =? ":")%char
      && is_digit m1 && is_digit m2 && (c2 =? ":")%char
      && is_digit s1 && is_digit s2 && (pt =? ".")%char
      && is_digit f1 && is_digit f2 && is_digit f3
  | _ => false
  end.

(** [timeStampRegex.FindStringSubmatch(line)]: the two groups, when the line
    begins with a timecode, [" --> "] and a timecode. *)
Definition timeStampRegex (line : string) : option (string * string) :=
  let a := string_take 12 line in
  let b := string_take 12 (string_drop 17 line) in
  if is_timecode a
     && bool_decide (string_take 5 (string_drop 12 line) = " --> ")
     && is_timecode b
  then Some (a, b) else None.

(** The body of the loop of [parseVTT]: the state is [currentStartTime],
    [currentEndTime] and the items found so far. *)
Definition parseVTT_line (st : string * string * list TranscriptItem)
  (line : string) : string * string * list TranscriptItem :=
  let '(currentStartTime, currentEndTime, transcriptItems) := st in
  let line := TrimSpace line in
  match timeStampRegex line with
  | Some (a, b) => (a, b, transcriptItems)
  | None =>
      if HasPrefix line "WEBVTT" || bool_decide (line = "") then st
      else if negb (bool_decide (line = ""))
              && negb (bool_decide (currentStartTime = ""))
      then ("", "",
            transcriptItems ++ [{| StartTime := currentStartTime;
                                   EndTime := currentEndTime;
                                   Text := line |}])
      else st
  end.

(** [parseVTT]; its error result is always [nil]. *)
Definition parseVTT (vttContent : string) : list TranscriptItem :=
  let lines := Split vttContent (String "010" "") in
  (foldl parseVTT_line ("", "", []) lines).2.

(** The conversion of a transcript item into a list item, as [main] and
    [Update] write it, with the flag to store. *)
Definition to_item (sel : bool) (t : TranscriptItem) : item :=
  {| title := Text t;
     timestamp := StartTime t +:+ " - " +:+ EndTime t;
     selected := sel |}.

Definition to_items (ts : list TranscriptItem) : list list_Item :=
  (λ t, item_value (to_item false t)) <$> ts.

(** ** utils.go: the compile plan *)

(** The anonymous [struct { start, end float64 }] of [compileVideoSegments]. *)
Record segment : Type := {
  start : float64;
  stop : float64
}.

(** [exec.Command(name, arg...)] *)
Record exec_Cmd : Type := {
  Path : string;
  Args : list string
}.

(** The first loop of [compileVideoSegments]: the selected items in order,
    each split at [" - "] and parsed; an item that does not split in two is
    passed over. *)
Fixpoint collect_segments (items : list list_Item) (segments : list segment)
  : result (list segment) :=
  match items with
  | [] => Ok segments
  | listItem :: rest =>
      match as_item listItem with
      | Some i =>
          if selected i
          then match Split (timestamp i) " - " with
               | [t0; t1] =>
                   match parseTimeToSeconds t0 with
                   | Err err => Err (could_not_parse_start_time t0 err)
                   | Ok a =>
                       match parseTimeToSeconds t1 with
                       | Err err => Err (could_not_parse_end_time t1 err)
                       | Ok b =>
                           collect_segments rest
                             (segments ++ [{| start := a; stop := b |}])
                       end
                   end
               | _ => collect_segments rest segments
               end
          else collect_segments rest segments
      | None => collect_segments rest segments
      end
  end.

(** The second loop and the join: one [between] for each segment. *)
Definition filterPart (s : segment) : string :=
  "between(t," +:+ Sprintf_3f (start s) +:+ "," +:+ Sprintf_3f (stop s) +:+ ")".

Definition selectFilter (segments : list segment) : string :=
  Join (filterPart <$> segments) "+".

Definition ffmpeg_command (inputFile selectFilter outputFile : string) : exec_Cmd :=
  {| Path := "ffmpeg";
     Args := ["-y"; "-i"; inputFile;
              "-vf"; "select='" +:+ selectFilter +:+ "',setpts=N/FRAME_RATE/TB";
              "-af"; "aselect='" +:+ selectFilter +:+ "',asetpts=N/SR/TB";
              outputFile] |}.

(** [compileVideoSegments]: the commands it has run, in order, and what it
    returns.  [run] is the outcome of [cmd.Run()], [None] for [nil]. *)
Definition compileVideoSegments `{Platform} (run : exec_Cmd → option error)
  (inputFile : string) (items : list list_Item) : list exec_Cmd * result string :=
  match collect_segments items [] with
  | Err e => ([], Err e)
  | Ok segments =>
      if len segments =? 0 then ([], Err no_segments_selected)
      else
        let basename :=
          TrimSuffix (filepath_Base inputFile) (filepath_Ext inputFile) in
        let outputFile := basename +:+ "_compiled.mp4" in
        let outputFile := filepath_Join (filepath_Dir inputFile) outputFile in
        let cmd := ffmpeg_command inputFile (selectFilter segments) outputFile in
        match run cmd with
        | Some err => ([cmd], Err (failed_to_compile_video_segments err))
        | None => ([cmd], Ok outputFile)
        end
  end.

(** The expressions of ffmpeg that [selectFilter] writes: [between(t,a,b)] is
    1 when [a <= t <= b] and 0 otherwise, [+] adds, and [select] keeps a frame
    whose value is not zero.  The numbers are the ones that [%.3f] printed. *)
Inductive ffexpr : Type :=
| ff_between_t (lo hi : float64)
| ff_add (a b : ffexpr).

Fixpoint ff_render (e : ffexpr) : string :=
  match e with
  | ff_between_t lo hi =>
      "between(t," +:+ Sprintf_3f lo +:+ "," +:+ Sprintf_3f hi +:+ ")"
  | ff_add a b => ff_render a +:+ "+" +:+ ff_render b
  end.

(** The number that [Sprintf_3f] writes down for a finite value. *)
Definition printed (q : Q) : Q :=
  let m := (inject_Z (round_half_even (Qabs q * inject_Z 1000)) / inject_Z 1000)%Q in
  if Qle_bool 0 q then m else (- m)%Q.

(** [lo <= t] and [t <= hi] on [float64]; a comparison with NaN is false. *)
Definition float64_le_Q (lo : float64) (t : Q) : bool :=
  match lo with
  | NaN => false
  | Inf neg => neg
  | Fin q => Qle_bool (printed q) t
  end.

Definition Q_le_float64 (t : Q) (hi : float64) : bool :=
  match hi with
  | NaN => false
  | Inf neg => negb neg
  | Fin q => Qle_bool t (printed q)
  end.

Fixpoint ff_eval (e : ffexpr) (t : Q) : Z :=
  match e with
  | ff_between_t lo hi => if float64_le_Q lo t && Q_le_float64 t hi then 1 else 0
  | ff_add a b => ff_eval a t + ff_eval b t
  end.

Definition ff_selects (e : ffexpr) (t : Q) : bool := negb (ff_eval e t =? 0).

(** The expression that [selectFilter] writes for segments that are not
    empty. *)
Fixpoint filter_expr (first : segment) (more : list segment) : ffexpr :=
  match more with
  | [] => ff_between_t (start first) (stop first)
  | s :: rest => ff_add (ff_between_t (start first) (stop first)) (filter_expr s rest)
  end.

(** ** main.go: messages, commands and the model *)

(** [err.Error()] *)
Fixpoint Error `{Platform} (e : error) : string :=
  match e with
  | scan_failure e => scan_err_Error e
  | exec_failure e => e
  | other_failure e => e
  | could_not_parse_start_time ts cause =>
      "could not parse start time '" +:+ ts +:+ "': " +:+ Error cause
  | could_not_parse_end_time ts cause =>
      "could not parse end time '" +:+ ts +:+ "': " +:+ Error cause
  | no_segments_selected => "no segments selected"
  | failed_to_compile_video_segments cause =>
      "failed to compile video segments: " +:+ Error cause
  end.

(** The values of [tea.Msg] that reach [Update].  [KeyMsg] carries
    [msg.String()]. *)
Inductive tea_Msg `{Platform} : Type :=
| KeyMsg (key : string)
| audioExtractedMsg (audioFile : string)
| transcriptionDoneMsg (vttContent : string) (transcriptItems : list TranscriptItem)
| videoCompilationDoneMsg (outputFile : string)
| errorMsg_value (err : error)
| spinner_TickMsg (t : lib_Msg)
| other_Msg (t : lib_Msg).

(** One command; a [tea.Cmd] is the list of the commands batched in it and
    [nil] is the empty list. *)
Inductive cmd `{Platform} : Type :=
| tea_Quit
| library_Cmd (c : lib_Cmd)
| extractAudioCmd (inputFile : string)
| transcribeAudioCmd (audioFile : string)
| compileVideoCmd (inputFile : string) (items : list list_Item).

Definition tea_Cmd `{Platform} : Type := list cmd.

(** What a [go] statement starts. *)
Inductive goroutine : Type :=
| previewVideo (inputFile startTime endTime : string).

(** The field [list] is written [list_]. *)
Record model `{Platform} : Type := {
  spinner : spinner_Model;
  loading : bool;
  loadingMsg : string;
  list_ : list_Model;
  quitting : bool;
  inputFile : string;
  errorMsg : string;
  transcriptItems : list TranscriptItem;
  statuses : list string
}.

Definition set_spinner `{Platform} (x : spinner_Model) (m : model) : model :=
  {| spinner := x; loading := loading m; loadingMsg := loadingMsg m;
     list_ := list_ m; quitting := quitting m; inputFile := inputFile m;
     errorMsg := errorMsg m; transcriptItems := transcriptItems m;
     statuses := statuses m |}.

Definition set_loading `{Platform} (x : bool) (m : model) : model :=
  {| spinner := spinner m; loading := x; loadingMsg := loadingMsg m;
     list_ := list_ m; quitting := quitting m; inputFile := inputFile m;
     errorMsg := errorMsg m; transcriptItems := transcriptItems m;
     statuses := statuses m |}.

Definition set_loadingMsg `{Platform} (x : string) (m : model) : model :=
  {| spinner := spinner m; loading := loading m; loadingMsg := x;
     list_ := list_ m; quitting := quitting m; inputFile := inputFile m;
     errorMsg := errorMsg m; transcriptItems := transcriptItems m;
     statuses := statuses m |}.

Definition set_list `{Platform} (x : list_Model) (m : model) : model :=
  {| spinner := spinner m; loading := loading m; loadingMsg := loadingMsg m;
     list_ := x; quitting := quitting m; inputFile := inputFile m;
     errorMsg := errorMsg m; transcriptItems := transcriptItems m;
     statuses := statuses m |}.

Definition set_quitting `{Platform} (x : bool) (m : model) : model :=
  {| spinner := spinner m; loading := loading m; loadingMsg := loadingMsg m;
     list_ := list_ m; quitting := x; inputFile := inputFile m;
     errorMsg := errorMsg m; transcriptItems := transcriptItems m;
     statuses := statuses m |}.

Definition set_errorMsg `{Platform} (x : string) (m : model) : model :=
  {| spinner := spinner m; loading := loading m; loadingMsg := loadingMsg m;
     list_ := list_ m; quitting := quitting m; inputFile := inputFile m;
     errorMsg := x; transcriptItems := transcriptItems m;
     statuses := statuses m |}.

Definition set_transcriptItems `{Platform} (x : list TranscriptItem) (m : model)
  : model :=
  {| spinner := spinner m; loading := loading m; loadingMsg := loadingMsg m;
     list_ := list_ m; quitting := quitting m; inputFile := inputFile m;
     errorMsg := errorMsg m; transcriptItems := x;
     statuses := statuses m |}.

(** [m.statuses = append(m.statuses, s)] *)
Definition add_status `{Platform} (x : string) (m : model) : model :=
  {| spinner := spinner m; loading := loading m; loadingMsg := loadingMsg m;
     list_ := list_ m; quitting := quitting m; inputFile := inputFile m;
     errorMsg := errorMsg m; transcriptItems := transcriptItems m;
     statuses := statuses m ++ [x] |}.

(** [i.selected = !i.selected] *)
Definition flip_selected (i : item) : item :=
  {| title := title i; timestamp := timestamp i; selected := negb (selected i) |}.

(** ** main.go: [Init] and [Update] *)

Definition Init `{Platform} (m : model) : tea_Cmd :=
  if loading m
  then [library_Cmd (spinner_Tick (spinner m)); extractAudioCmd (inputFile m)]
  else [].

(** The case ["enter", " "]: the item under the cursor is written back with
    its flag flipped.  The slice is shared with the list, and [SetItems]
    stores the same slice again. *)
Definition toggle `{Platform} (m : model) : model :=
  if negb (loading m) && (0 <? len (Items (list_ m)))
  then
    let selectedIndex := Index (list_ m) in
    if (0 <=? selectedIndex) && (selectedIndex <? len (Items (list_ m)))
    then
      let items := Items (list_ m) in
      match index items selectedIndex with
      | Some (item_value i) =>
          let items := <[Z.to_nat selectedIndex := item_value (flip_selected i)]> items in
          set_list (SetItems (list_ m) items) m
      | _ => m
      end
    else m
  else m.

(** The case ["p"]: the goroutines that it starts. *)
Definition preview `{Platform} (m : model) : list goroutine :=
  if negb (loading m) && (0 <? len (Items (list_ m)))
  then
    let selectedIndex := Index (list_ m) in
    if (0 <=? selectedIndex) && (selectedIndex <? len (Items (list_ m)))
    then
      let items := Items (list_ m) in
      match index items selectedIndex with
      | Some (item_value i) =>
          let startTime := first_part (timestamp i) " - " in
          match getEndTime items selectedIndex with
          | Some endTime => [previewVideo (inputFile m) startTime endTime]
          | None => []
          end
      | _ => []
      end
    else []
  else [].

(** The loop of the case ["c"] *)
Definition hasSelected (items : list list_Item) : bool :=
  existsb (λ listItem, match as_item listItem with
                       | Some i => selected i
                       | None => false
                       end) items.

Definition Update `{Platform} (m : model) (msg : tea_Msg)
  : model * tea_Cmd * list goroutine :=
  match msg with
  | KeyMsg key =>
      if bool_decide (key = "q") || bool_decide (key = "ctrl+c")
      then (set_quitting true m, [tea_Quit], [])
      else if bool_decide (key = "enter") || bool_decide (key = " ")
      then (toggle m, [], [])
      else if bool_decide (key = "p")
      then (m, [], preview m)
      else if bool_decide (key = "c")
      then
        if negb (loading m) && (0 <? len (Items (list_ m)))
           && hasSelected (Items (list_ m))
        then
          let m' := set_loadingMsg "Compiling video segments with ffmpeg..."
                      (set_loading true m) in
          (m', [library_Cmd (spinner_Tick (spinner m'));
                compileVideoCmd (inputFile m') (Items (list_ m))], [])
        else (m, [], [])
      else if negb (loading m)
      then
        let '(l, c) := list_Update (list_ m) key in
        (set_list l m, library_Cmd <$> c, [])
      else (m, [], [])
  | audioExtractedMsg audioFile =>
      let m := add_status "Audio extracted from ffmpeg." m in
      let m := set_loadingMsg "Transcribing with OpenAI Whisper..." m in
      (m, [transcribeAudioCmd audioFile], [])
  | transcriptionDoneMsg _ items =>
      let m := add_status "Transcription finished and saved locally." m in
      let m := set_loading false m in
      let m := set_transcriptItems items m in
      (set_list (list_New (to_items items)) m, [], [])
  | videoCompilationDoneMsg outputFile =>
      let m := add_status "Video compiled successfully." m in
      let m := add_status ("Saved output to " +:+ outputFile) m in
      let m := set_loading false m in
      (set_quitting true m, [tea_Quit], [])
  | errorMsg_value err =>
      let m := add_status (Error err) m in
      let m := set_loading false m in
      (set_errorMsg (Error err) m, [], [])
  | spinner_TickMsg t =>
      if loading m
      then
        let '(s, c) := spinner_Update (spinner m) t in
        (set_spinner s m, library_Cmd <$> c, [])
      else (m, [], [])
  | other_Msg _ => (m, [], [])
  end.

(** The message that the command of [compileVideoCmd] returns. *)
Definition compileVideoCmd_run `{Platform} (run : exec_Cmd → option error)
  (inputFile : string) (items : list list_Item) : tea_Msg :=
  match (compileVideoSegments run inputFile items).2 with
  | Err err => errorMsg_value err
  | Ok outputFile => videoCompilationDoneMsg outputFile
  end.

(** ** utils.go: the first run *)

(** The calls on the file system that a command makes, in order. *)
Inductive os_call : Type :=
| os_WriteFile (name data : string)
| os_Remove (name : string).

(** [exec.Command("ffmpeg", "-y", "-i", inputFile, audioFile)] *)
Definition extract_command (inputFile audioFile : string) : exec_Cmd :=
  {| Path := "ffmpeg"; Args := ["-y"; "-i"; inputFile; audioFile] |}.

(** [extractAudio]: the commands it has run and what it returns.  The error
    that [fmt.Errorf] makes is kept by its text, which is all that [Update]
    reads of it. *)
Definition extractAudio `{Platform} (run : exec_Cmd → option error)
  (inputFile : string) : list exec_Cmd * result string :=
  let basename := TrimSuffix (filepath_Base inputFile) (filepath_Ext inputFile) in
  let audioFile := basename +:+ ".mp3" in
  let cmd := extract_command inputFile audioFile in
  match run cmd with
  | Some err =>
      ([cmd], Err (other_failure ("failed to extract audio: " +:+ Error err)))
  | None => ([cmd], Ok audioFile)
  end.

(** The message that the command of [extractAudioCmd] returns. *)
Definition extractAudioCmd_run `{Platform} (run : exec_Cmd → option error)
  (inputFile : string) : tea_Msg :=
  match (extractAudio run inputFile).2 with
  | Err err => errorMsg_value err
  | Ok audioFile => audioExtractedMsg audioFile
  end.

(** The command of [transcribeAudioCmd]: its calls on the file system and
    the message it returns.  [transcribeWithOpenAI] is the outcome of the
    request and [WriteFile] that of [os.WriteFile], [None] for [nil]; the
    result of [os.Remove] is not looked at. *)
Definition transcribeAudioCmd_run `{Platform}
  (transcribeWithOpenAI : string → result string)
  (WriteFile : string → string → option error)
  (audioFile : string) : list os_call * tea_Msg :=
  match transcribeWithOpenAI audioFile with
  | Err err => ([], errorMsg_value err)
  | Ok vttContent =>
      let transcriptItems := parseVTT vttContent in
      let basename :=
        TrimSuffix (filepath_Base audioFile) (filepath_Ext audioFile) in
      let vttFile := basename +:+ ".vtt" in
      match WriteFile vttFile vttContent with
      | Some err => ([os_WriteFile vttFile vttContent], errorMsg_value err)
      | None =>
          ([os_WriteFile vttFile vttContent; os_Remove audioFile],
           transcriptionDoneMsg vttContent transcriptItems)
      end
  end.

(** [getSystemUser]; [Getenv] is [os.Getenv], which gives the empty text for
    a variable that is not set. *)
Definition getSystemUser (Getenv : string → string) : string :=
  let username := Getenv "USER" in
  let username := if bool_decide (username = "") then Getenv "USERNAME" else username in
  let username := if bool_decide (username = "") then "anon" else username in
  username.

(** ** main.go: the start *)

(** The files that [main] looks at: whether [os.Stat] finds the path, and
    the bytes that [os.ReadFile] returns, [None] for an error. *)
Record file_system : Type := {
  Stat : string → bool;
  ReadFile : string → option string
}.

Inductive started `{Platform} : Type :=
| os_Exit (code : Z)
| tea_NewProgram (initialModel : model).

Definition vttFile `{Platform} (inputFile : string) : string :=
  TrimSuffix (filepath_Base inputFile) (filepath_Ext inputFile) +:+ ".vtt".

(** [main] from its check for the transcript file on; the flags, the input
    file and the API key are settled before.  [s] is the spinner that it
    has made. *)
Definition main `{Platform} (fs : file_system) (s : spinner_Model)
  (inputFile : string) : started :=
  let initialModel :=
    {| spinner := s; loading := true;
       loadingMsg := "Extracting audio with ffmpeg...";
       list_ := list_zero; quitting := false; inputFile := inputFile;
       errorMsg := ""; transcriptItems := []; statuses := [] |} in
  if Stat fs (vttFile inputFile)
  then
    match ReadFile fs (vttFile inputFile) with
    | None => os_Exit 1
    | Some vttBytes =>
        let transcriptItems := parseVTT vttBytes in
        let l := list_New (to_items transcriptItems) in
        let m := set_loading false initialModel in
        let m := set_list l m in
        let m := set_transcriptItems transcriptItems m in
        tea_NewProgram (add_status "Transcript already exists locally" m)
    end
  else tea_NewProgram initialModel.

(** ** main.go: the view *)

(** The styles of [styles.go] and the views of the two components: what
    they render is not looked into. *)
Class Display `{Platform} : Type := {
  BulletStyle_Render : string → string;
  TextStyle_Render : string → string;
  spinner_View : spinner_Model → string;
  list_View : list_Model → string
}.

(** The loop of [styleOutput]: [i] is the index of the first of [rest] and
    [n] is [len(statuses)]. *)
Fixpoint styled `{D : Display} (n i : Z) (rest : list string) : list string :=
  match rest with
  | [] => []
  | status :: rest' =>
      let bullet := if i =? n - 1 then "└" else "├" in
      (BulletStyle_Render bullet +:+ TextStyle_Render status)
        :: styled n (i + 1) rest'
  end.

Definition styleOutput `{D : Display} (statuses : list string) : string :=
  Join (styled (len statuses) 0 statuses) (String "010" "") +:+ String "010" "".

(** [m.View()].  The header stays empty when there is no first and no
    last item, which the test before it rules out. *)
Definition View `{D : Display} (m : model) : string :=
  if quitting m then styleOutput (statuses m)
  else if negb (bool_decide (errorMsg m = ""))
  then styleOutput (statuses m) +:+ String "010" "Press 'q' to quit"
  else if loading m
  then
    let loadingText := spinner_View (spinner m) +:+ loadingMsg m in
    if 0 <? len (statuses m) then styleOutput (statuses m) +:+ loadingText
    else loadingText
  else if len (transcriptItems m) =? 0
  then styleOutput (statuses m) +:+ "No transcript items found"
  else
    let header :=
      match head (transcriptItems m), last (transcriptItems m) with
      | Some first, Some last_ =>
          "  Start: " +:+ StartTime first +:+ " | End: " +:+ EndTime last_
          +:+ String "010" ""
      | _, _ => ""
      end in
    styleOutput (statuses m) +:+ header +:+ list_View (list_ m).

(** ** The files of the program *)

(** [filepath.Ext] and [filepath.Base] of a Unix target, where the separator
    is [/] and no path has a volume name.  Both loops run from the end of the
    path: [back] holds the bytes that are still to be looked at, last one
    first, and [tail] the bytes behind them. *)
Fixpoint Ext_loop (back tail : string) : string :=
  match back with
  | "" => ""
  | String c back' =>
      if (c =? "/")%char then ""
      else if (c =? ".")%char then String c tail
      else Ext_loop back' (String c tail)
  end.

Definition unix_Ext (path : string) : string := Ext_loop (string_rev path) "".

(** [for len(path) > 0 && os.IsPathSeparator(path[len(path)-1])] *)
Fixpoint strip_trailing (back : string) : string :=
  match back with
  | String c back' => if (c =? "/")%char then strip_trailing back' else back
  | "" => ""
  end.

(** [for i >= 0 && !os.IsPathSeparator(path[i]) { i-- }] and [path[i+1:]] *)
Fixpoint last_element (back tail : string) : string :=
  match back with
  | "" => tail
  | String c back' =>
      if (c =? "/")%char then tail else last_element back' (String c tail)
  end.

Definition unix_Base (path : string) : string :=
  if bool_decide (path = "") then "."
  else
    let path := last_element (strip_trailing (string_rev path)) "" in
    if bool_decide (path = "") then "/" else path.

(** A file system as the program sees it after one of its calls has gone
    through; a file is known by the text of its path. *)
Definition perform (fs : file_system) (c : os_call) : file_system :=
  match c with
  | os_WriteFile name data =>
      {| Stat := λ p, String.eqb p name || Stat fs p;
         ReadFile := λ p, if String.eqb p name then Some data else ReadFile fs p |}
  | os_Remove name =>
      {| Stat := λ p, negb (String.eqb p name) && Stat fs p;
         ReadFile := λ p, if String.eqb p name then None else ReadFile fs p |}
  end.

(** ** The event loop *)

(** Work that has been started and has not yet ended. *)
Inductive operation `{Platform} : Type :=
| extracting (inputFile : string)
| transcribing (audioFile : string)
| compiling (inputFile : string) (items : list list_Item)
| previewing (inputFile startTime endTime : string)
| library_work (c : lib_Cmd).

Record world `{Platform} : Type := {
  current : model;
  in_flight : list operation;
  running : bool
}.

Definition launch `{Platform} (c : cmd) : list operation :=
  match c with
  | tea_Quit => []
  | library_Cmd c => [library_work c]
  | extractAudioCmd f => [extracting f]
  | transcribeAudioCmd f => [transcribing f]
  | compileVideoCmd f items => [compiling f items]
  end.

Definition spawn (g : goroutine) `{Platform} : operation :=
  match g with
  | previewVideo f a b => previewing f a b
  end.

Definition is_Quit `{Platform} (c : cmd) : bool :=
  match c with
  | tea_Quit => true
  | _ => false
  end.

(** The runtime hands [msg] to [Update], keeps the model that comes back and
    starts the commands and the goroutines. *)
Definition deliver `{Platform} (w : world) (msg : tea_Msg) : world :=
  let '(m, c, g) := Update (current w) msg in
  {| current := m;
     in_flight := in_flight w ++ (c ≫= launch) ++ ((λ x, spawn x) <$> g);
     running := running w && negb (existsb is_Quit c) |}.

(** [p.Run()] on the initial model *)
Definition boot `{Platform} (m : model) : world :=
  {| current := m; in_flight := Init m ≫= launch; running := true |}.

(** The message with which a piece of work ends.  A preview ends without
    one. *)
Inductive outcome `{Platform} : operation → tea_Msg → Prop :=
| extracted f audioFile : outcome (extracting f) (audioExtractedMsg audioFile)
| extract_failed f err : outcome (extracting f) (errorMsg_value err)
| transcribed f vtt : outcome (transcribing f) (transcriptionDoneMsg vtt (parseVTT vtt))
| transcribe_failed f err : outcome (transcribing f) (errorMsg_value err)
| compiled f items run : outcome (compiling f items) (compileVideoCmd_run run f items)
| library_tick c t : outcome (library_work c) (spinner_TickMsg t)
| library_other c t : outcome (library_work c) (other_Msg t).

Inductive step `{Platform} : world → world → Prop :=
| step_key w key :
    running w = true → step w (deliver w (KeyMsg key))
| step_terminal w t :
    running w = true → step w (deliver w (other_Msg t))
| step_outcome w pre op post msg :
    running w = true →
    in_flight w = pre ++ op :: post →
    outcome op msg →
    step w (deliver {| current := current w; in_flight := pre ++ post;
                       running := true |} msg)
| step_preview_over w pre f a b post :
    in_flight w = pre ++ previewing f a b :: post →
    step w {| current := current w; in_flight := pre ++ post;
              running := running w |}.

(** The number of previews and compilations in flight. *)
Definition is_preview `{Platform} (o : operation) : bool :=
  match o with
  | previewing _ _ _ => true
  | _ => false
  end.

Definition is_compile `{Platform} (o : operation) : bool :=
  match o with
  | compiling _ _ => true
  | _ => false
  end.

(** Extraction, transcription and compilation: the work that the model
    waits for with [loading] set. *)
Definition is_awaited `{Platform} (o : operation) : bool :=
  match o with
  | extracting _ | transcribing _ | compiling _ _ => true
  | _ => false
  end.

Definition count_ops `{Platform} (p : operation → bool) (l : list operation) : nat :=
  length (filter (λ o, p o = true) l).

(** ** The vocabulary of the statements *)

(** The four fields of a text of the form [HH:MM:SS.mmm]. *)
Definition field_hours (s : string) : string := string_take 2 s.
Definition field_minutes (s : string) : string := string_take 2 (string_drop 3 s).
Definition field_seconds (s : string) : string := string_take 2 (string_drop 6 s).
Definition field_millis (s : string) : string := string_drop 9 s.

(** The seconds that a timecode counts, as a whole number of thousandths. *)
Definition timecode_millis (s : string) : Z :=
  (digits_val (field_hours s) * 3600 + digits_val (field_minutes s) * 60) * 1000
  + digits_val (field_seconds s +:+ field_millis s).

(** The value of a timecode as [parseTimeToSeconds] returns it. *)
Definition timecode_value (s : string) : float64 :=
  Fin (Qred (timecode_millis s # 1000)).

(** A segment of the transcript with its flag, and the list items that
    [main] and [Update] make of the segments. *)
Abbreviation timed_segment := (TranscriptItem * bool)%type.

(** Both ends of the segment are timecodes. *)
Definition well_timed (x : timed_segment) : Prop :=
  is_timecode (StartTime x.1) = true ∧ is_timecode (EndTime x.1) = true.

Definition items_of (segs : list timed_segment) : list list_Item :=
  (λ x : timed_segment, item_value (to_item x.2 x.1)) <$> segs.

Definition chosen (segs : list timed_segment) : list TranscriptItem :=
  fst <$> filter (λ x : timed_segment, x.2 = true) segs.

(** The span that the code derives from a segment of the transcript. *)
Definition span_of (t : TranscriptItem) : segment :=
  {| start := timecode_value (StartTime t); stop := timecode_value (EndTime t) |}.

(** A segment spans a time when both its ends are finite and the time lies
    between them, the ends included. *)
Definition spans (sp : segment) (t : Q) : Prop :=
  match start sp, stop sp with
  | Fin a, Fin b => (a <= t)%Q ∧ (t <= b)%Q
  | _, _ => False
  end.

(** [between(t,lo,hi)] of one segment at time [t]. *)
Definition covers (sp : segment) (t : Q) : bool :=
  float64_le_Q (start sp) t && Q_le_float64 t (stop sp).

(** Where [compileVideoSegments] writes: next to the input, under its base
    name with [_compiled.mp4]. *)
Definition compiled_path `{Platform} (inputFile : string) : string :=
  filepath_Join (filepath_Dir inputFile)
    (TrimSuffix (filepath_Base inputFile) (filepath_Ext inputFile)
     +:+ "_compiled.mp4").

Definition is_MalformedTimestamp (e : error) : Prop :=
  ∃ ts cause, e = could_not_parse_start_time ts (scan_failure cause)
              ∨ e = could_not_parse_end_time ts (scan_failure cause).

(** The stored timestamp of an item is well formed: a timecode, [" - "]
    and a timecode. *)
Definition well_formed_range (ts : string) : bool :=
  is_timecode (string_take 12 ts)
  && String.eqb (string_take 3 (string_drop 12 ts)) " - "
  && is_timecode (string_drop 15 ts).

(** Two list items that differ at most in the flag [selected]. *)
Definition same_but_selected (x y : list_Item) : Prop :=
  match x, y with
  | item_value i, item_value j => title i = title j ∧ timestamp i = timestamp j
  | foreign_value a, foreign_value b => a = b
  | _, _ => False
  end.

(** The flag of the item under the cursor, when there is one. *)
Definition selected_at_cursor `{Platform} (m : model) : option bool :=
  match index (Items (list_ m)) (Index (list_ m)) with
  | Some (item_value i) => Some (selected i)
  | _ => None
  end.

(** The work of the first run: extraction and transcription. *)
Definition is_pipeline `{Platform} (o : operation) : bool :=
  match o with
  | extracting _ | transcribing _ => true
  | _ => false
  end.

(** The messages that do not end a piece of awaited work: keys, and what
    the terminal and the components send. *)
Definition local_msg `{Platform} (msg : tea_Msg) : Prop :=
  match msg with
  | KeyMsg _ | spinner_TickMsg _ | other_Msg _ => True
  | _ => False
  end.

(** The worlds that the program reaches from the initial model [m0]. *)
Definition reachable `{Platform} (m0 : model) (w : world) : Prop :=
  rtc step (boot m0) w.

(** At most one piece of awaited work is in flight, and none when
    [loading] is not set. *)
Definition one_awaited `{Platform} (w : world) : Prop :=
  (count_ops is_awaited (in_flight w) ≤ 1)%nat
  ∧ (loading (current w) = false → count_ops is_awaited (in_flight w) = 0%nat).

(** The name that [extractAudio] gives the audio file. *)
Definition audio_name `{Platform} (inputFile : string) : string :=
  TrimSuffix (filepath_Base inputFile) (filepath_Ext inputFile) +:+ ".mp3".

(** The number of bytes [c] in [s] *)
Fixpoint count_byte (c : ascii) (s : string) : nat :=
  match s with
  | "" => O
  | String d r => if (d =? c)%char then S (count_byte c r) else count_byte c r
  end.


(** A cue as a transcript file has it: the line of its times, the line of
    its text and an empty line; and a file of cues under the header. *)
Definition cue_times (t : TranscriptItem) : string :=
  StartTime t +:+ " --> " +:+ EndTime t.

Definition cue_block (t : TranscriptItem) : string :=
  cue_times t +:+ String "010" "" +:+ Text t +:+ String "010" (String "010" "").

Fixpoint cue_blocks (ts : list TranscriptItem) : string :=
  match ts with
  | [] => ""
  | t :: rest => cue_block t +:+ cue_blocks rest
  end.

Definition vtt_file (ts : list TranscriptItem) : string :=
  "WEBVTT" +:+ String "010" (String "010" "") +:+ cue_blocks ts.

(** The same file with the line ends of Windows: a carriage return before
    every newline; and what that does to the lines, all but the last. *)
Fixpoint with_CR (s : string) : string :=
  match s with
  | "" => ""
  | String c r =>
      if (c =? "010")%char then String "013" (String "010" (with_CR r))
      else String c (with_CR r)
  end.

Fixpoint CR_lines (lines : list string) : list string :=
  match lines with
  | [] => []
  | [x] => [x]
  | x :: rest => (x +:+ String "013" "") :: CR_lines rest
  end.

(** A text that [parseVTT] takes for the text of a cue as it stands: one
    line with no white space around it that is not empty, is no header and
    no line of times. *)
Definition cue_text (s : string) : Prop :=
  one_of s "010" = false ∧ TrimSpace s = s ∧ s ≠ ""
  ∧ HasPrefix s "WEBVTT" = false ∧ timeStampRegex s = None.

(** The list of the model shows the transcript of the model: its items are
    those made of the transcript items, in their order, each with a flag,
    and every one carries two timecodes. *)
Definition shows_transcript `{Platform} (m : model) : Prop :=
  ∃ segs : list timed_segment,
    Items (list_ m) = items_of segs
    ∧ fst <$> segs = transcriptItems m
    ∧ Forall well_timed segs.

(** Work in flight that is sound: a preview runs between two timecodes, and
    a compilation has items made of segments with timecodes, of which one at
    least is selected. *)
Definition sound_work `{Platform} (o : operation) : Prop :=
  match o with
  | previewing _ startTime endTime =>
      is_timecode startTime = true ∧ is_timecode endTime = true
  | compiling _ items =>
      ∃ segs : list timed_segment,
        items = items_of segs ∧ Forall well_timed segs ∧ chosen segs ≠ []
  | _ => True
  end.

(** A world in which the list shows the transcript and all work in flight
    is sound. *)
Definition sound `{Platform} (w : world) : Prop :=
  shows_transcript (current w) ∧ Forall sound_work (in_flight w).

(** The work that the model waits for is in flight exactly while [loading]
    is set, and then it is one piece of work. *)
Definition loading_is_work `{Platform} (w : world) : Prop :=
  count_ops is_awaited (in_flight w) = if loading (current w) then 1%nat else 0%nat.

(** A scanner action that only takes bytes from the head of the input. *)
Definition takes_prefix {A : Type} (m : scanner A) : Prop :=
  ∀ s a s', m s = inr (a, s') → ∃ p, input s = p +:+ input s'.

(** The list item is an [item] with its flag set. *)
Definition is_selected (listItem : list_Item) : bool :=
  match as_item listItem with
  | Some i => selected i
  | None => false
  end.

(** ** The formatter of the spec *)


(** ** Checks by computation *)

Definition digit_chars : list ascii :=
  ["0"; "1"; "2"; "3"; "4"; "5"; "6"; "7"; "8"; "9"]%char.

(** All the texts of [n] decimal digits. *)
Fixpoint digit_strings (n : nat) : list string :=
  match n with
  | O => [""]
  | S k => c ← digit_chars; String c <$> digit_strings k
  end.

Definition is_digits (n : nat) (s : string) : bool :=
  bool_decide (String.length s = n) && string_forallb is_digit s.

(** [%f] reads the five digits [d] of seconds and thousandths, written with
    the point, as their value over 1000. *)
Definition verb_f_reads (d : string) : bool :=
  let tok := string_take 2 d +:+ "." +:+ string_drop 2 d in
  match verb_f {| buf := ""; input := tok |} with
  | inr (Fin (Qmake n m), {| buf := b; input := "" |}) =>
      let v := Qred (digits_val d # 1000) in
      (n =? Qnum v) && (m =? Qden v)%positive && String.eqb b tok
  | _ => false
  end.

(** [%d] reads a text of two digits as its value, and [%02d] writes a
    number from 0 to 99 as the two digits of that value. *)
Definition Sscanf_d_reads (d : string) : bool :=
  match Sscanf_d d with
  | inr n => n =? digits_val d
  | inl _ => false
  end.

Definition Sprintf_02d_writes (v : Z) : bool :=
  is_digits 2 (Sprintf_02d v) && (digits_val (Sprintf_02d v) =? v).



(** ** Examples *)

(** A platform to run examples on: no spinner frames, a list that ignores
    its keys, and the paths of a file [name.mp4] in the working directory. *)
Definition demo_platform : Platform :=
  {| spinner_Model := unit;
     lib_Cmd := unit;
     lib_Msg := unit;
     spinner_Tick := λ _, ();
     spinner_Update := λ s _, (s, []);
     list_Update := λ l _, (l, []);
     filepath_Base := λ p, p;
     filepath_Ext := λ _, ".mp4";
     filepath_Dir := λ _, ".";
     filepath_Join := λ _ f, f;
     scan_err_Error := λ _, "scan error" |}.

(** The two segments of the example: ["a"] from 1 s to 2 s, not selected,
    and ["b"] from 2 s to 5 s, selected. *)
Definition demo_segments : list timed_segment :=
  [({| StartTime := "00:00:01.000"; EndTime := "00:00:02.000"; Text := "a" |}, false);
   ({| StartTime := "00:00:02.000"; EndTime := "00:00:05.000"; Text := "b" |}, true)].

(** The example segments and a last one that starts at one minute. *)
Definition minute_segments : list timed_segment :=
  demo_segments
  ++ [({| StartTime := "00:01:00.000"; EndTime := "00:01:04.000"; Text := "c" |},
       false)].

(** A model of the example platform that shows [segs] with the cursor at
    [cursor], as it is after the transcript was loaded. *)
Definition demo_model (segs : list timed_segment) (cursor : Z)
  : @model demo_platform :=
  @Build_model demo_platform () false "Extracting audio with ffmpeg..."
    {| list_items := items_of segs; list_index := cursor |}
    false "talk.mp4" "" (fst <$> segs) ["Transcript already exists locally"].

(** A transcript file as the transcription service writes it, and the files
    of a second run on [talk.mp4]: the transcript is there. *)
Definition demo_vtt : string :=
  "WEBVTT" +:+ String "010" (String "010"
  ("00:00:01.000 --> 00:00:02.000" +:+ String "010" ("a" +:+ String "010" (String "010"
  ("00:00:02.000 --> 00:00:05.000" +:+ String "010" ("b" +:+ String "010" "")))))).

Definition demo_fs : file_system :=
  {| Stat := λ p, String.eqb p "talk.vtt";
     ReadFile := λ p, if String.eqb p "talk.vtt" then Some demo_vtt else None |}.

(** The example with ["b"] selected and the key [c] pressed: a compilation
    is in flight. *)
Definition compiling_world : @world demo_platform :=
  deliver (boot (demo_model demo_segments 1)) (KeyMsg "c").

(** The example platform with the paths of a Unix target, for files in the
    working directory. *)
Definition unix_platform : Platform :=
  {| spinner_Model := unit;
     lib_Cmd := unit;
     lib_Msg := unit;
     spinner_Tick := λ _, ();
     spinner_Update := λ s _, (s, []);
     list_Update := λ l _, (l, []);
     filepath_Base := unix_Base;
     filepath_Ext := unix_Ext;
     filepath_Dir := λ _, ".";
     filepath_Join := λ _ f, f;
     scan_err_Error := λ _, "scan error" |}.

(** A disk with nothing on it. *)
Definition empty_fs : file_system :=
  {| Stat := λ _, false; ReadFile := λ _, None |}.

(** The segments of the example with nothing selected, as they are when
    the transcript has just been loaded. *)
Definition fresh_segments : list timed_segment :=
  (λ x : timed_segment, (x.1, false)) <$> demo_segments.

(** A display for the examples: a bullet is followed by a blank, and the
    components draw nothing. *)
Definition demo_display : @Display demo_platform :=
  {| BulletStyle_Render := λ s, s +:+ " ";
     TextStyle_Render := λ s, s;
     spinner_View := λ _, "";
     list_View := λ _, "" |}.

(** * Properties *)

(** ** Digits *)

Lemma is_digit_In (c : ascii) : is_digit c = true → In c digit_chars.
Proof.
  destruct c as [[] [] [] [] [] [] [] []]; cbv; intros Hd;
    first [ discriminate Hd | tauto ].
Qed.

Lemma digit_val_range (c : ascii) : is_digit c = true → 0 <= digit_val c <= 9.
Proof.
  intros Hd. apply is_digit_In in Hd. cbv [digit_chars In] in Hd.
  repeat destruct Hd as [<-|Hd]; try (cbv; split; discriminate). destruct Hd.
Qed.

Lemma digit_not (c d : ascii) :
  is_digit d = false → is_digit c = true → (d =? c)%char = false.
Proof.
  intros Hd Hc. apply Ascii.eqb_neq. intros ->. congruence.
Qed.

Lemma digit_not_r (c d : ascii) :
  is_digit d = false → is_digit c = true → (c =? d)%char = false.
Proof.
  intros Hd Hc. apply Ascii.eqb_neq. intros ->. congruence.
Qed.

(** Every digit of the context has a value from 0 to 9. *)
Ltac digit_ranges :=
  repeat match goal with
         | D : is_digit _ = true |- _ => apply digit_val_range in D
         end.

(** A digit is not the character [d], which is none. *)
Ltac digit_neq d :=
  repeat match goal with
         | D : is_digit ?c = true |- context [(d =? ?c)%char] =>
             rewrite (digit_not c d eq_refl D)
         | D : is_digit ?c = true |- context [(?c =? d)%char] =>
             rewrite (digit_not_r c d eq_refl D)
         end.

(** ** Splitting *)

Lemma prefix_append (sep r : string) : String.prefix sep (sep +:+ r) = true.
Proof.
  induction sep as [|c sep IH]; simpl; [by destruct r|].
  by destruct (ascii_dec c c).
Qed.

Lemma split_from_skip (sep t r : string) :
  split_from sep (String.length t) (t +:+ r) = split_from sep 0 r.
Proof. induction t as [|c t IH]; simpl; [done|apply IH]. Qed.

Lemma split_from_absent (c : ascii) (t a : string) :
  one_of a c = false → split_from (String c t) 0 a = [a].
Proof.
  induction a as [|d a IH]; simpl; [done|].
  intros [Hd Ha]%orb_false_elim. apply Ascii.eqb_neq in Hd.
  unfold HasPrefix; simpl. destruct (ascii_dec c d) as [->|_]; [done|].
  by rewrite IH.
Qed.

Lemma split_from_append (c : ascii) (t a r : string) :
  one_of a c = false →
  split_from (String c t) 0 (a +:+ String c t +:+ r)
  = a :: split_from (String c t) 0 r.
Proof.
  induction a as [|d a IH]; simpl.
  - intros _. unfold HasPrefix; simpl.
    destruct (ascii_dec c c) as [_|]; [|done].
    rewrite prefix_append, Nat.sub_0_r. by rewrite split_from_skip.
  - intros [Hd Ha]%orb_false_elim. apply Ascii.eqb_neq in Hd.
    unfold HasPrefix; simpl. destruct (ascii_dec c d) as [->|_]; [done|].
    by rewrite IH.
Qed.

Lemma split_from_nonempty (sep : string) (k : nat) (s : string) :
  split_from sep k s ≠ [].
Proof.
  revert k. induction s as [|c s IH]; intros k; cbn [split_from]; [done|].
  destruct k as [|k]; [|apply IH].
  destruct (HasPrefix (String c s) sep); [done|].
  by destruct (split_from sep 0 s).
Qed.

Lemma Split_nonempty (s sep : string) : Split s sep ≠ [].
Proof. apply split_from_nonempty. Qed.

Lemma one_of_digits (c : ascii) (s : string) :
  is_digit c = false → string_forallb is_digit s = true → one_of s c = false.
Proof.
  intros Hc. induction s as [|d s IH]; simpl; [done|].
  intros [Hd Hs]%andb_true_iff.
  rewrite IH by done. rewrite orb_false_r. apply Ascii.eqb_neq. intros ->. congruence.
Qed.

(** ** The shape of a timecode *)

Lemma is_timecode_shape (s : string) :
  is_timecode s = true →
  ∃ h1 h2 m1 m2 s1 s2 f1 f2 f3,
    s = String h1 (String h2 (String ":" (String m1 (String m2 (String ":"
          (String s1 (String s2 (String "." (String f1 (String f2
          (String f3 "")))))))))))
    ∧ Forall (λ c, is_digit c = true) [h1; h2; m1; m2; s1; s2; f1; f2; f3].
Proof.
  intros H.
  do 12 (destruct s as [|? s]; [discriminate H|]).
  destruct s; [|discriminate H]. simpl in H.
  repeat match type of H with
         | _ && _ = true => apply andb_true_iff in H; destruct H as [H ?]
         end.
  repeat match goal with
         | E : (_ =? _)%char = true |- _ => apply Ascii.eqb_eq in E; subst
         end.
  eexists _, _, _, _, _, _, _, _, _. split; [reflexivity|].
  repeat constructor; assumption.
Qed.

Ltac timecode_shape H :=
  let h1 := fresh "h1" in let h2 := fresh "h2" in
  let m1 := fresh "m1" in let m2 := fresh "m2" in
  let s1 := fresh "s1" in let s2 := fresh "s2" in
  let f1 := fresh "f1" in let f2 := fresh "f2" in let f3 := fresh "f3" in
  let E := fresh "E" in let D := fresh "D" in
  apply is_timecode_shape in H;
  destruct H as (h1 & h2 & m1 & m2 & s1 & s2 & f1 & f2 & f3 & E & D);
  repeat match goal with
         | D : Forall _ (_ :: _) |- _ => apply Forall_cons_1 in D; destruct D as [? D]
         | D : Forall _ [] |- _ => clear D
         end;
  subst.

Lemma timecode_no_space (s : string) : is_timecode s = true → one_of s " " = false.
Proof.
  intros H. timecode_shape H. simpl. digit_neq " "%char. reflexivity.
Qed.

Lemma Split_timestamp (a b : string) :
  is_timecode a = true → is_timecode b = true →
  Split (a +:+ " - " +:+ b) " - " = [a; b].
Proof.
  intros Ha Hb. unfold Split.
  rewrite (split_from_append " " "- " a b) by by apply timecode_no_space.
  rewrite (split_from_absent " " "- " b) by by apply timecode_no_space.
  reflexivity.
Qed.

Lemma Split_timecode_colon (s : string) :
  is_timecode s = true →
  Split s ":" = [field_hours s; field_minutes s; string_drop 6 s].
Proof.
  intros H. timecode_shape H. unfold Split, field_hours, field_minutes. simpl string_take.
  simpl string_drop.
  match goal with
  | |- split_from _ _ (String ?a (String ?b (String ":" ?r))) = _ =>
      change (String a (String b (String ":" r)))
        with (String a (String b "") +:+ ":" +:+ r)
  end.
  rewrite split_from_append by (apply one_of_digits; [done|simpl; by rewrite !andb_true_iff]).
  match goal with
  | |- _ :: split_from _ _ (String ?a (String ?b (String ":" ?r))) = _ =>
      change (String a (String b (String ":" r)))
        with (String a (String b "") +:+ ":" +:+ r)
  end.
  rewrite split_from_append by (apply one_of_digits; [done|simpl; by rewrite !andb_true_iff]).
  rewrite split_from_absent; [done|].
  simpl. digit_neq ":"%char. reflexivity.
Qed.

Lemma Split_seconds_dot (s : string) :
  is_timecode s = true →
  Split (string_drop 6 s) "." = [field_seconds s; field_millis s].
Proof.
  intros H. timecode_shape H. unfold Split, field_seconds, field_millis.
  simpl string_take. simpl string_drop.
  match goal with
  | |- split_from _ _ (String ?a (String ?b (String "." ?r))) = _ =>
      change (String a (String b (String "." r)))
        with (String a (String b "") +:+ "." +:+ r)
  end.
  rewrite split_from_append by (apply one_of_digits; [done|simpl; by rewrite !andb_true_iff]).
  rewrite split_from_absent; [done|].
  apply one_of_digits; [done|simpl; by rewrite !andb_true_iff].
Qed.

(** ** Checks over all digit texts *)

Lemma digit_strings_complete (n : nat) (s : string) :
  is_digits n s = true → s ∈ digit_strings n.
Proof.
  unfold is_digits. revert s. induction n as [|n IH]; intros s.
  - destruct s; [intros _; apply list_elem_of_singleton; done|done].
  - destruct s as [|c s]; [done|]. intros H. simpl in H.
    apply andb_true_iff in H as [Hl [Hc Hs]%andb_true_iff].
    apply bool_decide_eq_true in Hl. injection Hl as Hl.
    change (digit_strings (S n))
      with (digit_chars ≫= λ c, String c <$> digit_strings n).
    apply list_elem_of_bind. exists c. split.
    + apply list_elem_of_fmap. exists s. split; [done|].
      apply IH. rewrite Hs, andb_true_r. by apply bool_decide_eq_true.
    + apply list_elem_of_In. by apply is_digit_In.
Qed.

Lemma by_digit_strings (n : nat) (P : string → bool) :
  forallb P (digit_strings n) = true →
  ∀ s, is_digits n s = true → P s = true.
Proof.
  intros HP s Hs. apply digit_strings_complete in Hs.
  rewrite forallb_forall in HP. apply HP. by apply list_elem_of_In.
Qed.

Lemma verb_f_reads_all (d : string) : is_digits 5 d = true → verb_f_reads d = true.
Proof. apply by_digit_strings. vm_compute. reflexivity. Qed.

(** ** Scanning a timecode *)

Lemma verb_d_two_digits (a b : ascii) (r b0 : string) :
  is_digit a = true → is_digit b = true →
  verb_d {| buf := b0; input := String a (String b (String ":" r)) |}
  = inr (digits_val (String a (String b "")),
         {| buf := String a (String b ""); input := String ":" r |}).
Proof.
  intros Ha Hb. apply is_digit_In in Ha, Hb. cbv [digit_chars In] in Ha, Hb.
  repeat destruct Ha as [<-|Ha]; try destruct Ha;
    repeat destruct Hb as [<-|Hb]; try destruct Hb; reflexivity.
Qed.

Lemma verb_f_forgets_buf (b0 i : string) :
  verb_f {| buf := b0; input := i |} = verb_f {| buf := ""; input := i |}.
Proof.
  unfold verb_f, mbind, scanner_bind, SkipSpace, reset_buf. simpl.
  by destruct (skip_space (String.length i) i).
Qed.

Lemma verb_f_seconds (s1 s2 f1 f2 f3 : ascii) (b0 : string) :
  Forall (λ c, is_digit c = true) [s1; s2; f1; f2; f3] →
  verb_f {| buf := b0;
            input := String s1 (String s2 (String "." (String f1 (String f2
                       (String f3 ""))))) |}
  = inr (Fin (Qred (digits_val (String s1 (String s2 (String f1 (String f2
                                  (String f3 ""))))) # 1000)),
         {| buf := String s1 (String s2 (String "." (String f1 (String f2
                       (String f3 "")))));
            input := "" |}).
Proof.
  intros D. rewrite verb_f_forgets_buf.
  pose proof (verb_f_reads_all
                (String s1 (String s2 (String f1 (String f2 (String f3 "")))))) as R.
  unfold verb_f_reads in R. simpl string_take in R. simpl string_drop in R.
  simpl String.append in R.
  destruct (verb_f _) as [e|[[| |[n m]] [b [|c i]]]];
    try (discriminate R; fail);
    try (exfalso; apply diff_false_true, R; unfold is_digits; simpl;
         repeat (apply Forall_cons_1 in D; destruct D as [-> D]); reflexivity).
  assert (Hd : is_digits 5 (String s1 (String s2 (String f1 (String f2
                                (String f3 ""))))) = true).
  { unfold is_digits; simpl.
    repeat (apply Forall_cons_1 in D; destruct D as [-> D]); reflexivity. }
  specialize (R Hd).
  apply andb_true_iff in R as [[Hn Hm]%andb_true_iff Hb].
  apply Z.eqb_eq in Hn. apply Pos.eqb_eq in Hm. apply String.eqb_eq in Hb.
  subst b. repeat f_equal.
  destruct (Qred _) as [n' m']; simpl in Hn, Hm. by subst.
Qed.

Lemma wrap64_small (z : Z) : MinInt64 <= z <= MaxInt64 → wrap64 z = z.
Proof.
  unfold wrap64, MinInt64, MaxInt64. intros Hz.
  rewrite Z.mod_small; lia.
Qed.

Lemma parseTimeToSeconds_timecode (s : string) :
  is_timecode s = true → parseTimeToSeconds s = Ok (timecode_value s).
Proof.
  intros H. timecode_shape H.
  unfold parseTimeToSeconds, Sscanf_d_d_f, run_scan, mbind, scanner_bind.
  rewrite verb_d_two_digits by done. cbn [literal input buf Ascii.eqb Bool.eqb].
  rewrite verb_d_two_digits by done. cbn [literal input buf Ascii.eqb Bool.eqb].
  rewrite verb_f_seconds by (repeat constructor; done).
  cbn [mret scanner_ret].
  unfold timecode_value, timecode_millis, field_hours, field_minutes,
    field_seconds, field_millis, float64_add, float64_of_int.
  simpl string_take. simpl string_drop. simpl String.append.
  digit_ranges.
  unfold digits_val; simpl digits_val_from.
  rewrite !wrap64_small by (unfold MinInt64, MaxInt64; lia).
  do 2 f_equal. apply Qred_complete. rewrite !Qred_correct.
  unfold Qeq, Qplus, inject_Z; simpl Qnum; simpl Qden. lia.
Qed.

(** ** Numbers of whole thousandths *)

Lemma round_half_even_Z (q : Q) (n : Z) : (q == inject_Z n)%Q → round_half_even q = n.
Proof.
  intros Hq. unfold round_half_even.
  assert (Hf : Qfloor q = n) by (rewrite Hq; apply Qfloor_Z).
  rewrite Hf.
  assert (Hc : (q - inject_Z n ?= 1 # 2)%Q = Lt).
  { apply Qlt_alt. assert (E : (q - inject_Z n == 0)%Q) by (rewrite Hq; ring).
    by rewrite E. }
  by rewrite Hc.
Qed.

Lemma printed_millis (n : Z) : 0 <= n → (printed (Qred (n # 1000)) == n # 1000)%Q.
Proof.
  intros Hn. unfold printed.
  assert (H0 : Qle_bool 0 (Qred (n # 1000)) = true).
  { apply Qle_bool_iff. rewrite Qred_correct. unfold Qle; simpl. lia. }
  rewrite H0.
  rewrite (round_half_even_Z _ n).
  - unfold Qeq, Qdiv, Qmult, Qinv, inject_Z; simpl. lia.
  - rewrite Qred_correct, Qabs_pos by (unfold Qle; simpl; lia).
    unfold Qeq, Qmult, inject_Z; simpl. lia.
Qed.

Lemma timecode_millis_nonneg (s : string) : is_timecode s = true → 0 <= timecode_millis s.
Proof.
  intros H. timecode_shape H.
  unfold timecode_millis, field_hours, field_minutes, field_seconds, field_millis.
  simpl string_take. simpl string_drop. simpl String.append.
  digit_ranges.
  unfold digits_val; simpl digits_val_from. lia.
Qed.

(** A segment of timecodes is covered exactly where it spans. *)
Lemma covers_span_of (t : TranscriptItem) (x : Q) :
  is_timecode (StartTime t) = true → is_timecode (EndTime t) = true →
  covers (span_of t) x = true ↔ spans (span_of t) x.
Proof.
  intros Ha Hb. unfold covers, spans, span_of, timecode_value; simpl.
  rewrite andb_true_iff, !Qle_bool_iff.
  rewrite !printed_millis by by apply timecode_millis_nonneg.
  by rewrite !Qred_correct.
Qed.

(** ** The filter expression *)

Lemma selectFilter_renders (first : segment) (more : list segment) :
  selectFilter (first :: more) = ff_render (filter_expr first more).
Proof.
  unfold selectFilter. revert first.
  induction more as [|s more IH]; intros first; [done|].
  specialize (IH s). simpl in *. by rewrite IH.
Qed.

Lemma ff_eval_nonneg (first : segment) (more : list segment) (t : Q) :
  0 <= ff_eval (filter_expr first more) t.
Proof.
  revert first. induction more as [|s more IH]; intros first; simpl.
  - by destruct (_ && _).
  - specialize (IH s). destruct (_ && _); lia.
Qed.

Lemma ff_selects_covers (first : segment) (more : list segment) (t : Q) :
  ff_selects (filter_expr first more) t = true
  ↔ ∃ sp, sp ∈ first :: more ∧ covers sp t = true.
Proof.
  unfold ff_selects. rewrite negb_true_iff, Z.eqb_neq.
  revert first. induction more as [|s more IH]; intros first; simpl.
  - fold (covers first t). destruct (covers first t) eqn:E; split.
    + intros _. exists first. split; [left|done].
    + done.
    + done.
    + intros (sp & ->%list_elem_of_singleton & Hs). congruence.
  - fold (covers first t). specialize (IH s).
    pose proof (ff_eval_nonneg s more t) as Hp.
    destruct (covers first t) eqn:E; split.
    + intros _. exists first. split; [left|done].
    + lia.
    + intros Hn. destruct IH as [IH _].
      destruct IH as (sp & Hin & Hc); [lia|].
      exists sp. split; [by right|done].
    + intros (sp & Hin & Hc). apply elem_of_cons in Hin as [->|Hin]; [congruence|].
      destruct IH as [_ IH]. assert (ff_eval (filter_expr s more) t ≠ 0) by eauto. lia.
Qed.

(** ** The compile plan *)

Lemma chosen_cons (t : TranscriptItem) (sel : bool) (segs : list timed_segment) :
  chosen ((t, sel) :: segs) = if sel then t :: chosen segs else chosen segs.
Proof.
  unfold chosen. destruct sel.
  - by rewrite filter_cons_True.
  - by rewrite filter_cons_False.
Qed.

Lemma collect_segments_well_timed (segs : list timed_segment) (acc : list segment) :
  Forall well_timed segs →
  collect_segments (items_of segs) acc = Ok (acc ++ (span_of <$> chosen segs)).
Proof.
  intros Hw. revert acc.
  induction Hw as [|[t sel] segs [Ha Hb] Hw IH]; intros acc.
  - simpl. by rewrite app_nil_r.
  - rewrite chosen_cons. simpl in Ha, Hb |- *. destruct sel; [|apply IH].
    rewrite Split_timestamp by done.
    rewrite !parseTimeToSeconds_timecode by done.
    rewrite IH. by rewrite <- app_assoc.
Qed.

Lemma spans_parsed (ts : list TranscriptItem) :
  Forall (λ t, is_timecode (StartTime t) = true ∧ is_timecode (EndTime t) = true) ts →
  Forall2 (λ t sp, parseTimeToSeconds (StartTime t) = Ok (start sp)
                   ∧ parseTimeToSeconds (EndTime t) = Ok (stop sp))
    ts (span_of <$> ts).
Proof.
  induction 1 as [|t ts [Ha Hb] _ IH]; constructor; [|done].
  by rewrite !parseTimeToSeconds_timecode.
Qed.

Lemma chosen_well_timed (segs : list timed_segment) :
  Forall well_timed segs →
  Forall (λ t, is_timecode (StartTime t) = true ∧ is_timecode (EndTime t) = true)
    (chosen segs).
Proof.
  induction 1 as [|[t sel] segs Hx _ IH]; [constructor|].
  rewrite chosen_cons. destruct sel; [constructor|]; done.
Qed.

Lemma chosen_nonempty (segs : list timed_segment) :
  (∃ x, x ∈ segs ∧ x.2 = true) → chosen segs ≠ [].
Proof.
  intros (x & Hin & Hx). induction segs as [|[t sel] segs IH].
  - by apply elem_of_nil in Hin.
  - rewrite chosen_cons. apply elem_of_cons in Hin as [->|Hin].
    + simpl in Hx. by subst.
    + destruct sel; [done|by apply IH].
Qed.

(** C1, as amended.  For every sequence of segments with well-formed
    timecodes of which at least one is selected, [compileVideoSegments]
    derives one span for each selected segment, in the order of the sequence,
    whose ends are the start and the end of the segment as
    [parseTimeToSeconds] reads them; it runs ffmpeg once, with one filter
    expression for the video and the audio track, and that expression
    selects a time [t] exactly when some span has [start <= t <= end], the
    end included. *)
Theorem compile_plan_of_selection `{Platform} (run : exec_Cmd → option error)
  (inputFile : string) (segs : list timed_segment) :
  Forall well_timed segs →
  (∃ x, x ∈ segs ∧ x.2 = true) →
  ∃ (first : segment) (more : list segment),
    collect_segments (items_of segs) [] = Ok (first :: more)
    ∧ Forall2 (λ t sp, parseTimeToSeconds (StartTime t) = Ok (start sp)
                       ∧ parseTimeToSeconds (EndTime t) = Ok (stop sp))
        (chosen segs) (first :: more)
    ∧ selectFilter (first :: more) = ff_render (filter_expr first more)
    ∧ (∀ t : Q, ff_selects (filter_expr first more) t = true
                ↔ ∃ sp, sp ∈ first :: more ∧ spans sp t)
    ∧ let cmd := ffmpeg_command inputFile (selectFilter (first :: more))
                   (compiled_path inputFile) in
      compileVideoSegments run inputFile (items_of segs)
      = ([cmd], match run cmd with
                | Some err => Err (failed_to_compile_video_segments err)
                | None => Ok (compiled_path inputFile)
                end).
Proof.
  intros Hw Hsel.
  pose proof (collect_segments_well_timed segs [] Hw) as Hc. simpl in Hc.
  pose proof (spans_parsed _ (chosen_well_timed segs Hw)) as Hp.
  pose proof (chosen_well_timed segs Hw) as Ht.
  apply chosen_nonempty in Hsel.
  destruct (chosen segs) as [|t ts]; [done|]. simpl in Hc, Hp.
  exists (span_of t), (span_of <$> ts). split_and!; try done.
  - apply selectFilter_renders.
  - intros x. rewrite ff_selects_covers. split.
    + intros (sp & Hin & Hcov). exists sp. split; [done|].
      change (span_of t :: (span_of <$> ts)) with (span_of <$> t :: ts) in Hin.
      apply list_elem_of_fmap in Hin as (u & -> & Hu).
      rewrite Forall_forall in Ht. destruct (Ht u Hu). by apply covers_span_of.
    + intros (sp & Hin & Hcov). exists sp. split; [done|].
      change (span_of t :: (span_of <$> ts)) with (span_of <$> t :: ts) in Hin.
      apply list_elem_of_fmap in Hin as (u & -> & Hu).
      rewrite Forall_forall in Ht. destruct (Ht u Hu). by apply covers_span_of.
  - unfold compileVideoSegments. rewrite Hc. simpl.
    fold (compiled_path inputFile). by destruct (run _).
Qed.

(** The example of C1 on the code: only ["b"] is selected, and the plan is
    the one span from 2 s to 5 s with the filter [between(t,2.000,5.000)]. *)
Example compile_demo :
  collect_segments (items_of demo_segments) [] = Ok [{| start := Fin 2; stop := Fin 5 |}]
  ∧ selectFilter [{| start := Fin 2; stop := Fin 5 |}] = "between(t,2.000,5.000)".
Proof. split; vm_compute; reflexivity. Qed.

Lemma compile_plan_of_selection_witness :
  Forall well_timed demo_segments
  ∧ (∃ x, x ∈ demo_segments ∧ x.2 = true)
  ∧ ∀ t : Q, ff_selects (ff_between_t (Fin 2) (Fin 5)) t = true
             ↔ (2 <= t)%Q ∧ (t <= 5)%Q.
Proof.
  assert (Hw : Forall well_timed demo_segments)
    by (repeat constructor; reflexivity).
  assert (Hs : ∃ x, x ∈ demo_segments ∧ x.2 = true).
  { eexists. split; [right; left|reflexivity]. }
  split_and!; [done|done|].
  destruct (compile_plan_of_selection (H := demo_platform) (λ _, None)
              "talk.mp4" demo_segments Hw Hs)
    as (first & more & Hc & _ & _ & Hsem & _).
  vm_compute in Hc. injection Hc as <- <-.
  intros t. rewrite (Hsem t). split.
  - intros (sp & ->%list_elem_of_singleton & Hsp). exact Hsp.
  - intros Hsp. eexists. split; [left|]. exact Hsp.
Defined.

(** The claim C1 as it is worded fails at the end of a span: on the example,
    the filter selects [t = 5], which is not in [[2,5)]. *)
Lemma half_open_filter_counterexample :
  collect_segments (items_of demo_segments) [] = Ok [{| start := Fin 2; stop := Fin 5 |}]
  ∧ selectFilter [{| start := Fin 2; stop := Fin 5 |}]
    = ff_render (ff_between_t (Fin 2) (Fin 5))
  ∧ ¬ (∀ t : Q, ff_selects (ff_between_t (Fin 2) (Fin 5)) t = true
                → (2 <= t)%Q ∧ (t < 5)%Q).
Proof.
  split_and!; [vm_compute; reflexivity..|].
  intros Hall. destruct (Hall 5%Q) as [_ Hlt]; [vm_compute; reflexivity|].
  revert Hlt. vm_compute. discriminate.
Qed.

(** ** Adding seconds *)

Lemma Sscanf_d_two_digits (d : string) :
  is_digits 2 d = true → Sscanf_d d = inr (digits_val d).
Proof.
  intros Hd. pose proof (by_digit_strings 2 Sscanf_d_reads eq_refl d Hd) as R.
  unfold Sscanf_d_reads in R. destruct (Sscanf_d d); [done|].
  by apply Z.eqb_eq in R as ->.
Qed.

Lemma Sprintf_02d_two_digits (v : Z) :
  0 <= v < 100 →
  is_digits 2 (Sprintf_02d v) = true ∧ digits_val (Sprintf_02d v) = v.
Proof.
  intros Hv.
  assert (Hall : forallb Sprintf_02d_writes (seqZ 0 100) = true) by (vm_compute; reflexivity).
  rewrite forallb_forall in Hall.
  specialize (Hall v). unfold Sprintf_02d_writes in Hall.
  rewrite andb_true_iff, Z.eqb_eq in Hall. apply Hall.
  apply list_elem_of_In, elem_of_seqZ. lia.
Qed.

Lemma is_digits_two (d : string) :
  is_digits 2 d = true →
  ∃ a b, d = String a (String b "") ∧ is_digit a = true ∧ is_digit b = true.
Proof.
  unfold is_digits. destruct d as [|a [|b [|c d]]]; try done. simpl.
  rewrite andb_true_r, andb_true_iff. intros [Ha Hb]. by exists a, b.
Qed.

(** The text that [addSecondsToTimestamp] returns for a timecode, where the
    sum stays an [int]. *)
Lemma addSecondsToTimestamp_timecode (s : string) (n : Z) :
  is_timecode s = true →
  0 <= n →
  digits_val (field_seconds s) + n <= MaxInt64 →
  addSecondsToTimestamp s n
  = field_hours s +:+ ":" +:+ field_minutes s +:+ ":"
    +:+ Sprintf_02d (Z.min (digits_val (field_seconds s) + n) 59)
    +:+ "." +:+ field_millis s.
Proof.
  intros H Hn Hmax. unfold addSecondsToTimestamp.
  rewrite Split_timecode_colon, Split_seconds_dot by done.
  assert (Hd : is_digits 2 (field_seconds s) = true).
  { timecode_shape H. unfold is_digits, field_seconds; simpl. by rewrite !andb_true_iff. }
  rewrite Sscanf_d_two_digits by done.
  set (v := digits_val (field_seconds s)) in *.
  assert (Hv : 0 <= v).
  { subst v. timecode_shape H. unfold field_seconds, digits_val; simpl.
    digit_ranges. lia. }
  rewrite wrap64_small by (unfold MinInt64, MaxInt64 in *; lia).
  by destruct (Z.leb_spec 60 (v + n)); [rewrite Z.min_r by lia|rewrite Z.min_l by lia].
Qed.

(** C2, as amended.  For every well-formed timecode [HH:MM:SS.mmm] and every
    [n >= 0] for which [SS + n] is still an [int], [addSecondsToTimestamp]
    returns a well-formed timecode with the same hours, minutes and
    thousandths, whose seconds field is [SS + n] when that is below 60 and 59
    otherwise: nothing is carried into the minutes. *)
Theorem addSecondsToTimestamp_clamps (s : string) (n : Z) :
  is_timecode s = true →
  0 <= n →
  digits_val (field_seconds s) + n <= MaxInt64 →
  let r := addSecondsToTimestamp s n in
  is_timecode r = true
  ∧ field_hours r = field_hours s
  ∧ field_minutes r = field_minutes s
  ∧ field_millis r = field_millis s
  ∧ digits_val (field_seconds r) = Z.min (digits_val (field_seconds s) + n) 59.
Proof.
  intros H Hn Hmax r. subst r.
  rewrite addSecondsToTimestamp_timecode by done.
  assert (Hv : 0 <= digits_val (field_seconds s)).
  { timecode_shape H. unfold field_seconds, digits_val; simpl.
    digit_ranges. lia. }
  destruct (Sprintf_02d_two_digits (Z.min (digits_val (field_seconds s) + n) 59))
    as [Hd Hval]; [lia|].
  apply is_digits_two in Hd as (a & b & Hab & Ha & Hb).
  rewrite Hab in *. clear Hab.
  timecode_shape H.
  unfold field_hours, field_minutes, field_seconds, field_millis in *.
  simpl string_take in *. simpl string_drop in *. simpl.
  repeat match goal with
         | D : is_digit _ = true |- _ => rewrite D
         end.
  done.
Qed.

Lemma addSecondsToTimestamp_clamps_witness :
  is_timecode "00:00:55.000" = true
  ∧ 0 <= 10
  ∧ digits_val (field_seconds "00:00:55.000") + 10 <= MaxInt64
  ∧ addSecondsToTimestamp "00:00:55.000" 10 = "00:00:59.000"
  ∧ digits_val (field_seconds (addSecondsToTimestamp "00:00:55.000" 10))
    = Z.min (digits_val (field_seconds "00:00:55.000") + 10) 59.
Proof.
  split_and!; [reflexivity|lia|vm_compute; discriminate|reflexivity|].
  apply (addSecondsToTimestamp_clamps "00:00:55.000" 10);
    [reflexivity|lia|vm_compute; discriminate].
Defined.

(** The claim C2 as it is worded fails where the sum leaves the range of
    [int]: the seconds field wraps around to a negative number, which is
    written as it is and not clamped. *)
Lemma addSecondsToTimestamp_wraps_counterexample :
  is_timecode "00:00:01.000" = true
  ∧ 0 <= MaxInt64
  ∧ addSecondsToTimestamp "00:00:01.000" MaxInt64
    = "00:00:-9223372036854775808.000"
  ∧ is_timecode (addSecondsToTimestamp "00:00:01.000" MaxInt64) = false.
Proof. split_and!; [reflexivity|vm_compute; discriminate|vm_compute; reflexivity..]. Qed.

(** ** The preview range *)

(** Settles the comparisons of a key that is known with the keys of [Update]. *)
Ltac decide_keys :=
  repeat match goal with
         | |- context [bool_decide (?a = ?b)] =>
             let v := eval vm_compute in (bool_decide (a = b)) in
             change (bool_decide (a = b)) with v
         end;
  cbn [orb].

Lemma index_of_nat {A : Type} (l : list A) (k : nat) : index l (Z.of_nat k) = l !! k.
Proof.
  unfold index. destruct (Z.ltb_spec (Z.of_nat k) 0); [lia|]. by rewrite Nat2Z.id.
Qed.

Lemma len_items_of (segs : list timed_segment) : len (items_of segs) = len segs.
Proof. unfold len, items_of. by rewrite length_fmap. Qed.

Lemma lookup_items_of (segs : list timed_segment) (k : nat) :
  items_of segs !! k = (λ x : timed_segment, item_value (to_item x.2 x.1)) <$> segs !! k.
Proof. unfold items_of. apply list_lookup_fmap. Qed.

Lemma first_part_timestamp (sel : bool) (t : TranscriptItem) :
  is_timecode (StartTime t) = true → is_timecode (EndTime t) = true →
  first_part (timestamp (to_item sel t)) " - " = StartTime t.
Proof.
  intros Ha Hb. unfold first_part. simpl. by rewrite Split_timestamp.
Qed.

Lemma getEndTime_segments (segs : list timed_segment) (k : nat) (cur : timed_segment) :
  Forall well_timed segs →
  segs !! k = Some cur →
  getEndTime (items_of segs) (Z.of_nat k)
  = Some match segs !! S k with
         | Some next => StartTime next.1
         | None => addSecondsToTimestamp (StartTime cur.1) 10
         end.
Proof.
  intros Hw Hk. unfold getEndTime. rewrite len_items_of.
  replace (Z.of_nat k + 1) with (Z.of_nat (S k)) by lia.
  rewrite !index_of_nat, !lookup_items_of, Hk.
  destruct (segs !! S k) as [next|] eqn:Hn.
  - apply lookup_lt_Some in Hn as Hlt.
    destruct (Z.ltb_spec (Z.of_nat (S k)) (len segs)); [|unfold len in *; lia].
    cbn -[to_item first_part]. rewrite Forall_forall in Hw.
    destruct (Hw next) as [Ha Hb]; [by eapply list_elem_of_lookup_2|].
    by rewrite first_part_timestamp.
  - apply lookup_ge_None in Hn.
    destruct (Z.ltb_spec (Z.of_nat (S k)) (len segs)); [unfold len in *; lia|].
    cbn -[to_item first_part addSecondsToTimestamp]. rewrite Forall_forall in Hw.
    destruct (Hw cur) as [Ha Hb]; [by eapply list_elem_of_lookup_2|].
    by rewrite first_part_timestamp.
Qed.

(** C3.  In the interactive state, with a sequence of segments that is not
    empty and the cursor on one of them, the key [p] leaves the model as it
    is and starts one preview of the input file: from the start time of the
    segment under the cursor to the start time of the next segment when
    there is one, and otherwise to the start of the current segment with 10
    added to its seconds field by [addSecondsToTimestamp]: the hours, the
    minutes and the thousandths stay, nothing is carried, and the seconds
    [SS] become [SS + 10], held at 59. *)
Theorem preview_range `{Platform} (m : model) (segs : list timed_segment)
  (k : nat) (cur : timed_segment) :
  loading m = false →
  Items (list_ m) = items_of segs →
  Forall well_timed segs →
  Index (list_ m) = Z.of_nat k →
  segs !! k = Some cur →
  let startTime := StartTime cur.1 in
  Update m (KeyMsg "p")
  = (m, [],
     [previewVideo (inputFile m) startTime
        match segs !! S k with
        | Some next => StartTime next.1
        | None => addSecondsToTimestamp startTime 10
        end])
  ∧ addSecondsToTimestamp startTime 10
    = field_hours startTime +:+ ":" +:+ field_minutes startTime +:+ ":"
      +:+ Sprintf_02d (Z.min (digits_val (field_seconds startTime) + 10) 59)
      +:+ "." +:+ field_millis startTime.
Proof.
  intros Hl Hi Hw Hx Hk startTime. subst startTime.
  rewrite Forall_forall in Hw.
  destruct (Hw cur) as [Ha Hb]; [by eapply list_elem_of_lookup_2|].
  rewrite <- Forall_forall in Hw.
  split.
  - unfold Update. decide_keys.
    do 2 f_equal. unfold preview. rewrite Hl, Hi, Hx, len_items_of.
    cbn [negb andb]. apply lookup_lt_Some in Hk as Hlt.
    destruct (Z.ltb_spec 0 (len segs)); [|unfold len in *; lia].
    destruct (Z.leb_spec 0 (Z.of_nat k)); [|lia].
    destruct (Z.ltb_spec (Z.of_nat k) (len segs)); [|unfold len in *; lia].
    cbn [andb]. rewrite index_of_nat, lookup_items_of, Hk.
    cbn -[to_item first_part getEndTime].
    rewrite (getEndTime_segments segs k cur) by done.
    by rewrite first_part_timestamp.
  - apply addSecondsToTimestamp_timecode; [done|lia|].
    change MaxInt64 with 9223372036854775807.
    generalize dependent (StartTime cur.1). intros s Hs. timecode_shape Hs.
    unfold field_seconds, digits_val; simpl.
    digit_ranges. lia.
Qed.

(** The example of C3: the cursor is on the last segment, which starts at
    [00:01:00.000], and the preview ends at [00:01:10.000]. *)
Lemma preview_range_witness :
  loading (demo_model minute_segments 2) = false
  ∧ Forall well_timed minute_segments
  ∧ Update (demo_model minute_segments 2) (KeyMsg "p")
    = (demo_model minute_segments 2, [],
       [previewVideo "talk.mp4" "00:01:00.000" "00:01:10.000"]).
Proof.
  assert (Hw : Forall well_timed minute_segments) by (repeat constructor; reflexivity).
  split_and!; [reflexivity|exact Hw|].
  exact (proj1 (preview_range (H := demo_platform) (demo_model minute_segments 2)
                  minute_segments 2
                  ({| StartTime := "00:01:00.000"; EndTime := "00:01:04.000";
                      Text := "c" |}, false)
                  eq_refl eq_refl Hw eq_refl eq_refl)).
Defined.

(** ** Toggling the selection *)

Section Selection.

Context {H : Platform}.

Lemma index_Some {A : Type} (l : list A) (i : Z) (x : A) :
  index l i = Some x ↔ 0 <= i < len l ∧ l !! Z.to_nat i = Some x.
Proof.
  unfold index, len. destruct (Z.ltb_spec i 0); split.
  - done.
  - lia.
  - intros Hx. split; [|done]. apply lookup_lt_Some in Hx. lia.
  - by intros [_ Hx].
Qed.

Lemma index_insert_ne {A : Type} (l : list A) (i j : Z) (x : A) :
  0 <= i → j ≠ i → index (<[Z.to_nat i := x]> l) j = index l j.
Proof.
  intros Hi Hj. unfold index. destruct (Z.ltb_spec j 0); [done|].
  apply list_lookup_insert_ne. lia.
Qed.

Lemma flip_selected_twice (i : item) : flip_selected (flip_selected i) = i.
Proof. destruct i as [t ts b]. unfold flip_selected; simpl. by rewrite negb_involutive. Qed.

Lemma Update_toggle (m : model) (key : string) :
  key = "enter" ∨ key = " " → Update m (KeyMsg key) = (toggle m, [], []).
Proof. intros [->| ->]; unfold Update; by decide_keys. Qed.

(** What [toggle] does when the cursor is on an [item] and nothing loads. *)
Lemma toggle_at (m : model) (i : item) :
  loading m = false →
  index (Items (list_ m)) (Index (list_ m)) = Some (item_value i) →
  toggle m
  = set_list (SetItems (list_ m)
                (<[Z.to_nat (Index (list_ m)) := item_value (flip_selected i)]>
                   (Items (list_ m)))) m.
Proof.
  intros Hl Hi. unfold toggle. rewrite Hl, Hi.
  apply index_Some in Hi as [[H0 Hlen] _].
  destruct (Z.ltb_spec 0 (len (Items (list_ m)))); [|lia].
  destruct (Z.leb_spec 0 (Index (list_ m))); [|lia].
  by destruct (Z.ltb_spec (Index (list_ m)) (len (Items (list_ m)))); [|lia].
Qed.

(** When the cursor is not on an [item], or something loads, [toggle]
    changes nothing. *)
Lemma toggle_elsewhere (m : model) :
  loading m = true ∨ (∀ i, index (Items (list_ m)) (Index (list_ m)) ≠ Some (item_value i)) →
  toggle m = m.
Proof.
  intros Hm. unfold toggle. destruct (loading m); [done|]. destruct Hm as [|Hm]; [done|].
  cbn [negb andb]. destruct (_ <? _); [|done]. destruct (_ && _); [|done].
  destruct (index _ _) as [[i|]|] eqn:E; [|done..]. by destruct (Hm i).
Qed.

(** C6.  With the cursor on a segment of a sequence that is not empty, in
    the interactive state, the key for [ToggleSelection] pressed once flips
    the flag of that segment, and pressed twice in a row gives back the
    model as it was, with the flag at its original value. *)
Theorem toggle_twice (m : model) (key : string) (i : item) :
  key = "enter" ∨ key = " " →
  loading m = false →
  index (Items (list_ m)) (Index (list_ m)) = Some (item_value i) →
  let m1 := (Update m (KeyMsg key)).1.1 in
  let m2 := (Update m1 (KeyMsg key)).1.1 in
  selected_at_cursor m = Some (selected i)
  ∧ selected_at_cursor m1 = Some (negb (selected i))
  ∧ selected_at_cursor m2 = Some (selected i)
  ∧ m2 = m.
Proof.
  intros Hkey Hl Hi m1 m2. subst m1 m2. rewrite !Update_toggle by done.
  cbn [fst]. rewrite (toggle_at m i) by done.
  pose proof Hi as [[H0 Hlen] Hk]%index_Some.
  set (k := Z.to_nat (Index (list_ m))) in *.
  set (m1 := set_list _ m).
  assert (Hi1 : index (Items (list_ m1)) (Index (list_ m1))
                = Some (item_value (flip_selected i))).
  { apply index_Some. subst m1; simpl. unfold len in *. rewrite length_insert.
    split; [done|]. apply list_lookup_insert_eq. subst k. lia. }
  rewrite (toggle_at m1 (flip_selected i)) by done.
  assert (Hback : set_list (SetItems (list_ m1)
                    (<[Z.to_nat (Index (list_ m1)) := item_value (flip_selected (flip_selected i))]>
                       (Items (list_ m1)))) m1 = m).
  { subst m1; simpl. fold k. rewrite list_insert_insert_eq, flip_selected_twice.
    rewrite (list_insert_id (Items (list_ m)) k (item_value i)) by done.
    destruct m as [? ? ? [] ? ? ? ? ?]; reflexivity. }
  rewrite Hback. unfold selected_at_cursor. rewrite Hi1, Hi. done.
Qed.

Lemma same_but_selected_refl (x : list_Item) : same_but_selected x x.
Proof. by destruct x. Qed.

(** C10.  The key for [ToggleSelection] returns no command and starts no
    goroutine; in the model it returns, the cursor, the number of items,
    every item that is not under the cursor and every field of the model
    other than the list are as before, and the item under the cursor has
    its title and its timestamp as before. *)
Theorem toggle_frame (m : model) (key : string) :
  key = "enter" ∨ key = " " →
  ∃ m' : model,
    Update m (KeyMsg key) = (m', [], [])
    ∧ Index (list_ m') = Index (list_ m)
    ∧ len (Items (list_ m')) = len (Items (list_ m))
    ∧ (∀ j, j ≠ Index (list_ m) →
            index (Items (list_ m')) j = index (Items (list_ m)) j)
    ∧ (∀ x, index (Items (list_ m)) (Index (list_ m)) = Some x →
            ∃ x', index (Items (list_ m')) (Index (list_ m)) = Some x'
                  ∧ same_but_selected x x')
    ∧ (spinner m', loading m', loadingMsg m', quitting m', inputFile m',
       errorMsg m', transcriptItems m', statuses m')
      = (spinner m, loading m, loadingMsg m, quitting m, inputFile m,
         errorMsg m, transcriptItems m, statuses m).
Proof.
  intros Hkey. exists (toggle m). split; [by apply Update_toggle|].
  assert (Hsame : toggle m = m →
    Index (list_ (toggle m)) = Index (list_ m)
    ∧ len (Items (list_ (toggle m))) = len (Items (list_ m))
    ∧ (∀ j, j ≠ Index (list_ m) →
            index (Items (list_ (toggle m))) j = index (Items (list_ m)) j)
    ∧ (∀ x, index (Items (list_ m)) (Index (list_ m)) = Some x →
            ∃ x', index (Items (list_ (toggle m))) (Index (list_ m)) = Some x'
                  ∧ same_but_selected x x')
    ∧ (spinner (toggle m), loading (toggle m), loadingMsg (toggle m),
       quitting (toggle m), inputFile (toggle m), errorMsg (toggle m),
       transcriptItems (toggle m), statuses (toggle m))
      = (spinner m, loading m, loadingMsg m, quitting m, inputFile m,
         errorMsg m, transcriptItems m, statuses m)).
  { intros ->. split_and!; try done.
    intros x Hx. exists x. split; [done|apply same_but_selected_refl]. }
  destruct (loading m) eqn:Hl.
  { apply Hsame, toggle_elsewhere. by left. }
  destruct (index (Items (list_ m)) (Index (list_ m))) as [[i|v]|] eqn:Hi.
  - rewrite (toggle_at m i) by done.
    pose proof Hi as [[H0 Hlen] Hk]%index_Some.
    split_and!; simpl; rewrite ?Hl; try done.
    + unfold len. by rewrite length_insert.
    + intros j Hj. by apply index_insert_ne.
    + intros x [= <-]. exists (item_value (flip_selected i)). split; [|done].
      apply index_Some. unfold len in *. rewrite length_insert. split; [done|].
      apply list_lookup_insert_eq. lia.
  - apply Hsame, toggle_elsewhere. right. congruence.
  - apply Hsame, toggle_elsewhere. right. congruence.
Qed.

(** ** Compiling without a selection *)

Lemma collect_segments_none_selected (items : list list_Item) (acc : list segment) :
  hasSelected items = false → collect_segments items acc = Ok acc.
Proof.
  revert acc. induction items as [|x items IH]; intros acc; simpl; [done|].
  intros [Hx Hrest]%orb_false_elim.
  destruct (as_item x) as [i|]; [|by apply IH].
  rewrite Hx. by apply IH.
Qed.

(** C4.  In every state in which no segment is selected, the key [c]
    returns the model as it is, with no command and no goroutine, so the
    runtime starts nothing and the state, the segments and the cursor stay;
    and the compile operation itself, had it been called, runs no command and
    returns the error [no segments selected]. *)
Theorem compile_without_selection (m : model) :
  hasSelected (Items (list_ m)) = false →
  Update m (KeyMsg "c") = (m, [], [])
  ∧ (∀ w, current w = m → deliver w (KeyMsg "c") = w)
  ∧ ∀ run f, compileVideoSegments run f (Items (list_ m))
             = ([], Err no_segments_selected).
Proof.
  intros Hn.
  assert (Hu : Update m (KeyMsg "c") = (m, [], [])).
  { unfold Update. decide_keys. by rewrite Hn, andb_false_r. }
  split_and!; [done| |].
  - intros [m0 ops r] Hw. simpl in Hw. subst m0. unfold deliver. cbn [current].
    rewrite Hu. simpl. by rewrite app_nil_r, andb_true_r.
  - intros run f. unfold compileVideoSegments.
    by rewrite collect_segments_none_selected.
Qed.

End Selection.

Lemma toggle_twice_witness :
  let m := demo_model demo_segments 1 in
  loading m = false
  ∧ selected_at_cursor (Update m (KeyMsg " ")).1.1 = Some false
  ∧ (Update (Update m (KeyMsg " ")).1.1 (KeyMsg " ")).1.1 = m.
Proof.
  pose proof (toggle_twice (H := demo_platform) (demo_model demo_segments 1) " "
                (to_item true
                   {| StartTime := "00:00:02.000"; EndTime := "00:00:05.000";
                      Text := "b" |})
                (or_intror eq_refl) eq_refl eq_refl) as (_ & H1 & _ & H2).
  split_and!; [reflexivity|exact H1|exact H2].
Defined.

Lemma toggle_frame_witness :
  let m := demo_model demo_segments 0 in
  " " = "enter" ∨ " " = " "
  ∧ ∃ m', Update m (KeyMsg " ") = (m', [], [])
          ∧ index (Items (list_ m')) 1 = index (Items (list_ m)) 1.
Proof.
  intros m. right. split; [reflexivity|].
  destruct (toggle_frame (H := demo_platform) m " " (or_intror eq_refl))
    as (m' & Hu & _ & _ & Hother & _).
  exists m'. split; [exact Hu|]. apply Hother. discriminate.
Defined.

Lemma compile_without_selection_witness :
  let m := demo_model [({| StartTime := "00:00:01.000"; EndTime := "00:00:02.000";
                           Text := "a" |}, false)] 0 in
  hasSelected (Items (list_ m)) = false
  ∧ Update m (KeyMsg "c") = (m, [], []).
Proof.
  intros m. split; [reflexivity|].
  apply (compile_without_selection (H := demo_platform) m eq_refl).
Defined.

(** ** Timestamps that do not parse *)

Lemma parseTimeToSeconds_Err (ts : string) (e : error) :
  parseTimeToSeconds ts = Err e → ∃ cause, e = scan_failure cause.
Proof.
  unfold parseTimeToSeconds. destruct (Sscanf_d_d_f ts) as [err|[[h mi] sec]]; [|done].
  intros [= <-]. by exists err.
Qed.

Lemma collect_segments_malformed (items : list list_Item) (acc : list segment)
  (i : item) (t0 t1 : string) :
  item_value i ∈ items →
  selected i = true →
  Split (timestamp i) " - " = [t0; t1] →
  (∃ e, parseTimeToSeconds t0 = Err e) ∨ (∃ e, parseTimeToSeconds t1 = Err e) →
  ∃ e, collect_segments items acc = Err e ∧ is_MalformedTimestamp e.
Proof.
  intros Hin Hsel Hsplit Hbad. revert acc.
  induction items as [|x items IH]; intros acc; [by apply elem_of_nil in Hin|].
  cbn [collect_segments].
  destruct (as_item x) as [j|] eqn:Hx.
  2:{ apply elem_of_cons in Hin as [E|Hin]; [by subst x|by apply IH]. }
  destruct (selected j) eqn:Hj.
  2:{ apply elem_of_cons in Hin as [E|Hin]; [subst x|by apply IH].
      simpl in Hx. injection Hx as <-. congruence. }
  assert (Hhere : x = item_value i →
            ∃ e, match parseTimeToSeconds t0 with
                 | Err err => Err (could_not_parse_start_time t0 err)
                 | Ok a =>
                     match parseTimeToSeconds t1 with
                     | Err err => Err (could_not_parse_end_time t1 err)
                     | Ok b => collect_segments items (acc ++ [{| start := a; stop := b |}])
                     end
                 end = Err e ∧ is_MalformedTimestamp e).
  { intros _. destruct (parseTimeToSeconds t0) as [a|e0] eqn:E0.
    - destruct Hbad as [[e He]|[e He]]; [congruence|]. rewrite He.
      apply parseTimeToSeconds_Err in He as [cause ->].
      eexists. split; [done|]. exists t1, cause. by right.
    - apply parseTimeToSeconds_Err in E0 as [cause ->].
      eexists. split; [done|]. exists t0, cause. by left. }
  destruct (Split (timestamp j) " - ") as [|u0 [|u1 [|u2 us]]] eqn:Hs.
  - apply elem_of_cons in Hin as [E|Hin]; [subst x|by apply IH].
    simpl in Hx. injection Hx as <-. congruence.
  - apply elem_of_cons in Hin as [E|Hin]; [subst x|by apply IH].
    simpl in Hx. injection Hx as <-. congruence.
  - apply elem_of_cons in Hin as [E|Hin].
    + subst x. simpl in Hx. injection Hx as <-. rewrite Hsplit in Hs.
      injection Hs as <- <-. by apply Hhere.
    + destruct (parseTimeToSeconds u0) as [a|e0] eqn:E0.
      * destruct (parseTimeToSeconds u1) as [b|e1] eqn:E1; [by apply IH|].
        apply parseTimeToSeconds_Err in E1 as [cause ->].
        eexists. split; [done|]. exists u1, cause. by right.
      * apply parseTimeToSeconds_Err in E0 as [cause ->].
        eexists. split; [done|]. exists u0, cause. by left.
  - apply elem_of_cons in Hin as [E|Hin]; [subst x|by apply IH].
    simpl in Hx. injection Hx as <-. congruence.
Qed.

(** C8, as amended.  When a selected item has a timestamp that splits at
    [" - "] in exactly two parts and [parseTimeToSeconds] rejects one of
    them, [compileVideoSegments] runs no command and returns an error that
    names the part which could not be parsed and wraps the error of the
    scanner.  (A selected item whose timestamp does not split in two is
    passed over, and a part that the scanner accepts gives a span; see the
    counterexample.) *)
Theorem malformed_timestamp_fails `{Platform} (run : exec_Cmd → option error)
  (inputFile : string) (items : list list_Item) (i : item) (t0 t1 : string) :
  item_value i ∈ items →
  selected i = true →
  Split (timestamp i) " - " = [t0; t1] →
  (∃ e, parseTimeToSeconds t0 = Err e) ∨ (∃ e, parseTimeToSeconds t1 = Err e) →
  ∃ e, compileVideoSegments run inputFile items = ([], Err e)
       ∧ is_MalformedTimestamp e.
Proof.
  intros Hin Hsel Hsplit Hbad.
  destruct (collect_segments_malformed items [] i t0 t1 Hin Hsel Hsplit Hbad)
    as (e & He & Hm).
  exists e. split; [|done]. unfold compileVideoSegments. by rewrite He.
Qed.

Lemma malformed_timestamp_fails_witness :
  let i := {| title := "b"; timestamp := "00:00:02.000 - 00:0x:05.000";
              selected := true |} in
  selected i = true
  ∧ Split (timestamp i) " - " = ["00:00:02.000"; "00:0x:05.000"]
  ∧ (∃ e, parseTimeToSeconds "00:0x:05.000" = Err e)
  ∧ ∃ e, compileVideoSegments (H := demo_platform) (λ _, None) "talk.mp4"
           (items_of demo_segments ++ [item_value i]) = ([], Err e)
         ∧ is_MalformedTimestamp e.
Proof.
  intros i.
  assert (Hbad : ∃ e, parseTimeToSeconds "00:0x:05.000" = Err e)
    by (eexists; vm_compute; reflexivity).
  split_and!; [reflexivity|reflexivity|exact Hbad|].
  apply (malformed_timestamp_fails (H := demo_platform) (λ _, None) "talk.mp4"
           (items_of demo_segments ++ [item_value i]) i
           "00:00:02.000" "00:0x:05.000").
  - apply elem_of_app. right. left.
  - reflexivity.
  - reflexivity.
  - right. exact Hbad.
Defined.

(** The claim C8 as it is worded fails on the code.  A selected item whose
    stored timestamp has no [" - "] is passed over without an error, and the
    compilation succeeds on the other items; and a selected item with a
    timestamp that is not of the form [HH:MM:SS.mmm - HH:MM:SS.mmm], but which
    the scanner still reads, gives a span. *)
Lemma malformed_timestamp_counterexample :
  let bad := {| title := "x"; timestamp := "bogus"; selected := true |} in
  let odd := {| title := "y"; timestamp := "1:2:3 - 4:5:6"; selected := true |} in
  selected bad = true ∧ well_formed_range (timestamp bad) = false
  ∧ compileVideoSegments (H := demo_platform) (λ _, None) "talk.mp4"
      (item_value bad :: items_of demo_segments)
    = ([ffmpeg_command "talk.mp4" "between(t,2.000,5.000)" "talk_compiled.mp4"],
       Ok "talk_compiled.mp4")
  ∧ selected odd = true ∧ well_formed_range (timestamp odd) = false
  ∧ collect_segments [item_value odd] [] = Ok [{| start := Fin 3723; stop := Fin 14706 |}].
Proof. split_and!; vm_compute; reflexivity. Qed.

(** ** Formatting what was parsed *)






(** ** Work in flight *)

Section EventLoop.

Context {H : Platform}.

Lemma count_ops_app (p : operation → bool) (l1 l2 : list operation) :
  count_ops p (l1 ++ l2) = (count_ops p l1 + count_ops p l2)%nat.
Proof. unfold count_ops. by rewrite filter_app, length_app. Qed.

Lemma count_ops_cons (p : operation → bool) (o : operation)
  (l : list operation) :
  count_ops p (o :: l) = ((if p o then 1 else 0) + count_ops p l)%nat.
Proof.
  unfold count_ops. destruct (p o) eqn:E.
  - by rewrite filter_cons_True.
  - rewrite filter_cons_False; [done|]. by rewrite E.
Qed.

Lemma count_ops_nil (p : operation → bool) : count_ops p [] = 0%nat.
Proof. done. Qed.

Lemma count_library (c : list lib_Cmd) :
  count_ops is_awaited ((library_Cmd <$> c) ≫= launch) = 0%nat.
Proof.
  induction c as [|x c IH]; [done|].
  rewrite fmap_cons, bind_cons, count_ops_app, IH. done.
Qed.

Lemma count_spawned (g : list goroutine) :
  count_ops is_awaited ((λ x, spawn x) <$> g) = 0%nat.
Proof.
  induction g as [|[f a b] g IH]; [done|].
  rewrite fmap_cons, count_ops_cons, IH. done.
Qed.

Lemma loading_toggle (m : model) : loading (toggle m) = loading m.
Proof.
  unfold toggle. destruct (_ && _); [|done]. destruct (_ && _); [|done].
  by destruct (index _ _) as [[]|].
Qed.

(** A message that ends no awaited work either starts none and leaves
    [loading] as it is, or finds [loading] unset, sets it and starts one
    compilation. *)
Lemma deliver_local (w : world) (msg : tea_Msg) :
  local_msg msg →
  (count_ops is_awaited (in_flight (deliver w msg)) = count_ops is_awaited (in_flight w)
   ∧ loading (current (deliver w msg)) = loading (current w))
  ∨ (loading (current w) = false
     ∧ loading (current (deliver w msg)) = true
     ∧ count_ops is_awaited (in_flight (deliver w msg))
       = S (count_ops is_awaited (in_flight w))).
Proof.
  intros Hm. unfold deliver. destruct msg as [key| | | | |t|t]; try done; unfold Update.
  - repeat case_bool_decide; cbn [orb].
    all: try (left; simpl; rewrite ?count_ops_app, ?count_spawned, ?count_ops_nil,
                ?loading_toggle; split; [lia|done]).
    + destruct (negb (loading (current w)) && _ && _) eqn:E.
      * right. apply andb_true_iff in E as [[E _]%andb_true_iff _].
        apply negb_true_iff in E. simpl.
        rewrite !count_ops_app, !count_ops_cons, count_ops_nil. simpl.
        split_and!; [done|done|lia].
      * left. simpl. rewrite !count_ops_app, count_ops_nil. split; [lia|done].
    + destruct (negb (loading (current w))).
      * destruct (list_Update _ _) as [l c]. left. simpl.
        rewrite !count_ops_app, count_library, count_ops_nil. split; [lia|done].
      * left. simpl. rewrite !count_ops_app, count_ops_nil. split; [lia|done].
  - destruct (loading (current w)) eqn:E.
    + destruct (spinner_Update _ _) as [s c]. left. simpl.
      rewrite !count_ops_app, count_library, count_ops_nil. split; [lia|done].
    + left. simpl. rewrite !count_ops_app, count_ops_nil, E. split; [lia|done].
  - left. simpl. rewrite !count_ops_app, count_ops_nil. split; [lia|done].
Qed.

Lemma count_ops_le (p q : operation → bool) (l : list operation) :
  (∀ o, p o = true → q o = true) → (count_ops p l ≤ count_ops q l)%nat.
Proof.
  intros Hpq. induction l as [|o l IH]; [done|].
  rewrite !count_ops_cons. specialize (Hpq o).
  destruct (p o); [rewrite Hpq by done; lia|destruct (q o); lia].
Qed.

Lemma one_awaited_boot (m : model) : one_awaited (boot m).
Proof.
  unfold one_awaited, boot, Init. cbn [current in_flight].
  destruct (loading m); [|split; [apply Nat.le_0_l|done]].
  change ([library_Cmd (spinner_Tick (spinner m)); extractAudioCmd (inputFile m)]
          ≫= launch)
    with [library_work (spinner_Tick (spinner m)); extracting (inputFile m)].
  rewrite !count_ops_cons, count_ops_nil. simpl. split; [lia|done].
Qed.

Lemma one_awaited_local (w : world) (msg : tea_Msg) :
  local_msg msg → one_awaited w → one_awaited (deliver w msg).
Proof.
  intros Hm [Hle Hoff]. unfold one_awaited.
  destruct (deliver_local w msg Hm) as [[-> ->]|(Hl & -> & ->)]; [done|].
  rewrite Hoff by done. split; [lia|done].
Qed.

Lemma one_awaited_step (w w' : world) :
  step w w' → one_awaited w → one_awaited w'.
Proof.
  intros Hs Hw. destruct Hs as [w key Hr|w t Hr|w pre op post msg Hr Hin Hout|w pre f a b post Hin].
  - by apply one_awaited_local.
  - by apply one_awaited_local.
  - destruct Hw as [Hle Hoff]. rewrite Hin, count_ops_app, count_ops_cons in Hle, Hoff.
    set (w0 := {| current := current w; in_flight := pre ++ post; running := true |}).
    assert (Hnot : is_awaited op = false → one_awaited w0).
    { intros E. rewrite E in Hle, Hoff. unfold one_awaited, w0. simpl.
      rewrite count_ops_app. split; [lia|]. intros Hl. specialize (Hoff Hl). lia. }
    assert (Hdone : is_awaited op = true →
              count_ops is_awaited (pre ++ post) = 0%nat ∧ loading (current w) = true).
    { intros E. rewrite E in Hle, Hoff. rewrite count_ops_app. split; [lia|].
      destruct (loading (current w)); [done|]. specialize (Hoff eq_refl). lia. }
    destruct Hout as [f a|f err|f vtt|f err|f items run|c t|c t].
    + destruct (Hdone eq_refl) as [H0 Hl]. unfold one_awaited, deliver. simpl.
      rewrite (count_ops_app is_awaited (pre ++ post)), H0, Hl. simpl. split; [|done].
      rewrite count_ops_cons, count_ops_nil. simpl. lia.
    + destruct (Hdone eq_refl) as [H0 Hl]. unfold one_awaited, deliver. simpl.
      rewrite (count_ops_app is_awaited (pre ++ post)), H0, count_ops_nil. simpl.
      split; [lia|done].
    + destruct (Hdone eq_refl) as [H0 Hl]. unfold one_awaited, deliver. simpl.
      rewrite (count_ops_app is_awaited (pre ++ post)), H0, count_ops_nil. simpl.
      split; [lia|done].
    + destruct (Hdone eq_refl) as [H0 Hl]. unfold one_awaited, deliver. simpl.
      rewrite (count_ops_app is_awaited (pre ++ post)), H0, count_ops_nil. simpl.
      split; [lia|done].
    + destruct (Hdone eq_refl) as [H0 Hl]. unfold one_awaited, deliver, compileVideoCmd_run.
      destruct (compileVideoSegments run f items).2; simpl;
        rewrite (count_ops_app is_awaited (pre ++ post)), H0, count_ops_nil; simpl;
        split; (lia || done).
    + by apply one_awaited_local; [|apply Hnot].
    + by apply one_awaited_local; [|apply Hnot].
  - destruct Hw as [Hle Hoff]. rewrite Hin, count_ops_app, count_ops_cons in Hle, Hoff.
    unfold one_awaited. simpl. rewrite count_ops_app. simpl in Hle, Hoff.
    split; [lia|]. intros Hl. specialize (Hoff Hl). lia.
Qed.

Lemma one_awaited_reachable (m0 : model) (w : world) :
  reachable m0 w → one_awaited w.
Proof.
  unfold reachable. intros Hr.
  apply (rtc_ind_r (R := step) (λ w, one_awaited w) (boot m0)); [| |exact Hr].
  - apply one_awaited_boot.
  - intros y z _ Hs IH. by eapply one_awaited_step.
Qed.

(** While [loading] is set, the keys [p] and [c] do nothing. *)
Lemma busy_ignores (w : world) (key : string) :
  loading (current w) = true → key = "p" ∨ key = "c" →
  Update (current w) (KeyMsg key) = (current w, [], []) ∧ deliver w (KeyMsg key) = w.
Proof.
  intros Hl Hkey.
  assert (Hu : Update (current w) (KeyMsg key) = (current w, [], [])).
  { destruct Hkey as [-> | ->]; unfold Update, preview; decide_keys; by rewrite Hl. }
  split; [done|]. unfold deliver. rewrite Hu. destruct w as [m ops r]. simpl.
  by rewrite app_nil_r, andb_true_r.
Qed.

(** C5, as amended.  In every state that the program reaches, at most one
    extraction, transcription or compilation is in flight, so at most one
    compilation; while one is, [loading] is set; and while [loading] is set
    the keys [p] and [c] start nothing and change nothing.  (Previews are
    not counted: the key [p] does not set [loading], see the
    counterexample.) *)
Theorem single_awaited_operation (m0 : model) (w : world) :
  reachable m0 w →
  (count_ops is_awaited (in_flight w) ≤ 1)%nat
  ∧ (count_ops is_compile (in_flight w) ≤ 1)%nat
  ∧ ((0 < count_ops is_compile (in_flight w))%nat → loading (current w) = true)
  ∧ (loading (current w) = true →
     ∀ key, key = "p" ∨ key = "c" →
            Update (current w) (KeyMsg key) = (current w, [], [])
            ∧ deliver w (KeyMsg key) = w).
Proof.
  intros Hr. destruct (one_awaited_reachable m0 w Hr) as [Hle Hoff].
  assert (Hc : (count_ops is_compile (in_flight w) ≤ count_ops is_awaited (in_flight w))%nat).
  { apply count_ops_le. by intros []. }
  split_and!; [done|lia| |].
  - intros Hpos. destruct (loading (current w)); [done|]. specialize (Hoff eq_refl). lia.
  - intros Hl key Hkey. by apply busy_ignores.
Qed.

(** ** The second run *)

Lemma count_pipeline_library (c : list lib_Cmd) :
  count_ops is_pipeline ((library_Cmd <$> c) ≫= launch) = 0%nat.
Proof.
  induction c as [|x c IH]; [done|].
  rewrite fmap_cons, bind_cons, count_ops_app, IH. done.
Qed.

Lemma count_pipeline_spawned (g : list goroutine) :
  count_ops is_pipeline ((λ x, spawn x) <$> g) = 0%nat.
Proof.
  induction g as [|[f a b] g IH]; [done|].
  rewrite fmap_cons, count_ops_cons, IH. done.
Qed.

(** Only the message of a finished extraction makes [Update] start
    pipeline work. *)
Lemma deliver_no_pipeline (w : world) (msg : tea_Msg) :
  (∀ a, msg ≠ audioExtractedMsg a) →
  count_ops is_pipeline (in_flight (deliver w msg))
  = count_ops is_pipeline (in_flight w).
Proof.
  intros Hm. unfold deliver.
  destruct msg as [key|a|vtt ts|out|err|t|t]; unfold Update.
  - repeat case_bool_decide; cbn [orb].
    all: try (simpl; rewrite ?count_ops_app, ?count_pipeline_spawned, ?count_ops_nil; lia).
    + destruct (negb (loading (current w)) && _ && _); simpl;
        rewrite !count_ops_app, ?count_ops_cons, ?count_ops_nil; simpl; lia.
    + destruct (negb (loading (current w))); [destruct (list_Update _ _) as [l c]|];
        simpl; rewrite !count_ops_app, ?count_pipeline_library, ?count_ops_nil; lia.
  - by destruct (Hm a).
  - simpl. rewrite !count_ops_app, count_ops_nil. lia.
  - simpl. rewrite !count_ops_app, count_ops_nil. simpl. lia.
  - simpl. rewrite !count_ops_app, count_ops_nil. lia.
  - destruct (loading (current w)); [destruct (spinner_Update _ _) as [s c]|];
      simpl; rewrite !count_ops_app, ?count_pipeline_library, ?count_ops_nil; lia.
  - simpl. rewrite !count_ops_app, count_ops_nil. lia.
Qed.

Lemma no_pipeline_step (w w' : world) :
  step w w' →
  count_ops is_pipeline (in_flight w) = 0%nat →
  count_ops is_pipeline (in_flight w') = 0%nat.
Proof.
  intros Hs Hw.
  destruct Hs as [w key Hr|w t Hr|w pre op post msg Hr Hin Hout|w pre f a b post Hin].
  - by rewrite deliver_no_pipeline.
  - by rewrite deliver_no_pipeline.
  - rewrite Hin, count_ops_app, count_ops_cons in Hw.
    rewrite deliver_no_pipeline.
    + simpl. rewrite count_ops_app. lia.
    + intros a ->. inversion Hout; subst; [simpl in Hw; lia|].
      match goal with
      | E : compileVideoCmd_run ?r ?f ?i = _ |- _ =>
          unfold compileVideoCmd_run in E;
          destruct (compileVideoSegments r f i).2; discriminate E
      end.
  - rewrite Hin, count_ops_app, count_ops_cons in Hw.
    simpl. rewrite count_ops_app. lia.
Qed.


End EventLoop.

Lemma single_awaited_operation_witness :
  reachable (demo_model demo_segments 1) compiling_world
  ∧ in_flight compiling_world
    = [@library_work demo_platform (); compiling "talk.mp4" (items_of demo_segments)]
  ∧ (count_ops is_compile (in_flight compiling_world) ≤ 1)%nat
  ∧ Update (current compiling_world) (KeyMsg "p") = (current compiling_world, [], [])
  ∧ Update (current compiling_world) (KeyMsg "c") = (current compiling_world, [], []).
Proof.
  assert (Hr : reachable (demo_model demo_segments 1) compiling_world).
  { apply rtc_once. apply (step_key (H := demo_platform)). reflexivity. }
  destruct (single_awaited_operation (H := demo_platform) _ _ Hr)
    as (_ & Hc & _ & Hbusy).
  split_and!; [exact Hr|reflexivity|exact Hc| |].
  - apply (Hbusy eq_refl "p"). by left.
  - apply (Hbusy eq_refl "c"). by right.
Defined.

(** The claim C5 as it is worded fails for previews.  On a second run over
    [talk.mp4], whose transcript is on disk, the key [p] pressed twice leaves
    two previews in flight; nothing makes the second wait for the first. *)
Lemma two_previews_counterexample :
  ∃ (m : @model demo_platform) (w : world),
    main (H := demo_platform) demo_fs () "talk.mp4" = tea_NewProgram m
    ∧ reachable m w
    ∧ in_flight w = [previewing "talk.mp4" "00:00:01.000" "00:00:02.000";
                     previewing "talk.mp4" "00:00:01.000" "00:00:02.000"]
    ∧ count_ops is_preview (in_flight w) = 2%nat.
Proof.
  eexists. eexists (deliver (deliver (boot _) (KeyMsg "p")) (KeyMsg "p")).
  split_and!.
  - reflexivity.
  - eapply rtc_l; [apply (step_key (H := demo_platform)); reflexivity|].
    apply rtc_once. apply (step_key (H := demo_platform)). reflexivity.
  - vm_compute. reflexivity.
  - vm_compute. reflexivity.
Qed.


(** ** What the transcript parser hands on *)

Lemma timeStampRegex_timecodes (line a b : string) :
  timeStampRegex line = Some (a, b) → is_timecode a = true ∧ is_timecode b = true.
Proof.
  unfold timeStampRegex.
  destruct (is_timecode (string_take 12 line)) eqn:Ha; [|done].
  destruct (bool_decide _); [|done].
  destruct (is_timecode (string_take 12 (string_drop 17 line))) eqn:Hb; [|done].
  by intros [= <- <-].
Qed.

(** Every item that [parseVTT] returns carries two timecodes, so the items
    that [main] and [Update] make of a transcript are well timed. *)
Lemma parseVTT_timecodes (vttContent : string) :
  Forall (λ t, is_timecode (StartTime t) = true ∧ is_timecode (EndTime t) = true)
    (parseVTT vttContent).
Proof.
  unfold parseVTT.
  set (good := λ st : string * string * list TranscriptItem,
         (st.1.1 = "" ∨ is_timecode st.1.1 = true ∧ is_timecode st.1.2 = true)
         ∧ Forall (λ t, is_timecode (StartTime t) = true ∧ is_timecode (EndTime t) = true)
             st.2).
  assert (Hfold : ∀ lines st, good st → good (foldl parseVTT_line st lines)).
  { induction lines as [|line lines IH]; intros st Hst; [done|].
    simpl. apply IH. destruct st as [[cs ce] acc]. destruct Hst as [Hc Hacc].
    unfold parseVTT_line. simpl in Hc, Hacc.
    destruct (timeStampRegex (TrimSpace line)) as [[a b]|] eqn:E.
    - apply timeStampRegex_timecodes in E. split; [by right|done].
    - destruct (_ || _); [by split|].
      destruct (negb _ && negb (bool_decide (cs = ""))) eqn:E2; [|by split].
      split; [by left|]. simpl. apply Forall_app. split; [done|].
      apply andb_true_iff in E2 as [_ E2]. apply negb_true_iff in E2.
      apply bool_decide_eq_false in E2. destruct Hc as [|Hc]; [done|].
      apply Forall_cons. split; [exact Hc|constructor]. }
  apply (Hfold _ ("", "", [])). split; [by left|constructor].
Qed.

(** [getEndTime] does not panic on an index of the slice. *)
Lemma getEndTime_in_range (items : list list_Item) (i : Z) :
  0 <= i < len items → is_Some (getEndTime items i).
Proof.
  intros Hi. unfold getEndTime.
  assert (Hcur : is_Some (index items i)).
  { unfold index. destruct (Z.ltb_spec i 0); [lia|].
    apply lookup_lt_is_Some. unfold len in Hi. lia. }
  destruct (Z.ltb_spec (i + 1) (len items)).
  - assert (Hnext : is_Some (index items (i + 1))).
    { unfold index. destruct (Z.ltb_spec (i + 1) 0); [lia|].
      apply lookup_lt_is_Some. unfold len in *. lia. }
    destruct Hnext as [x ->]. destruct (as_item x); [done|].
    destruct Hcur as [y ->]. by destruct (as_item y).
  - destruct Hcur as [y ->]. by destruct (as_item y).
Qed.

(** ** Texts and their ends *)

Lemma append_cons (c : ascii) (a b : string) : String c a +:+ b = String c (a +:+ b).
Proof. reflexivity. Qed.

Lemma append_assoc (a b c : string) : (a +:+ b) +:+ c = a +:+ b +:+ c.
Proof. induction a as [|x a IH]; [done|by rewrite !append_cons, IH]. Qed.

Lemma append_nil_r (a : string) : a +:+ "" = a.
Proof. induction a as [|x a IH]; [done|by rewrite append_cons, IH]. Qed.

Lemma length_append (a b : string) :
  String.length (a +:+ b) = (String.length a + String.length b)%nat.
Proof. induction a as [|x a IH]; [done|rewrite append_cons; simpl; by rewrite IH]. Qed.

Lemma string_rev_onto_append (acc s : string) :
  string_rev_onto acc s = string_rev s +:+ acc.
Proof.
  unfold string_rev. revert acc. induction s as [|c s IH]; intros acc; simpl; [done|].
  rewrite (IH (String c acc)), (IH (String c "")). by rewrite append_assoc.
Qed.

Lemma string_rev_cons (c : ascii) (s : string) :
  string_rev (String c s) = string_rev s +:+ String c "".
Proof. unfold string_rev at 1. simpl. apply string_rev_onto_append. Qed.

Lemma string_rev_append (a b : string) :
  string_rev (a +:+ b) = string_rev b +:+ string_rev a.
Proof.
  induction a as [|c a IH].
  - change (string_rev "") with "". by rewrite append_nil_r.
  - by rewrite append_cons, !string_rev_cons, IH, append_assoc.
Qed.

Lemma string_rev_involutive (s : string) : string_rev (string_rev s) = s.
Proof.
  induction s as [|c s IH]; [done|].
  by rewrite string_rev_cons, string_rev_append, IH.
Qed.

Lemma string_take_append (a b : string) : string_take (String.length a) (a +:+ b) = a.
Proof.
  induction a as [|c a IH]; [by destruct b|].
  rewrite append_cons. simpl. by rewrite IH.
Qed.

Lemma HasSuffix_append (a suf : string) : HasSuffix (a +:+ suf) suf = true.
Proof. unfold HasSuffix. rewrite string_rev_append. apply prefix_append. Qed.

Lemma TrimSuffix_append (a suf : string) : TrimSuffix (a +:+ suf) suf = a.
Proof.
  unfold TrimSuffix. rewrite HasSuffix_append, length_append.
  replace (String.length a + String.length suf - String.length suf)%nat
    with (String.length a) by lia.
  apply string_take_append.
Qed.

Lemma prefix_split (p s : string) :
  String.prefix p s = true → ∃ r, s = p +:+ r.
Proof.
  revert s. induction p as [|c p IH]; intros s; simpl.
  - intros _. by exists s.
  - destruct s as [|d s]; simpl; [done|]. destruct (ascii_dec c d) as [->|]; [|done].
    intros [r ->]%IH. by exists r.
Qed.

(** A text with the suffix is what [TrimSuffix] leaves of it and the
    suffix. *)
Lemma HasSuffix_split (s suf : string) :
  HasSuffix s suf = true → s = TrimSuffix s suf +:+ suf.
Proof.
  intros Hs. pose proof Hs as [r Hr]%prefix_split.
  assert (E : s = string_rev r +:+ suf).
  { rewrite <- (string_rev_involutive s), Hr, string_rev_append.
    by rewrite string_rev_involutive. }
  rewrite E at 2. by rewrite E, TrimSuffix_append.
Qed.

Lemma one_of_append (a b : string) (c : ascii) :
  one_of (a +:+ b) c = one_of a c || one_of b c.
Proof.
  induction a as [|x a IH]; [done|].
  rewrite append_cons. simpl. by rewrite IH, orb_assoc.
Qed.

Lemma one_of_rev (s : string) (c : ascii) : one_of (string_rev s) c = one_of s c.
Proof.
  induction s as [|x s IH]; [done|].
  rewrite string_rev_cons, one_of_append, IH. simpl.
  rewrite orb_false_r. apply orb_comm.
Qed.

Lemma one_of_take (n : nat) (s : string) (c : ascii) :
  one_of s c = false → one_of (string_take n s) c = false.
Proof.
  revert n. induction s as [|x s IH]; intros [|n]; simpl; try done.
  intros [-> Hs]%orb_false_elim. by apply IH.
Qed.

Lemma one_of_TrimSuffix (s suf : string) (c : ascii) :
  one_of s c = false → one_of (TrimSuffix s suf) c = false.
Proof.
  intros Hs. unfold TrimSuffix.
  destruct (HasSuffix s suf); [by apply one_of_take|done].
Qed.

(** ** Reading a transcript *)

Lemma parseVTT_line_step (cs ce : string) (acc : list TranscriptItem) (line : string) :
  parseVTT_line (cs, ce, acc) line
  = match timeStampRegex (TrimSpace line) with
    | Some (a, b) => (a, b, acc)
    | None =>
        if HasPrefix (TrimSpace line) "WEBVTT" || bool_decide (TrimSpace line = "")
           || bool_decide (cs = "")
        then (cs, ce, acc)
        else ("", "", acc ++ [{| StartTime := cs; EndTime := ce;
                                 Text := TrimSpace line |}])
    end.
Proof.
  unfold parseVTT_line. destruct (timeStampRegex _) as [[a b]|]; [done|].
  destruct (HasPrefix _ _); [done|]. cbn [orb].
  destruct (bool_decide (TrimSpace line = "")); [done|]. cbn [orb negb andb].
  by destruct (bool_decide (cs = "")).
Qed.

Lemma timecode_not_empty (s : string) : is_timecode s = true → s ≠ "".
Proof. by destruct s. Qed.

(** X1.  Where the items of [parseVTT] come from. Every item that [parseVTT]
    returns has the two timecodes of a line of times of the file and, as its
    text, a line of the file without the white space around it: a text that is
    not empty and is neither a header nor a line of times. *)
Theorem parseVTT_items_from_lines (vttContent : string) (t : TranscriptItem) :
  t ∈ parseVTT vttContent →
  (∃ line, line ∈ Split vttContent (String "010" "")
           ∧ timeStampRegex (TrimSpace line) = Some (StartTime t, EndTime t))
  ∧ (∃ line, line ∈ Split vttContent (String "010" "") ∧ Text t = TrimSpace line)
  ∧ Text t ≠ ""
  ∧ HasPrefix (Text t) "WEBVTT" = false
  ∧ timeStampRegex (Text t) = None
  ∧ is_timecode (StartTime t) = true ∧ is_timecode (EndTime t) = true.
Proof.
  unfold parseVTT. set (L := Split vttContent (String "010" "")).
  set (timed := λ a b : string,
         ∃ line, line ∈ L ∧ timeStampRegex (TrimSpace line) = Some (a, b)).
  set (P := λ t : TranscriptItem,
         timed (StartTime t) (EndTime t)
         ∧ (∃ line, line ∈ L ∧ Text t = TrimSpace line)
         ∧ Text t ≠ "" ∧ HasPrefix (Text t) "WEBVTT" = false
         ∧ timeStampRegex (Text t) = None).
  assert (Hfold : ∀ lines st,
            (∀ line, line ∈ lines → line ∈ L) →
            (st.1.1 = "" ∨ timed st.1.1 st.1.2) → Forall P st.2 →
            Forall P (foldl parseVTT_line st lines).2).
  { induction lines as [|line lines IH]; intros [[cs ce] acc] HL Hc Hacc; [done|].
    cbn [foldl]. rewrite parseVTT_line_step.
    assert (Hline : line ∈ L) by (apply HL; left).
    assert (HL' : ∀ l, l ∈ lines → l ∈ L) by (intros l Hl; apply HL; by right).
    destruct (timeStampRegex (TrimSpace line)) as [[a b]|] eqn:Hre.
    - apply IH; [done| |done]. right. by exists line.
    - destruct (HasPrefix (TrimSpace line) "WEBVTT") eqn:Hw; [by apply IH|].
      cbn [orb]. case_bool_decide as He; [by apply IH|].
      cbn [orb]. case_bool_decide as Hs; [by apply IH|].
      apply IH; [done|by left|]. cbn [snd]. apply Forall_app. split; [done|].
      apply Forall_singleton. destruct Hc as [|Hc]; [done|].
      split_and!; try done. by exists line. }
  intros Ht.
  assert (HP : P t).
  { eapply Forall_forall; [|exact Ht]. apply Hfold; [done|by left|constructor]. }
  destruct HP as ((line & Hl & Hre) & Htext & Hne & Hw & Hnre).
  split_and!; try done.
  - by exists line.
  - by apply timeStampRegex_timecodes in Hre as [? _].
  - by apply timeStampRegex_timecodes in Hre as [_ ?].
Qed.

Lemma parseVTT_items_from_lines_witness :
  let t := {| StartTime := "00:00:02.000"; EndTime := "00:00:05.000"; Text := "b" |} in
  t ∈ parseVTT demo_vtt
  ∧ "00:00:02.000 --> 00:00:05.000" ∈ Split demo_vtt (String "010" "")
  ∧ Text t ≠ "" ∧ is_timecode (StartTime t) = true.
Proof.
  intros t.
  assert (Ht : t ∈ parseVTT demo_vtt).
  { change (parseVTT demo_vtt) with (fst <$> demo_segments). right. left. }
  destruct (parseVTT_items_from_lines demo_vtt t Ht)
    as (_ & _ & Hne & _ & _ & Ha & _).
  split_and!; [exact Ht| |exact Hne|exact Ha].
  vm_compute. do 5 right. left.
Defined.


(** ** A transcript file read back *)

Lemma TrimSpace_fixed (s : string) :
  drop_space_rune s = None → drop_space_rune_rev (string_rev s) = None →
  TrimSpace s = s.
Proof.
  intros Hl Hr. unfold TrimSpace.
  assert (Hfix : ∀ drop n x, drop x = None → trim_left drop n x = x).
  { intros drop [|n] x Hx; simpl; [done|by rewrite Hx]. }
  rewrite (Hfix _ _ s) by done. rewrite Hfix by done. apply string_rev_involutive.
Qed.

Lemma drop_space_rune_digit (c : ascii) (r : string) :
  is_digit c = true → drop_space_rune (String c r) = None.
Proof.
  intros Hc. apply is_digit_In in Hc. cbv [digit_chars In] in Hc.
  repeat destruct Hc as [<-|Hc]; try destruct Hc; reflexivity.
Qed.

Lemma drop_space_rune_rev_digits (c d e : ascii) (r : string) :
  is_digit c = true → is_digit d = true → is_digit e = true →
  drop_space_rune_rev (String c (String d (String e r))) = None.
Proof.
  intros Hc Hd He. unfold drop_space_rune_rev.
  rewrite !drop_space_rune_digit by done.
  apply is_digit_In in Hc. cbv [digit_chars In] in Hc.
  repeat destruct Hc as [<-|Hc]; try destruct Hc; reflexivity.
Qed.

Section CueTimes.

Variable t : TranscriptItem.
Hypothesis Hstart : is_timecode (StartTime t) = true.
Hypothesis Hend : is_timecode (EndTime t) = true.

Lemma timeStampRegex_cue_times :
  timeStampRegex (cue_times t) = Some (StartTime t, EndTime t).
Proof.
  unfold cue_times. destruct t as [a b x]. simpl in *.
  pose proof Hstart as Ha. pose proof Hend as Hb.
  timecode_shape Hstart. timecode_shape Hend.
  unfold timeStampRegex. simpl string_take. simpl string_drop.
  by rewrite Ha, Hb.
Qed.

Lemma TrimSpace_cue_times : TrimSpace (cue_times t) = cue_times t.
Proof.
  unfold cue_times. destruct t as [a b x]. simpl in *.
  timecode_shape Hstart. timecode_shape Hend.
  apply TrimSpace_fixed.
  - by apply drop_space_rune_digit.
  - by apply drop_space_rune_rev_digits.
Qed.

Lemma cue_times_one_line : one_of (cue_times t) "010" = false.
Proof.
  unfold cue_times. destruct t as [a b x]. simpl in *.
  timecode_shape Hstart. timecode_shape Hend. simpl.
  digit_neq "010"%char. reflexivity.
Qed.

End CueTimes.

(** The lines of a file of cues, behind the header and its empty line. *)
Lemma Split_cue_blocks (ts : list TranscriptItem) :
  Forall (λ t, is_timecode (StartTime t) = true ∧ is_timecode (EndTime t) = true
               ∧ cue_text (Text t)) ts →
  Split (cue_blocks ts) (String "010" "")
  = (ts ≫= λ t, [cue_times t; Text t; ""]) ++ [""].
Proof.
  induction 1 as [|t ts (Ha & Hb & Hone & _) _ IH]; [done|].
  cbn [cue_blocks mbind list_bind]. unfold cue_block, Split in *.
  rewrite !append_assoc.
  rewrite (split_from_append "010" "") by by apply cue_times_one_line.
  change (String "010" (String "010" "") +:+ cue_blocks ts)
    with (String "010" "" +:+ "" +:+ String "010" "" +:+ cue_blocks ts).
  rewrite (split_from_append "010" "") by done.
  rewrite (split_from_append "010" "") by done.
  by rewrite IH.
Qed.

(** X3.  [parseVTT] reads a transcript file back. For items with two timecodes
    and a text of one line that is not empty, has no white space around it and
    is neither a header nor a line of times, the file that holds the header,
    an empty line and, for each item, the line of its times, its text and an
    empty line, is read by [parseVTT] as these items, in their order. *)
Theorem parseVTT_reads_back (ts : list TranscriptItem) :
  Forall (λ t, is_timecode (StartTime t) = true ∧ is_timecode (EndTime t) = true
               ∧ cue_text (Text t)) ts →
  parseVTT (vtt_file ts) = ts.
Proof.
  intros Hts. unfold parseVTT, vtt_file.
  assert (Hsplit : Split ("WEBVTT" +:+ String "010" (String "010" "") +:+ cue_blocks ts)
                     (String "010" "")
                   = "WEBVTT" :: "" :: (ts ≫= λ t, [cue_times t; Text t; ""]) ++ [""]).
  { unfold Split.
    change ("WEBVTT" +:+ String "010" (String "010" "") +:+ cue_blocks ts)
      with ("WEBVTT" +:+ String "010" ""
            +:+ ("" +:+ String "010" "" +:+ cue_blocks ts)).
    rewrite (split_from_append "010" "") by done.
    rewrite (split_from_append "010" "") by done.
    fold (Split (cue_blocks ts) (String "010" "")). by rewrite Split_cue_blocks. }
  rewrite Hsplit. cbn [foldl].
  assert (Hskip : ∀ st, parseVTT_line st "" = st).
  { by intros [[cs ce] acc]. }
  change (parseVTT_line ("", "", []) "WEBVTT") with ("", "", @nil TranscriptItem).
  rewrite Hskip, foldl_app. cbn [foldl]. rewrite Hskip. clear Hsplit.
  assert (Hfold : ∀ acc,
            foldl parseVTT_line ("", "", acc) (ts ≫= λ t, [cue_times t; Text t; ""])
            = ("", "", acc ++ ts)).
  { induction Hts as [|t ts (Ha & Hb & Hone & Htrim & Hne & Hw & Hre) _ IH];
      intros acc; [cbn; by rewrite app_nil_r|].
    cbn [mbind list_bind app foldl].
    rewrite parseVTT_line_step, TrimSpace_cue_times, timeStampRegex_cue_times by done.
    rewrite parseVTT_line_step, Htrim, Hre, Hw.
    rewrite !bool_decide_eq_false_2 by (done || by apply timecode_not_empty).
    cbn [orb]. rewrite Hskip, IH, <- app_assoc. by destruct t. }
  by rewrite Hfold.
Qed.

Lemma parseVTT_reads_back_witness :
  Forall (λ t, is_timecode (StartTime t) = true ∧ is_timecode (EndTime t) = true
               ∧ cue_text (Text t)) (fst <$> demo_segments)
  ∧ parseVTT (vtt_file (fst <$> demo_segments)) = fst <$> demo_segments.
Proof.
  assert (H : Forall (λ t, is_timecode (StartTime t) = true
                           ∧ is_timecode (EndTime t) = true
                           ∧ cue_text (Text t)) (fst <$> demo_segments)).
  { repeat first [apply Forall_nil_2 | apply Forall_cons_2];
      unfold cue_text; split_and!; first [reflexivity | discriminate]. }
  split; [exact H|]. apply (parseVTT_reads_back (fst <$> demo_segments) H).
Defined.

(** ** More on timestamps *)

(** A timecode with another number of seconds, from 0 to 99, written in its
    seconds field. *)
Lemma timecode_with_seconds (s : string) (v : Z) :
  is_timecode s = true → 0 <= v < 100 →
  let r := field_hours s +:+ ":" +:+ field_minutes s +:+ ":"
           +:+ Sprintf_02d v +:+ "." +:+ field_millis s in
  is_timecode r = true
  ∧ field_hours r = field_hours s
  ∧ field_minutes r = field_minutes s
  ∧ field_millis r = field_millis s
  ∧ digits_val (field_seconds r) = v.
Proof.
  intros H Hv r. subst r.
  destruct (Sprintf_02d_two_digits v Hv) as [Hd Hval].
  apply is_digits_two in Hd as (a & b & Hab & Ha & Hb).
  rewrite Hab in *. clear Hab.
  timecode_shape H.
  unfold field_hours, field_minutes, field_seconds, field_millis in *.
  simpl string_take in *. simpl string_drop in *. simpl.
  repeat match goal with
         | D : is_digit _ = true |- _ => rewrite D
         end.
  done.
Qed.

Lemma field_seconds_range (s : string) :
  is_timecode s = true → 0 <= digits_val (field_seconds s) < 100.
Proof.
  intros H. timecode_shape H. unfold field_seconds, digits_val; simpl.
  digit_ranges. lia.
Qed.

(** X4.  Adding seconds in two steps is adding their sum: for a timecode and
    two numbers that are not negative, with a sum in the range of [int],
    [addSecondsToTimestamp] of [a] and then of [b] gives the text that
    [addSecondsToTimestamp] of [a + b] gives. *)
Theorem addSecondsToTimestamp_adds_up (s : string) (a b : Z) :
  is_timecode s = true →
  0 <= a → 0 <= b →
  digits_val (field_seconds s) + a + b <= MaxInt64 →
  addSecondsToTimestamp (addSecondsToTimestamp s a) b
  = addSecondsToTimestamp s (a + b).
Proof.
  intros H Ha Hb Hmax.
  pose proof (field_seconds_range s H) as Hs.
  rewrite (addSecondsToTimestamp_timecode s a) by (done || lia).
  rewrite (addSecondsToTimestamp_timecode s (a + b)) by (done || lia).
  destruct (timecode_with_seconds s (Z.min (digits_val (field_seconds s) + a) 59) H)
    as (Hr & Hh & Hm & Hf & Hv); [lia|].
  rewrite addSecondsToTimestamp_timecode; [|done|done|].
  - rewrite Hh, Hm, Hf, Hv. do 6 f_equal. lia.
  - rewrite Hv. change MaxInt64 with 9223372036854775807 in *. lia.
Qed.

Lemma addSecondsToTimestamp_adds_up_witness :
  is_timecode "00:00:41.500" = true
  ∧ addSecondsToTimestamp (addSecondsToTimestamp "00:00:41.500" 10) 10
    = addSecondsToTimestamp "00:00:41.500" (10 + 10)
  ∧ addSecondsToTimestamp "00:00:41.500" (10 + 10) = "00:00:59.500".
Proof.
  split_and!; [reflexivity| |reflexivity].
  apply (addSecondsToTimestamp_adds_up "00:00:41.500" 10 10);
    [reflexivity|lia|lia|vm_compute; discriminate].
Defined.

(** The pieces between the bytes [c] are one more than the bytes [c]. *)
Lemma split_from_count (c : ascii) (s : string) :
  length (split_from (String c "") 0 s) = S (count_byte c s).
Proof.
  induction s as [|d s IH]; [done|].
  cbn [split_from count_byte]. unfold HasPrefix. cbn [String.prefix String.length].
  destruct (ascii_dec c d) as [<-|Hne].
  - rewrite Ascii.eqb_refl, Nat.sub_diag.
    replace (String.prefix "" s) with true by by destruct s.
    cbn [length]. by rewrite IH.
  - apply Ascii.eqb_neq in Hne. rewrite Ascii.eqb_sym, Hne.
    destruct (split_from (String c "") 0 s); [done|]. by rewrite <- IH.
Qed.

(** No piece has more bytes [d] than the whole. *)
Lemma split_from_count_le (c d : ascii) (s p : string) :
  p ∈ split_from (String c "") 0 s → (count_byte d p ≤ count_byte d s)%nat.
Proof.
  revert p. induction s as [|x s IH]; intros p.
  { intros ->%list_elem_of_singleton. done. }
  cbn [split_from]. unfold HasPrefix. cbn [String.prefix String.length].
  destruct (ascii_dec c x) as [<-|Hne].
  - rewrite Nat.sub_diag. replace (String.prefix "" s) with true by by destruct s.
    intros [->|Hp]%elem_of_cons; [cbn; lia|].
    specialize (IH p Hp). cbn [count_byte]. destruct (c =? d)%char; lia.
  - destruct (split_from (String c "") 0 s) as [|h t] eqn:Hsp.
    + intros ->%list_elem_of_singleton. cbn [count_byte].
      destruct (x =? d)%char; simpl; lia.
    + intros [->|Hp]%elem_of_cons.
      * assert (Hh : (count_byte d h ≤ count_byte d s)%nat) by (apply IH; left).
        cbn [count_byte]. destruct (x =? d)%char; lia.
      * assert (Hh : (count_byte d p ≤ count_byte d s)%nat) by (apply IH; by right).
        cbn [count_byte]. destruct (x =? d)%char; lia.
Qed.

(** X5.  A text that does not have the shape of a timestamp comes back as it
    is: when it does not have exactly two colons, or has no point,
    [addSecondsToTimestamp] returns it unchanged, whatever the number of
    seconds. *)
Theorem addSecondsToTimestamp_other_shape (timestamp : string) (seconds : Z) :
  count_byte ":" timestamp ≠ 2%nat ∨ count_byte "." timestamp = 0%nat →
  addSecondsToTimestamp timestamp seconds = timestamp.
Proof.
  intros Hshape. unfold addSecondsToTimestamp.
  pose proof (split_from_count ":" timestamp) as Hc. fold (Split timestamp ":") in Hc.
  destruct (Split timestamp ":") as [|p0 [|p1 [|p2 [|p3 ps]]]] eqn:Hs; try done.
  destruct Hshape as [Hcolon|Hpoint]; [simpl in Hc; lia|].
  assert (Hp2 : (count_byte "." p2 ≤ count_byte "." timestamp)%nat).
  { apply (split_from_count_le ":" "." timestamp). fold (Split timestamp ":").
    rewrite Hs. do 2 right. left. }
  pose proof (split_from_count "." p2) as Hd. fold (Split p2 ".") in Hd.
  destruct (Split p2 ".") as [|sec [|frac [|x xs]]]; try done.
  simpl in Hd. lia.
Qed.

Lemma addSecondsToTimestamp_other_shape_witness :
  count_byte ":" "01:30.000" ≠ 2%nat
  ∧ addSecondsToTimestamp "01:30.000" 10 = "01:30.000".
Proof.
  split; [vm_compute; discriminate|].
  apply (addSecondsToTimestamp_other_shape "01:30.000" 10).
  left. vm_compute. discriminate.
Defined.

(** X6.  [getEndTime] panics on an index out of range and only there: it
    returns for the indices of the slice, and for the index [-1] when the
    first value of the slice is an [item]; for every other index the program
    panics. *)
Theorem getEndTime_panics_outside (items : list list_Item) (currentIndex : Z) :
  is_Some (getEndTime items currentIndex)
  ↔ 0 <= currentIndex < len items
    ∨ currentIndex = -1 ∧ ∃ i, head items = Some (item_value i).
Proof.
  split.
  - unfold getEndTime.
    destruct (Z.ltb_spec (currentIndex + 1) (len items)) as [Hlt|Hge].
    + destruct (index items (currentIndex + 1)) as [x|] eqn:Hx; [|by intros []].
      apply index_Some in Hx as [Hr Hx].
      destruct (Z.eq_dec currentIndex (-1)) as [->|Hne]; [|intros _; left; lia].
      destruct x as [i|v].
      * intros _. right. split; [done|]. exists i. by destruct items.
      * cbn [as_item]. unfold index. simpl. by intros [].
    + destruct (index items currentIndex) as [x|] eqn:Hx; [|by intros []].
      apply index_Some in Hx as [Hr _]. intros _. by left.
  - intros [Hr|[-> (i & Hi)]]; [by apply getEndTime_in_range|].
    destruct items as [|x items]; [done|]. injection Hi as ->.
    unfold getEndTime. cbn [len length].
    destruct (Z.ltb_spec (-1 + 1) (Z.of_nat (S (length items)))); [|lia]. done.
Qed.

(** X7.  The key [p] never takes [getEndTime] out of range. In the interactive
    state, with the cursor on an [item], whatever the timestamps and the other
    values of the list are, [getEndTime] returns, [Update] starts exactly one
    preview of the input file, from the start of the item, and returns the
    model as it is with no command. *)
Theorem preview_starts_one `{Platform} (m : model) (i : item) :
  loading m = false →
  index (Items (list_ m)) (Index (list_ m)) = Some (item_value i) →
  ∃ endTime,
    getEndTime (Items (list_ m)) (Index (list_ m)) = Some endTime
    ∧ Update m (KeyMsg "p")
      = (m, [], [previewVideo (inputFile m) (first_part (timestamp i) " - ") endTime]).
Proof.
  intros Hl Hi. pose proof Hi as [Hr _]%index_Some.
  destruct (getEndTime_in_range _ _ Hr) as [endTime He].
  exists endTime. split; [done|].
  unfold Update. decide_keys. unfold preview. rewrite Hl, Hi, He.
  destruct (Z.ltb_spec 0 (len (Items (list_ m)))); [|lia].
  destruct (Z.leb_spec 0 (Index (list_ m))); [|lia].
  by destruct (Z.ltb_spec (Index (list_ m)) (len (Items (list_ m)))); [|lia].
Qed.

Lemma preview_starts_one_witness :
  let odd := {| title := "x"; timestamp := "bogus"; selected := false |} in
  let m := @Build_model demo_platform () false ""
             {| list_items := [item_value odd; foreign_value "y"]; list_index := 0 |}
             false "talk.mp4" "" [] [] in
  loading m = false
  ∧ Update m (KeyMsg "p") = (m, [], [previewVideo "talk.mp4" "bogus" "bogus"]).
Proof.
  intros odd m. split; [reflexivity|].
  destruct (preview_starts_one (H := demo_platform) m odd eq_refl eq_refl)
    as (endTime & He & Hu).
  vm_compute in He. injection He as <-. exact Hu.
Defined.

(** ** What the scanner leaves of its input *)

Lemma count_byte_append (c : ascii) (a b : string) :
  count_byte c (a +:+ b) = (count_byte c a + count_byte c b)%nat.
Proof.
  induction a as [|x a IH]; [done|].
  rewrite append_cons. cbn [count_byte]. rewrite IH. by destruct (x =? c)%char.
Qed.

Lemma takes_prefix_bind {A B : Type} (m : scanner A) (f : A → scanner B) :
  takes_prefix m → (∀ a, takes_prefix (f a)) → takes_prefix (m ≫= f).
Proof.
  intros Hm Hf s b s'. unfold mbind, scanner_bind.
  destruct (m s) as [e|[a s1]] eqn:E; [done|].
  intros Hb. destruct (Hm _ _ _ E) as [p Hp]. destruct (Hf _ _ _ _ Hb) as [q Hq].
  exists (p +:+ q). by rewrite Hp, Hq, append_assoc.
Qed.

Lemma takes_prefix_same {A : Type} (m : scanner A) :
  (∀ s a s', m s = inr (a, s') → input s' = input s) → takes_prefix m.
Proof. intros Hm s a s' E. exists "". exact (eq_sym (Hm _ _ _ E)). Qed.

Lemma drop_space_rune_prefix (s r : string) :
  drop_space_rune s = Some r → ∃ p, s = p +:+ r.
Proof.
  destruct s as [|c s]; [done|].
  destruct c as [[] [] [] [] [] [] [] []]; cbn;
    repeat match goal with
           | |- context [match ?x with _ => _ end] => destruct x
           end;
    intros [= <-];
    first [ by eexists (String _ "")
          | by eexists (String _ (String _ ""))
          | by eexists (String _ (String _ (String _ ""))) ].
Qed.

Lemma skip_space_prefix (fuel : nat) (inp r : string) :
  skip_space fuel inp = inr r → ∃ p, inp = p +:+ r.
Proof.
  revert inp. induction fuel as [|fuel IH]; intros inp; cbn [skip_space].
  { intros [= <-]. by exists "". }
  destruct inp as [|c inp]; [intros [= <-]; by exists ""|].
  destruct (c =? "010")%char; [done|].
  destruct (drop_space_rune (String c inp)) as [r1|] eqn:E.
  - intros [q Hq]%IH. apply drop_space_rune_prefix in E as [p Hp].
    exists (p +:+ q). by rewrite Hp, Hq, append_assoc.
  - intros [= <-]. by exists "".
Qed.

Lemma span_append (p : ascii → bool) (s a r : string) :
  span p s = (a, r) → s = a +:+ r.
Proof.
  revert a. induction s as [|c s IH]; intros a; cbn [span].
  { by intros [= <- <-]. }
  destruct (p c); [|by intros [= <- <-]].
  destruct (span p s) as [a1 r1]. intros [= <- <-]. by rewrite append_cons, (IH a1).
Qed.

Lemma takes_prefix_SkipSpace : takes_prefix SkipSpace.
Proof.
  intros s a s'. unfold SkipSpace.
  destruct (skip_space _ _) as [e|r] eqn:E; [done|].
  intros [= _ <-]. by apply skip_space_prefix in E.
Qed.

Lemma takes_prefix_accept (ok : string) : takes_prefix (accept ok).
Proof.
  intros s a s'. unfold accept. destruct (input s) as [|c r] eqn:E.
  - intros [= _ <-]. exists "". by rewrite E.
  - destruct (one_of ok c); intros [= _ <-].
    + by exists (String c "").
    + exists "". by rewrite E.
Qed.

Lemma takes_prefix_accept_all (ok : string) : takes_prefix (accept_all ok).
Proof.
  intros s a s'. unfold accept_all.
  destruct (span _ _) as [x r] eqn:E. intros [= _ <-]. exists x. cbn [input].
  by apply span_append in E.
Qed.

Lemma takes_prefix_notEOF : takes_prefix notEOF.
Proof.
  apply takes_prefix_same. intros s a s'. unfold notEOF.
  destruct (input s) eqn:E; [done|]. by intros [= _ <-].
Qed.

Lemma takes_prefix_reset_buf : takes_prefix reset_buf.
Proof. apply takes_prefix_same. intros s a s'. unfold reset_buf. by intros [= _ <-]. Qed.

Lemma takes_prefix_token : takes_prefix token.
Proof. apply takes_prefix_same. intros s a s'. unfold token. by intros [= _ <-]. Qed.

Lemma takes_prefix_scan_fail {A : Type} (e : scan_err) : takes_prefix (@scan_fail A e).
Proof. by intros s a s'. Qed.

Lemma takes_prefix_lift {A : Type} (r : scan_err + A) : takes_prefix (lift r).
Proof.
  apply takes_prefix_same. intros s a s'. unfold lift.
  destruct r; [done|]. by intros [= _ <-].
Qed.

Lemma takes_prefix_verb_d : takes_prefix verb_d.
Proof.
  unfold verb_d, scanInt, scanNumber.
  repeat first
    [ apply takes_prefix_bind; [|intros ?]
    | apply takes_prefix_SkipSpace
    | apply takes_prefix_notEOF
    | apply takes_prefix_accept
    | apply takes_prefix_accept_all
    | apply takes_prefix_reset_buf
    | apply takes_prefix_token
    | apply takes_prefix_scan_fail
    | apply takes_prefix_lift
    | match goal with
      | |- takes_prefix (if ?b then _ else _) => destruct b
      end ].
Qed.

Lemma literal_takes (c : ascii) (s s' : ss) :
  literal c s = inr ((), s') → input s = String c (input s').
Proof.
  unfold literal. destruct (input s) as [|d r]; [done|].
  destruct (Ascii.eqb_spec c d) as [->|]; [|done]. by intros [= <-].
Qed.

(** X8.  A text with fewer than two colons is no time. [parseTimeToSeconds]
    returns the error of the scanner for every text that has fewer than two
    colons in it, whatever else it holds. *)
Theorem parseTimeToSeconds_needs_colons (timeStr : string) :
  (count_byte ":" timeStr < 2)%nat →
  ∃ cause, parseTimeToSeconds timeStr = Err (scan_failure cause).
Proof.
  intros Hc. unfold parseTimeToSeconds.
  destruct (Sscanf_d_d_f timeStr) as [e|[[h mi] sec]] eqn:E; [by exists e|].
  exfalso. unfold Sscanf_d_d_f, run_scan, mbind, scanner_bind in E.
  destruct (verb_d _) as [|[h1 s1]] eqn:E1; [done|].
  destruct (literal ":" s1) as [|[[] s2]] eqn:L1; [done|].
  destruct (verb_d s2) as [|[m1 s3]] eqn:E2; [done|].
  destruct (literal ":" s3) as [|[[] s4]] eqn:L2; [done|].
  apply takes_prefix_verb_d in E1 as [p1 Hp1], E2 as [p2 Hp2].
  apply literal_takes in L1, L2. cbn [input] in Hp1.
  rewrite Hp1, L1, Hp2, L2 in Hc.
  change (String ":" (p2 +:+ String ":" (input s4)))
    with (":" +:+ p2 +:+ ":" +:+ input s4) in Hc.
  rewrite !count_byte_append in Hc. cbn in Hc. lia.
Qed.

Lemma parseTimeToSeconds_needs_colons_witness :
  (count_byte ":" "01:30.000" < 2)%nat
  ∧ ∃ cause, parseTimeToSeconds "01:30.000" = Err (scan_failure cause).
Proof.
  assert (H : (count_byte ":" "01:30.000" < 2)%nat) by (vm_compute; lia).
  split; [exact H|]. apply (parseTimeToSeconds_needs_colons "01:30.000" H).
Defined.

(** ** What a compilation can come to *)

(** X9.  Only the selected items count in a compilation: the items that are
    not selected, whatever their timestamps, and the values that are no [item]
    can be left out without a change in the commands run or in the result. *)
Theorem compileVideoSegments_selected_only `{Platform}
  (run : exec_Cmd → option error) (inputFile : string) (items : list list_Item) :
  compileVideoSegments run inputFile (filter (λ x, is_selected x = true) items)
  = compileVideoSegments run inputFile items.
Proof.
  assert (Hsame : ∀ acc,
            collect_segments (filter (λ x, is_selected x = true) items) acc
            = collect_segments items acc).
  { induction items as [|x items IH]; intros acc; [done|].
    destruct (is_selected x) eqn:Hx.
    - rewrite filter_cons_True by done. cbn [collect_segments].
      destruct (as_item x) as [i|]; [|apply IH].
      destruct (selected i); [|apply IH].
      destruct (Split (timestamp i) " - ") as [|t0 [|t1 [|t2 ts]]]; try apply IH.
      destruct (parseTimeToSeconds t0); [|done].
      destruct (parseTimeToSeconds t1); [|done]. apply IH.
    - rewrite filter_cons_False by congruence. cbn [collect_segments].
      unfold is_selected in Hx. destruct (as_item x) as [i|]; [|apply IH].
      rewrite Hx. apply IH. }
  unfold compileVideoSegments. by rewrite Hsame.
Qed.

Lemma collect_segments_Err (items : list list_Item) (acc : list segment) (e : error) :
  collect_segments items acc = Err e → is_MalformedTimestamp e.
Proof.
  revert acc. induction items as [|x items IH]; intros acc; cbn [collect_segments]; [done|].
  destruct (as_item x) as [i|]; [|apply IH].
  destruct (selected i); [|apply IH].
  destruct (Split (timestamp i) " - ") as [|t0 [|t1 [|t2 ts]]]; try apply IH.
  destruct (parseTimeToSeconds t0) as [a|e0] eqn:E0.
  - destruct (parseTimeToSeconds t1) as [b|e1] eqn:E1; [apply IH|].
    apply parseTimeToSeconds_Err in E1 as [cause ->].
    intros [= <-]. exists t1, cause. by right.
  - apply parseTimeToSeconds_Err in E0 as [cause ->].
    intros [= <-]. exists t0, cause. by left.
Qed.

(** X10.  Every run of [compileVideoSegments] ends in one of two ways. Either
    no command was run and the error is [no segments selected] or that of a
    timestamp which did not parse; or ffmpeg was run exactly once, on the
    filter of the segments collected, of which there is at least one, with the
    output next to the input, and the result is that path when ffmpeg
    succeeded and the wrapped error of ffmpeg when it failed. *)
Theorem compileVideoSegments_outcomes `{Platform}
  (run : exec_Cmd → option error) (inputFile : string) (items : list list_Item) :
  (∃ e, compileVideoSegments run inputFile items = ([], Err e)
        ∧ (e = no_segments_selected ∨ is_MalformedTimestamp e))
  ∨ (∃ segments,
       segments ≠ []
       ∧ collect_segments items [] = Ok segments
       ∧ let cmd := ffmpeg_command inputFile (selectFilter segments)
                      (compiled_path inputFile) in
         compileVideoSegments run inputFile items
         = ([cmd], match run cmd with
                   | Some err => Err (failed_to_compile_video_segments err)
                   | None => Ok (compiled_path inputFile)
                   end)).
Proof.
  unfold compileVideoSegments.
  destruct (collect_segments items []) as [segments|e] eqn:Hc.
  - destruct segments as [|sg segments].
    + left. exists no_segments_selected. split; [done|by left].
    + right. exists (sg :: segments). split_and!; [done..|].
      cbn [len length]. destruct (Z.eqb_spec (Z.of_nat (S (length segments))) 0); [lia|].
      fold (compiled_path inputFile). by destruct (run _).
  - left. exists e. split; [done|]. right. by eapply collect_segments_Err.
Qed.

(** X11.  When the command of [compileVideoCmd] has ended, [Update] clears
    [loading] and starts nothing new. After a success it adds two lines to the
    statuses, the second with the path of the output next to the input, and
    quits; after a failure it adds the text of the error as a line, shows it
    as the error of the model and does not quit. *)
Theorem Update_after_compilation `{Platform} (m : model)
  (run : exec_Cmd → option error) (f : string) (items : list list_Item) :
  let '(m', c, g) := Update m (compileVideoCmd_run run f items) in
  g = [] ∧ loading m' = false ∧ inputFile m' = inputFile m ∧ list_ m' = list_ m
  ∧ ((compileVideoSegments run f items).2 = Ok (compiled_path f)
     ∧ c = [tea_Quit] ∧ quitting m' = true ∧ errorMsg m' = errorMsg m
     ∧ statuses m' = statuses m ++ ["Video compiled successfully.";
                                    "Saved output to " +:+ compiled_path f]
     ∨ ∃ err, (compileVideoSegments run f items).2 = Err err
              ∧ c = [] ∧ quitting m' = quitting m ∧ errorMsg m' = Error err
              ∧ statuses m' = statuses m ++ [Error err]).
Proof.
  unfold compileVideoCmd_run, compileVideoSegments.
  destruct (collect_segments items []) as [segments|e].
  - destruct (len segments =? 0).
    + cbn. split_and!; try done. right. by eexists.
    + fold (compiled_path f). destruct (run _) as [err|].
      * cbn. split_and!; try done. right. by eexists.
      * cbn. split_and!; try done. left. split_and!; try done.
        by rewrite <- app_assoc.
  - cbn. split_and!; try done. right. by exists e.
Qed.

(** ** From a selection to the command of ffmpeg *)

Lemma to_items_items_of (ts : list TranscriptItem) :
  to_items ts = items_of ((λ t, (t, false)) <$> ts).
Proof. unfold to_items, items_of. by rewrite <- list_fmap_compose. Qed.

Lemma items_of_insert (segs : list timed_segment) (k : nat) (x : timed_segment) :
  <[k := item_value (to_item x.2 x.1)]> (items_of segs) = items_of (<[k := x]> segs).
Proof. unfold items_of. by rewrite list_fmap_insert. Qed.

Lemma chosen_none (ts : list TranscriptItem) :
  chosen ((λ t, (t, false)) <$> ts) = [].
Proof. induction ts as [|t ts IH]; [done|]. by rewrite fmap_cons, chosen_cons. Qed.

Lemma chosen_one (ts : list TranscriptItem) (k : nat) (cur : TranscriptItem) :
  (k < length ts)%nat →
  chosen (<[k := (cur, true)]> ((λ t, (t, false)) <$> ts)) = [cur].
Proof.
  revert k. induction ts as [|t ts IH]; intros k Hk; [simpl in Hk; lia|].
  destruct k as [|k]; rewrite fmap_cons; cbn [list_insert insert].
  - change (<[0%nat := (cur, true)]> ((t, false) :: ((λ t, (t, false)) <$> ts)))
      with ((cur, true) :: ((λ t, (t, false)) <$> ts)).
    by rewrite chosen_cons, chosen_none.
  - change (<[S k := (cur, true)]> ((t, false) :: ((λ t, (t, false)) <$> ts)))
      with ((t, false) :: <[k := (cur, true)]> ((λ t, (t, false)) <$> ts)).
    rewrite chosen_cons. apply IH. simpl in Hk. lia.
Qed.

Lemma hasSelected_items_of (segs : list timed_segment) :
  hasSelected (items_of segs) = bool_decide (chosen segs ≠ []).
Proof.
  induction segs as [|[t sel] segs IH]; [done|].
  rewrite chosen_cons. cbn. destruct sel; [done|]. apply IH.
Qed.

(** X12.  From the transcript to ffmpeg. In the interactive state, with the
    list as it is made of a transcript with timecodes, nothing selected yet
    and the cursor on one item, the key for the selection and then the key [c]
    set [loading] and return the command of the compilation; and that command
    runs ffmpeg once, with the filter [between(t,start,end)] of that one item,
    for the output next to the input. *)
Theorem select_then_compile `{Platform} (run : exec_Cmd → option error)
  (m : model) (ts : list TranscriptItem) (k : nat) (cur : TranscriptItem)
  (key : string) :
  key = "enter" ∨ key = " " →
  loading m = false →
  Items (list_ m) = to_items ts →
  Forall (λ t, is_timecode (StartTime t) = true ∧ is_timecode (EndTime t) = true) ts →
  Index (list_ m) = Z.of_nat k →
  ts !! k = Some cur →
  ∃ (m1 m2 : model) (items : list list_Item),
    Update m (KeyMsg key) = (m1, [], [])
    ∧ Update m1 (KeyMsg "c")
      = (m2, [library_Cmd (spinner_Tick (spinner m));
              compileVideoCmd (inputFile m) items], [])
    ∧ loading m2 = true
    ∧ let cmd := ffmpeg_command (inputFile m)
                   ("between(t," +:+ Sprintf_3f (timecode_value (StartTime cur))
                    +:+ "," +:+ Sprintf_3f (timecode_value (EndTime cur)) +:+ ")")
                   (compiled_path (inputFile m)) in
      compileVideoSegments run (inputFile m) items
      = ([cmd], match run cmd with
                | Some err => Err (failed_to_compile_video_segments err)
                | None => Ok (compiled_path (inputFile m))
                end).
Proof.
  intros Hkey Hl Hi Hw Hx Hk.
  apply lookup_lt_Some in Hk as Hlt.
  assert (Hcur : index (Items (list_ m)) (Index (list_ m))
                 = Some (item_value (to_item false cur))).
  { rewrite Hx, index_of_nat, Hi. unfold to_items. by rewrite list_lookup_fmap, Hk. }
  set (segs := <[k := (cur, true)]> ((λ t, (t, false)) <$> ts)).
  assert (Hitems : <[Z.to_nat (Index (list_ m))
                      := item_value (flip_selected (to_item false cur))]>
                     (Items (list_ m)) = items_of segs).
  { rewrite Hx, Nat2Z.id, Hi, to_items_items_of. apply (items_of_insert _ k (cur, true)). }
  assert (Hsegs : Forall well_timed segs).
  { apply Forall_insert; [|by apply (proj1 (Forall_forall _ _) Hw cur),
                              list_elem_of_lookup_2 with k].
    apply Forall_fmap. eapply Forall_impl; [exact Hw|]. by intros t [? ?]. }
  assert (Hchosen : chosen segs = [cur]) by by apply chosen_one.
  eexists _, _, (items_of segs). split_and!.
  - rewrite Update_toggle by done. by rewrite (toggle_at m _ Hl Hcur), Hitems.
  - unfold Update. decide_keys. cbn [list_ set_list SetItems Items list_items loading].
    rewrite Hl, hasSelected_items_of, Hchosen, len_items_of.
    rewrite bool_decide_eq_true_2 by done.
    destruct (Z.ltb_spec 0 (len segs)) as [_|Hn]; [done|].
    unfold len, segs in Hn. rewrite length_insert, length_fmap in Hn. lia.
  - done.
  - unfold compileVideoSegments.
    rewrite (collect_segments_well_timed segs []) by done.
    rewrite Hchosen. simpl. fold (compiled_path (inputFile m)). by destruct (run _).
Qed.

Lemma select_then_compile_witness :
  loading (demo_model fresh_segments 0) = false
  ∧ Items (list_ (demo_model fresh_segments 0)) = to_items (fst <$> fresh_segments)
  ∧ ∃ (m1 m2 : @model demo_platform) (items : list list_Item),
      Update (demo_model fresh_segments 0) (KeyMsg " ") = (m1, [], [])
      ∧ Update m1 (KeyMsg "c")
        = (m2, [@library_Cmd demo_platform (); compileVideoCmd "talk.mp4" items], [])
      ∧ compileVideoSegments (H := demo_platform) (λ _, None) "talk.mp4" items
        = ([ffmpeg_command "talk.mp4" "between(t,1.000,2.000)" "talk_compiled.mp4"],
           Ok "talk_compiled.mp4").
Proof.
  assert (Hi : Items (list_ (demo_model fresh_segments 0))
               = to_items (fst <$> fresh_segments)) by reflexivity.
  split_and!; [reflexivity|exact Hi|].
  destruct (select_then_compile (H := demo_platform) (λ _, None)
              (demo_model fresh_segments 0) (fst <$> fresh_segments) 0
              {| StartTime := "00:00:01.000"; EndTime := "00:00:02.000"; Text := "a" |}
              " " (or_intror eq_refl) eq_refl Hi)
    as (m1 & m2 & items & H1 & H2 & _ & H3); [|reflexivity|reflexivity|].
  { repeat constructor. }
  exists m1, m2, items. split_and!; [exact H1|exact H2|exact H3].
Defined.

(** ** What [Update] keeps *)

Section History.

Context {H : Platform}.

Lemma toggle_keeps (m : model) :
  statuses (toggle m) = statuses m ∧ inputFile (toggle m) = inputFile m
  ∧ quitting (toggle m) = quitting m.
Proof.
  unfold toggle. destruct (_ && _); [|done]. destruct (_ && _); [|done].
  by destruct (index _ _) as [[i|]|].
Qed.

Lemma Update_keeps (m : model) (msg : tea_Msg) :
  statuses m `prefix_of` statuses (Update m msg).1.1
  ∧ inputFile (Update m msg).1.1 = inputFile m
  ∧ (quitting m = true → quitting (Update m msg).1.1 = true).
Proof.
  destruct msg as [key|a|vtt ts|out|err|t|t]; unfold Update.
  - repeat case_bool_decide; cbn [orb fst].
    all: try (destruct (toggle_keeps m) as (-> & -> & ->); done).
    all: try done.
    + by destruct (_ && _ && _).
    + destruct (negb (loading m)); [|done]. by destruct (list_Update _ _).
  - cbn. split_and!; try done. by apply prefix_app_r.
  - cbn. split_and!; try done. by apply prefix_app_r.
  - cbn. split_and!; try done. rewrite <- app_assoc. by apply prefix_app_r.
  - cbn. split_and!; try done. by apply prefix_app_r.
  - destruct (loading m); [|done]. by destruct (spinner_Update _ _).
  - done.
Qed.

Lemma deliver_keeps (w : world) (msg : tea_Msg) :
  statuses (current w) `prefix_of` statuses (current (deliver w msg))
  ∧ inputFile (current (deliver w msg)) = inputFile (current w)
  ∧ (quitting (current w) = true → quitting (current (deliver w msg)) = true).
Proof.
  pose proof (Update_keeps (current w) msg) as Hk. unfold deliver.
  by destruct (Update (current w) msg) as [[m c] g].
Qed.

Lemma step_keeps (w w' : world) :
  step w w' →
  statuses (current w) `prefix_of` statuses (current w')
  ∧ inputFile (current w') = inputFile (current w)
  ∧ (quitting (current w) = true → quitting (current w') = true).
Proof.
  intros Hs.
  destruct Hs as [w key Hr|w t Hr|w pre op post msg Hr Hin Hout|w pre f a b post Hin].
  - apply deliver_keeps.
  - apply deliver_keeps.
  - apply (deliver_keeps {| current := current w; in_flight := pre ++ post;
                            running := true |}).
  - done.
Qed.

(** X13.  In every state that the program reaches, the input file is the one
    it started with, the status lines it started with are still there at the
    head of the statuses, in their order, and [quitting], if it was set, is
    still set: [Update] only adds status lines at the end, never writes the
    input file and never clears [quitting]. *)
Theorem history_is_kept (m0 : model) (w : world) :
  reachable m0 w →
  inputFile (current w) = inputFile m0
  ∧ statuses m0 `prefix_of` statuses (current w)
  ∧ (quitting m0 = true → quitting (current w) = true).
Proof.
  unfold reachable. intros Hr.
  apply (rtc_ind_r (R := step)
           (λ w, inputFile (current w) = inputFile m0
                 ∧ statuses m0 `prefix_of` statuses (current w)
                 ∧ (quitting m0 = true → quitting (current w) = true))
           (boot m0)); [done| |exact Hr].
  intros y z _ Hs (Hf & Hp & Hq). destruct (step_keeps y z Hs) as (Hp' & Hf' & Hq').
  split_and!.
  - by rewrite Hf'.
  - by etrans.
  - auto.
Qed.

(** X14.  While [loading] is set, a key other than [q] and [ctrl+c] changes
    nothing: it selects nothing, starts no preview and no compilation, and
    does not reach the list. *)
Theorem busy_keys_do_nothing (m : model) (key : string) :
  loading m = true → key ≠ "q" → key ≠ "ctrl+c" →
  Update m (KeyMsg key) = (m, [], []).
Proof.
  intros Hl Hq Hc. unfold Update, preview.
  rewrite (toggle_elsewhere m) by by left.
  rewrite Hl. repeat case_bool_decide; done.
Qed.

End History.

Lemma history_is_kept_witness :
  reachable (demo_model demo_segments 1) compiling_world
  ∧ inputFile (current compiling_world) = "talk.mp4"
  ∧ ["Transcript already exists locally"] `prefix_of` statuses (current compiling_world).
Proof.
  assert (Hr : reachable (demo_model demo_segments 1) compiling_world).
  { apply rtc_once. apply (step_key (H := demo_platform)). reflexivity. }
  destruct (history_is_kept (H := demo_platform) _ _ Hr) as (Hf & Hp & _).
  split_and!; [exact Hr|exact Hf|exact Hp].
Defined.

Lemma busy_keys_do_nothing_witness :
  let m := set_loading true (demo_model demo_segments 1) in
  loading m = true ∧ Update m (KeyMsg "enter") = (m, [], []).
Proof.
  intros m. split; [reflexivity|].
  apply (busy_keys_do_nothing (H := demo_platform) m "enter"); [reflexivity|discriminate..].
Defined.

(** ** Loading means work *)

Section Loading.

Context {H : Platform}.

Lemma loading_is_work_local (w : world) (msg : tea_Msg) :
  local_msg msg → loading_is_work w → loading_is_work (deliver w msg).
Proof.
  intros Hm Hw. unfold loading_is_work in *.
  destruct (deliver_local w msg Hm) as [[-> ->]|(Hl & -> & ->)]; [done|].
  by rewrite Hw, Hl.
Qed.

Lemma loading_is_work_step (w w' : world) :
  step w w' → loading_is_work w → loading_is_work w'.
Proof.
  intros Hs Hw.
  destruct Hs as [w key Hr|w t Hr|w pre op post msg Hr Hin Hout|w pre f a b post Hin].
  - by apply loading_is_work_local.
  - by apply loading_is_work_local.
  - unfold loading_is_work in Hw. rewrite Hin, count_ops_app, count_ops_cons in Hw.
    set (w0 := {| current := current w; in_flight := pre ++ post; running := true |}).
    assert (Hnot : is_awaited op = false → loading_is_work w0).
    { intros E. rewrite E in Hw. unfold loading_is_work, w0. simpl.
      rewrite count_ops_app. by rewrite <- Hw. }
    assert (Hdone : is_awaited op = true →
              count_ops is_awaited (pre ++ post) = 0%nat ∧ loading (current w) = true).
    { intros E. rewrite E in Hw. rewrite count_ops_app.
      destruct (loading (current w)); [split; [lia|done]|lia]. }
    destruct Hout as [f a|f err|f vtt|f err|f items run|c t|c t].
    + destruct (Hdone eq_refl) as [H0 Hl]. unfold loading_is_work, deliver. simpl.
      rewrite (count_ops_app is_awaited (pre ++ post)), H0, Hl.
      by rewrite count_ops_cons, count_ops_nil.
    + destruct (Hdone eq_refl) as [H0 Hl]. unfold loading_is_work, deliver. simpl.
      by rewrite (count_ops_app is_awaited (pre ++ post)), H0, count_ops_nil.
    + destruct (Hdone eq_refl) as [H0 Hl]. unfold loading_is_work, deliver. simpl.
      by rewrite (count_ops_app is_awaited (pre ++ post)), H0, count_ops_nil.
    + destruct (Hdone eq_refl) as [H0 Hl]. unfold loading_is_work, deliver. simpl.
      by rewrite (count_ops_app is_awaited (pre ++ post)), H0, count_ops_nil.
    + destruct (Hdone eq_refl) as [H0 Hl].
      unfold loading_is_work, deliver, compileVideoCmd_run.
      destruct (compileVideoSegments run f items).2; simpl;
        by rewrite (count_ops_app is_awaited (pre ++ post)), H0, count_ops_nil.
    + by apply loading_is_work_local; [|apply Hnot].
    + by apply loading_is_work_local; [|apply Hnot].
  - unfold loading_is_work in *. rewrite Hin, count_ops_app, count_ops_cons in Hw.
    simpl. rewrite count_ops_app. by rewrite <- Hw.
Qed.

(** X15.  The spinner never turns over nothing. In every state that the
    program reaches, [loading] is set exactly while one extraction,
    transcription or compilation is in flight: with [loading] set there is
    one, whose end will clear it or hand over to the next, and without it
    there is none. *)
Theorem loading_means_work (m0 : model) (w : world) :
  reachable m0 w →
  count_ops is_awaited (in_flight w) = if loading (current w) then 1%nat else 0%nat.
Proof.
  unfold reachable. intros Hr.
  apply (rtc_ind_r (R := step) (λ w, loading_is_work w) (boot m0)); [| |exact Hr].
  - unfold loading_is_work, boot, Init. cbn [current in_flight].
    destruct (loading m0); [|done].
    change ([library_Cmd (spinner_Tick (spinner m0)); extractAudioCmd (inputFile m0)]
            ≫= launch)
      with [library_work (spinner_Tick (spinner m0)); extracting (inputFile m0)].
    by rewrite !count_ops_cons, count_ops_nil.
  - intros y z _ Hs IH. by eapply loading_is_work_step.
Qed.

End Loading.

Lemma loading_means_work_witness :
  reachable (demo_model demo_segments 1) compiling_world
  ∧ loading (current compiling_world) = true
  ∧ count_ops is_awaited (in_flight compiling_world) = 1%nat.
Proof.
  assert (Hr : reachable (demo_model demo_segments 1) compiling_world).
  { apply rtc_once. apply (step_key (H := demo_platform)). reflexivity. }
  split_and!; [exact Hr|reflexivity|].
  apply (loading_means_work (H := demo_platform) _ _ Hr).
Defined.

(** ** The first run *)

(** X16.  The pipeline of the first run, step by step. When the transcript
    file of the input is not there, [main] runs the program on a loading model
    whose [Init] starts the spinner and the extraction of the audio. When that
    command has made the audio file, its message makes [Update] start the
    transcription of this file, still loading; and when that command has ended
    well, its message makes [Update] clear [loading] and show the items that
    [parseVTT] reads from the transcript, none of them selected, with the
    cursor on the first, under two lines of statuses. *)
Theorem first_run_pipeline `{Platform} (fs : file_system) (s : spinner_Model)
  (inputFile : string) (run : exec_Cmd → option error)
  (transcribe : string → result string) (write : string → string → option error)
  (audioFile vtt : string) (items : list TranscriptItem) (calls : list os_call) :
  Stat fs (vttFile inputFile) = false →
  extractAudioCmd_run run inputFile = audioExtractedMsg audioFile →
  transcribeAudioCmd_run transcribe write audioFile
  = (calls, transcriptionDoneMsg vtt items) →
  ∃ m0 m1 m2 : model,
    main fs s inputFile = tea_NewProgram m0
    ∧ loading m0 = true
    ∧ Init m0 = [library_Cmd (spinner_Tick s); extractAudioCmd inputFile]
    ∧ Update m0 (audioExtractedMsg audioFile) = (m1, [transcribeAudioCmd audioFile], [])
    ∧ loading m1 = true
    ∧ Update m1 (transcriptionDoneMsg vtt items) = (m2, [], [])
    ∧ loading m2 = false
    ∧ transcriptItems m2 = parseVTT vtt
    ∧ Items (list_ m2) = to_items (parseVTT vtt)
    ∧ Index (list_ m2) = 0
    ∧ hasSelected (Items (list_ m2)) = false
    ∧ statuses m2 = ["Audio extracted from ffmpeg.";
                     "Transcription finished and saved locally."].
Proof.
  intros Hstat Ha Ht.
  assert (items = parseVTT vtt) as ->.
  { unfold transcribeAudioCmd_run in Ht. destruct (transcribe _); [|done].
    destruct (write _ _); [done|]. by injection Ht as _ <- <-. }
  unfold main. rewrite Hstat.
  eexists _, _, _. split_and!; try reflexivity.
  cbn. rewrite to_items_items_of, hasSelected_items_of, chosen_none.
  apply bool_decide_eq_false_2. intros Hn. by apply Hn.
Qed.

Lemma first_run_pipeline_witness :
  Stat empty_fs (vttFile (H := unix_platform) "talk.mp4") = false
  ∧ ∃ m0 m1 m2 : @model unix_platform,
      main (H := unix_platform) empty_fs () "talk.mp4" = tea_NewProgram m0
      ∧ Update m0 (audioExtractedMsg "talk.mp3")
        = (m1, [transcribeAudioCmd "talk.mp3"], [])
      ∧ Update m1 (transcriptionDoneMsg demo_vtt (fst <$> demo_segments)) = (m2, [], [])
      ∧ Items (list_ m2) = to_items (parseVTT demo_vtt).
Proof.
  split; [reflexivity|].
  destruct (first_run_pipeline (H := unix_platform) empty_fs () "talk.mp4"
              (λ _, None) (λ _, Ok demo_vtt) (λ _ _, None) "talk.mp3" demo_vtt
              (fst <$> demo_segments)
              [os_WriteFile "talk.vtt" demo_vtt; os_Remove "talk.mp3"]
              eq_refl eq_refl)
    as (m0 & m1 & m2 & Hm & _ & _ & H1 & _ & H2 & _ & _ & Hi & _).
  { vm_compute. reflexivity. }
  exists m0, m1, m2. split_and!; [exact Hm|exact H1|exact H2|exact Hi].
Defined.

(** X17.  A failed extraction ends the pipeline. When ffmpeg fails on the
    audio, the message of the command makes [Update] clear [loading], show the
    error, whose text begins with [failed to extract audio: ], and return no
    command: no transcription is started, then or in any later state. *)
Theorem failed_extraction_stops `{Platform} (m : model) (rest : list operation)
  (run : exec_Cmd → option error) (inputFile : string) (err : error) :
  run (extract_command inputFile (audio_name inputFile)) = Some err →
  count_ops is_pipeline rest = 0%nat →
  let msg := extractAudioCmd_run run inputFile in
  let w := deliver {| current := m; in_flight := rest; running := true |} msg in
  outcome (extracting inputFile) msg
  ∧ Update m msg
    = (set_errorMsg ("failed to extract audio: " +:+ Error err)
         (set_loading false
            (add_status ("failed to extract audio: " +:+ Error err) m)), [], [])
  ∧ ∀ w', rtc step w w' → count_ops is_pipeline (in_flight w') = 0%nat.
Proof.
  intros Hrun Hrest msg w.
  assert (Hmsg : msg = errorMsg_value
                         (other_failure ("failed to extract audio: " +:+ Error err))).
  { subst msg. unfold extractAudioCmd_run, extractAudio.
    fold (audio_name inputFile). by rewrite Hrun. }
  split_and!.
  - rewrite Hmsg. constructor.
  - by rewrite Hmsg.
  - assert (Hw : count_ops is_pipeline (in_flight w) = 0%nat).
    { subst w. rewrite Hmsg. unfold deliver. cbn.
      by rewrite app_nil_r. }
    intros w' Hr. induction Hr as [w0|w1 w2 w3 Hs _ IH]; [done|].
    apply IH. by eapply no_pipeline_step.
Qed.

Lemma failed_extraction_stops_witness :
  let run := λ _ : exec_Cmd, Some (exec_failure "exit status 1") in
  run (extract_command "talk.mp4" (audio_name (H := demo_platform) "talk.mp4"))
  = Some (exec_failure "exit status 1")
  ∧ errorMsg (Update (set_loading true (demo_model [] 0))
                (extractAudioCmd_run (H := demo_platform) run "talk.mp4")).1.1
    = "failed to extract audio: exit status 1".
Proof.
  intros run. split; [reflexivity|].
  destruct (failed_extraction_stops (H := demo_platform)
              (set_loading true (demo_model [] 0)) [] run "talk.mp4"
              (exec_failure "exit status 1") eq_refl eq_refl) as (_ & Hu & _).
  by rewrite Hu.
Defined.

(** ** What is on the screen and what is in flight *)

Section Sound.

Context {H : Platform}.

(** The list component keeps its items when it handles a key. *)
Hypothesis list_keeps_items :
  ∀ (l : list_Model) (key : string), Items (list_Update l key).1 = Items l.

Lemma shows_transcript_same (m m' : model) :
  Items (list_ m') = Items (list_ m) → transcriptItems m' = transcriptItems m →
  shows_transcript m → shows_transcript m'.
Proof. intros Hi Ht (segs & ? & ? & ?). exists segs. by rewrite Hi, Ht. Qed.

Lemma shows_transcript_fresh (m : model) (vtt : string) :
  Items (list_ m) = to_items (parseVTT vtt) → transcriptItems m = parseVTT vtt →
  shows_transcript m.
Proof.
  intros Hi Ht. exists ((λ t, (t, false)) <$> parseVTT vtt). split_and!.
  - by rewrite Hi, to_items_items_of.
  - rewrite Ht, <- list_fmap_compose. apply list_fmap_id.
  - apply Forall_fmap. eapply Forall_impl; [apply parseVTT_timecodes|]. by intros t [? ?].
Qed.

Lemma shows_transcript_toggle (m : model) :
  shows_transcript m → shows_transcript (toggle m).
Proof.
  intros (segs & Hi & Ht & Hw).
  destruct (loading m) eqn:Hl.
  { rewrite toggle_elsewhere by by left. by exists segs. }
  destruct (index (Items (list_ m)) (Index (list_ m))) as [[i|v]|] eqn:Hx.
  2,3: rewrite toggle_elsewhere by (right; congruence); by exists segs.
  rewrite (toggle_at m i Hl Hx).
  apply index_Some in Hx as [[H0 _] Hk]. set (k := Z.to_nat (Index (list_ m))) in *.
  rewrite Hi, lookup_items_of in Hk.
  destruct (segs !! k) as [[t sel]|] eqn:Hs; [|done]. injection Hk as <-.
  exists (<[k := (t, negb sel)]> segs). split_and!.
  - cbn. rewrite Hi. apply (items_of_insert segs k (t, negb sel)).
  - cbn. rewrite <- Ht, list_fmap_insert. apply list_insert_id.
    by rewrite list_lookup_fmap, Hs.
  - apply Forall_insert; [done|].
    by apply (proj1 (Forall_forall _ _) Hw (t, sel)), list_elem_of_lookup_2 with k.
Qed.

(** A preview of a list that shows the transcript runs between timecodes. *)
Lemma preview_sound (m : model) :
  shows_transcript m → Forall (λ g, sound_work (spawn g)) (preview m).
Proof.
  intros (segs & Hi & Ht & Hw). unfold preview.
  destruct (_ && _); [|done]. destruct (_ && _); [|done].
  destruct (index (Items (list_ m)) (Index (list_ m))) as [[i|v]|] eqn:Hx; [|done..].
  apply index_Some in Hx as [[H0 _] Hk]. set (k := Z.to_nat (Index (list_ m))) in *.
  rewrite Hi, lookup_items_of in Hk.
  destruct (segs !! k) as [cur|] eqn:Hs; [|done]. injection Hk as <-.
  replace (Index (list_ m)) with (Z.of_nat k) by (subst k; lia).
  rewrite Hi, (getEndTime_segments segs k cur) by done.
  rewrite Forall_forall in Hw.
  destruct (Hw cur) as [Ha Hb]; [by eapply list_elem_of_lookup_2|].
  apply Forall_singleton. cbn [spawn sound_work].
  rewrite first_part_timestamp by done. split; [done|].
  destruct (segs !! S k) as [next|] eqn:Hn.
  - by destruct (Hw next) as [? _]; [by eapply list_elem_of_lookup_2|].
  - pose proof (field_seconds_range _ Ha) as Hr.
    rewrite addSecondsToTimestamp_timecode;
      [|done|lia|change MaxInt64 with 9223372036854775807; lia].
    by apply timecode_with_seconds; [|lia].
Qed.

Lemma sound_library (c : list lib_Cmd) :
  Forall sound_work ((library_Cmd <$> c) ≫= launch).
Proof. induction c as [|x c IH]; [constructor|]. by constructor. Qed.

(** What [Update] does with a key. *)
Lemma Update_key_cases (m : model) (key : string) :
  Update m (KeyMsg key) = (set_quitting true m, [tea_Quit], [])
  ∨ Update m (KeyMsg key) = (toggle m, [], [])
  ∨ Update m (KeyMsg key) = (m, [], preview m)
  ∨ (hasSelected (Items (list_ m)) = true
     ∧ Update m (KeyMsg key)
       = (set_loadingMsg "Compiling video segments with ffmpeg..." (set_loading true m),
          [library_Cmd (spinner_Tick (spinner m));
           compileVideoCmd (inputFile m) (Items (list_ m))], []))
  ∨ Update m (KeyMsg key) = (m, [], [])
  ∨ Update m (KeyMsg key)
    = ((set_list (list_Update (list_ m) key).1 m),
       library_Cmd <$> (list_Update (list_ m) key).2, []).
Proof.
  unfold Update.
  destruct (bool_decide (key = "q") || bool_decide (key = "ctrl+c")); [by left|].
  destruct (bool_decide (key = "enter") || bool_decide (key = " ")); [by right; left|].
  destruct (bool_decide (key = "p")); [by right; right; left|].
  destruct (bool_decide (key = "c")).
  - destruct (negb (loading m) && _ && hasSelected _) eqn:E.
    + apply andb_true_iff in E as [_ E]. by right; right; right; left.
    + by right; right; right; right; left.
  - destruct (negb (loading m)).
    + do 5 right. by destruct (list_Update _ _).
    + by right; right; right; right; left.
Qed.

(** Keys and the messages of the components keep a world sound. *)
Lemma sound_local (w : world) (msg : tea_Msg) :
  local_msg msg → sound w → sound (deliver w msg).
Proof.
  intros Hm [Hs Hf]. unfold sound, deliver.
  destruct msg as [key| | | | |t|t]; try done.
  - destruct (Update_key_cases (current w) key)
      as [-> | [-> | [-> | [[Hsel ->] | [-> | ->]]]]]; cbn.
    + split; [by apply (shows_transcript_same (current w))|]. by rewrite app_nil_r.
    + split; [by apply shows_transcript_toggle|]. by rewrite app_nil_r.
    + split; [done|]. apply Forall_app. split; [done|].
      apply Forall_fmap. by apply preview_sound.
    + split; [by apply (shows_transcript_same (current w))|].
      apply Forall_app. split; [done|]. repeat constructor.
      destruct Hs as (segs & Hi & _ & Hw). exists segs. split_and!; [done..|].
      rewrite Hi, hasSelected_items_of in Hsel. by apply bool_decide_eq_true in Hsel.
    + split; [done|]. by rewrite app_nil_r.
    + split; [apply (shows_transcript_same (current w)); [|done..];
              apply list_keeps_items|].
      rewrite app_nil_r. apply Forall_app. split; [done|apply sound_library].
  - unfold Update. destruct (loading (current w)).
    + destruct (spinner_Update _ _) as [s c]. cbn.
      split; [by apply (shows_transcript_same (current w))|].
      rewrite app_nil_r. apply Forall_app. split; [done|apply sound_library].
    + split; [done|]. cbn. by rewrite app_nil_r.
  - split; [done|]. cbn. by rewrite app_nil_r.
Qed.

Lemma sound_step (w w' : world) : step w w' → sound w → sound w'.
Proof.
  intros Hs Hw.
  destruct Hs as [w key Hr|w t Hr|w pre op post msg Hr Hin Hout|w pre f a b post Hin].
  - by apply sound_local.
  - by apply sound_local.
  - destruct Hw as [Hs Hf]. rewrite Hin in Hf.
    apply Forall_app in Hf as [Hpre [_ Hpost]%Forall_cons].
    assert (Hw0 : sound {| current := current w; in_flight := pre ++ post;
                           running := true |}).
    { split; [done|]. cbn. by apply Forall_app. }
    destruct Hout as [f a|f err|f vtt|f err|f items run|c t|c t].
    + destruct Hw0 as [Hs0 Hf0]. unfold sound, deliver. cbn.
      split; [by apply (shows_transcript_same (current w))|].
      apply Forall_app. split; [done|]. by repeat constructor.
    + destruct Hw0 as [Hs0 Hf0]. unfold sound, deliver. cbn.
      split; [by apply (shows_transcript_same (current w))|]. by rewrite app_nil_r.
    + destruct Hw0 as [Hs0 Hf0]. unfold sound, deliver. cbn.
      split; [by apply (shows_transcript_fresh _ vtt)|]. by rewrite app_nil_r.
    + destruct Hw0 as [Hs0 Hf0]. unfold sound, deliver. cbn.
      split; [by apply (shows_transcript_same (current w))|]. by rewrite app_nil_r.
    + destruct Hw0 as [Hs0 Hf0]. unfold sound, deliver, compileVideoCmd_run.
      destruct (compileVideoSegments run f items).2; cbn;
        (split; [by apply (shows_transcript_same (current w))|]);
        by rewrite app_nil_r.
    + by apply sound_local.
    + by apply sound_local.
  - destruct Hw as [Hs Hf]. rewrite Hin in Hf.
    apply Forall_app in Hf as [Hpre [_ Hpost]%Forall_cons].
    split; [done|]. cbn. by apply Forall_app.
Qed.

Lemma sound_main (fs : file_system) (s : spinner_Model) (inputFile : string)
  (m0 : model) :
  main fs s inputFile = tea_NewProgram m0 → sound (boot m0).
Proof.
  unfold main. intros Hm. split.
  - destruct (Stat fs _).
    + destruct (ReadFile fs _) as [vtt|]; [|done]. injection Hm as <-.
      by apply (shows_transcript_fresh _ vtt).
    + injection Hm as <-. by exists [].
  - unfold boot, Init. cbn. destruct (loading m0); by repeat constructor.
Qed.

Lemma sound_reachable (fs : file_system) (s : spinner_Model) (inputFile : string)
  (m0 : model) (w : world) :
  main fs s inputFile = tea_NewProgram m0 → reachable m0 w → sound w.
Proof.
  intros Hm Hr.
  apply (rtc_ind_r (R := step) (λ w, sound w) (boot m0)); [| |exact Hr].
  - by eapply sound_main.
  - intros y z _ Hs IH. by eapply sound_step.
Qed.

(** X18.  The list always shows the transcript. In every state that the
    program reaches from the model that [main] starts it with, the items of
    the list are the items of the transcript of the model, in their order,
    each with its flag, and every one carries two timecodes: keys change the
    flags and nothing else. *)
Theorem list_shows_the_transcript (fs : file_system) (s : spinner_Model)
  (inputFile : string) (m0 : model) (w : world) :
  main fs s inputFile = tea_NewProgram m0 →
  reachable m0 w →
  ∃ segs : list timed_segment,
    Items (list_ (current w)) = items_of segs
    ∧ fst <$> segs = transcriptItems (current w)
    ∧ Forall well_timed segs.
Proof.
  intros Hm Hr.
  assert (Hs : sound w).
  { apply (rtc_ind_r (R := step) (λ w, sound w) (boot m0)); [| |exact Hr].
    - by eapply sound_main.
    - intros y z _ Hstep IH. by eapply sound_step. }
  by destruct Hs.
Qed.

(** X19.  Every preview that the program starts runs between two well-formed
    timecodes: in every state that the program reaches, each preview in flight
    was started with a start and an end of the form [HH:MM:SS.mmm]. *)
Theorem previews_run_between_timecodes (fs : file_system) (s : spinner_Model)
  (inputFile : string) (m0 : model) (w : world) (f startTime endTime : string) :
  main fs s inputFile = tea_NewProgram m0 →
  reachable m0 w →
  previewing f startTime endTime ∈ in_flight w →
  is_timecode startTime = true ∧ is_timecode endTime = true.
Proof.
  intros Hm Hr Hin. destruct (sound_reachable fs s inputFile m0 w Hm Hr) as [_ Hf].
  rewrite Forall_forall in Hf. apply (Hf _ Hin).
Qed.

(** X20.  Every compilation that the program starts gets as far as ffmpeg: in
    every state that the program reaches, a compilation in flight finds every
    timestamp of its items well formed and at least one item selected, so it
    runs ffmpeg exactly once and its result is that of ffmpeg. *)
Theorem compilations_reach_ffmpeg (fs : file_system) (s : spinner_Model)
  (inputFile : string) (m0 : model) (w : world) (f : string)
  (items : list list_Item) (run : exec_Cmd → option error) :
  main fs s inputFile = tea_NewProgram m0 →
  reachable m0 w →
  compiling f items ∈ in_flight w →
  ∃ segments,
    segments ≠ []
    ∧ collect_segments items [] = Ok segments
    ∧ let cmd := ffmpeg_command f (selectFilter segments) (compiled_path f) in
      compileVideoSegments run f items
      = ([cmd], match run cmd with
                | Some err => Err (failed_to_compile_video_segments err)
                | None => Ok (compiled_path f)
                end).
Proof.
  intros Hm Hr Hin. destruct (sound_reachable fs s inputFile m0 w Hm Hr) as [_ Hf].
  rewrite Forall_forall in Hf. destruct (Hf _ Hin) as (segs & -> & Hw & Hc).
  pose proof (collect_segments_well_timed segs [] Hw) as Hcol. cbn [app] in Hcol.
  exists (span_of <$> chosen segs). split_and!; [by destruct (chosen segs)|done|].
  unfold compileVideoSegments. rewrite Hcol.
  destruct (chosen segs) as [|t ts]; [done|]. cbn.
  fold (compiled_path f). by destruct (run _).
Qed.

End Sound.

Lemma list_shows_the_transcript_witness :
  let m0 := demo_model fresh_segments 0 in
  let w := deliver (boot m0) (KeyMsg " ") in
  main (H := demo_platform) demo_fs () "talk.mp4" = tea_NewProgram m0
  ∧ reachable m0 w
  ∧ ∃ segs : list timed_segment,
      Items (list_ (current w)) = items_of segs
      ∧ fst <$> segs = transcriptItems (current w)
      ∧ Forall well_timed segs.
Proof.
  intros m0 w.
  assert (Hm : main (H := demo_platform) demo_fs () "talk.mp4" = tea_NewProgram m0)
    by reflexivity.
  assert (Hr : reachable m0 w).
  { apply rtc_once. apply (step_key (H := demo_platform)). reflexivity. }
  split_and!; [exact Hm|exact Hr|].
  apply (list_shows_the_transcript (H := demo_platform) (λ _ _, eq_refl)
           demo_fs () "talk.mp4" m0 w Hm Hr).
Defined.

Lemma previews_run_between_timecodes_witness :
  let m0 := demo_model fresh_segments 0 in
  let w := deliver (boot m0) (KeyMsg "p") in
  main (H := demo_platform) demo_fs () "talk.mp4" = tea_NewProgram m0
  ∧ reachable m0 w
  ∧ previewing "talk.mp4" "00:00:01.000" "00:00:02.000" ∈ in_flight w
  ∧ is_timecode "00:00:02.000" = true.
Proof.
  intros m0 w.
  assert (Hm : main (H := demo_platform) demo_fs () "talk.mp4" = tea_NewProgram m0)
    by reflexivity.
  assert (Hr : reachable m0 w).
  { apply rtc_once. apply (step_key (H := demo_platform)). reflexivity. }
  assert (Hin : previewing "talk.mp4" "00:00:01.000" "00:00:02.000" ∈ in_flight w)
    by (vm_compute; left).
  split_and!; [exact Hm|exact Hr|exact Hin|].
  apply (previews_run_between_timecodes (H := demo_platform) (λ _ _, eq_refl)
           demo_fs () "talk.mp4" m0 w _ _ _ Hm Hr Hin).
Defined.

Lemma compilations_reach_ffmpeg_witness :
  let m0 := demo_model fresh_segments 0 in
  let w := deliver (deliver (boot m0) (KeyMsg " ")) (KeyMsg "c") in
  let items := items_of [({| StartTime := "00:00:01.000"; EndTime := "00:00:02.000";
                             Text := "a" |}, true);
                         ({| StartTime := "00:00:02.000"; EndTime := "00:00:05.000";
                             Text := "b" |}, false)] in
  main (H := demo_platform) demo_fs () "talk.mp4" = tea_NewProgram m0
  ∧ reachable m0 w
  ∧ compiling "talk.mp4" items ∈ in_flight w
  ∧ ∃ segments,
      segments ≠ []
      ∧ collect_segments items [] = Ok segments.
Proof.
  intros m0 w items.
  assert (Hm : main (H := demo_platform) demo_fs () "talk.mp4" = tea_NewProgram m0)
    by reflexivity.
  assert (Hr : reachable m0 w).
  { eapply rtc_l; [apply (step_key (H := demo_platform)); reflexivity|].
    apply rtc_once. apply (step_key (H := demo_platform)). reflexivity. }
  assert (Hin : compiling "talk.mp4" items ∈ in_flight w)
    by (vm_compute; right; left).
  split_and!; [exact Hm|exact Hr|exact Hin|].
  destruct (compilations_reach_ffmpeg (H := demo_platform) (λ _ _, eq_refl)
              demo_fs () "talk.mp4" m0 w "talk.mp4" items (λ _, None) Hm Hr Hin)
    as (segments & Hne & Hc & _).
  by exists segments.
Defined.

(** ** Paths *)

Lemma last_element_plain (back tail : string) :
  one_of back "/" = false → last_element back tail = string_rev back +:+ tail.
Proof.
  revert tail. induction back as [|c back IH]; intros tail; simpl; [done|].
  intros [Hc Hb]%orb_false_elim. rewrite Hc, IH by done.
  by rewrite string_rev_cons, append_assoc.
Qed.

Lemma last_element_no_separator (back tail : string) :
  one_of tail "/" = false → one_of (last_element back tail) "/" = false.
Proof.
  revert tail. induction back as [|c back IH]; intros tail Ht; simpl; [done|].
  destruct (c =? "/")%char eqn:Hc; [done|]. apply IH. simpl. by rewrite Hc.
Qed.

(** The base of a path is [/], or it has no separator in it. *)
Lemma unix_Base_no_separator (path : string) :
  unix_Base path = "/" ∨ one_of (unix_Base path) "/" = false.
Proof.
  unfold unix_Base. case_bool_decide; [by right|]. case_bool_decide; [by left|].
  right. by apply last_element_no_separator.
Qed.

(** A name without a separator is its own base. *)
Lemma unix_Base_plain (name : string) :
  name ≠ "" → one_of name "/" = false → unix_Base name = name.
Proof.
  intros Hn Hs. unfold unix_Base. rewrite bool_decide_eq_false_2 by done.
  assert (Hr : one_of (string_rev name) "/" = false) by by rewrite one_of_rev.
  assert (strip_trailing (string_rev name) = string_rev name) as ->.
  { destruct (string_rev name) as [|c r]; [done|]. simpl in Hr |- *.
    apply orb_false_elim in Hr as [Hc _]. by rewrite Hc. }
  rewrite last_element_plain by done.
  rewrite string_rev_involutive, append_nil_r. by rewrite bool_decide_eq_false_2.
Qed.

(** The extension of a path is empty or begins with a point. *)
Lemma Ext_loop_point (back tail : string) :
  Ext_loop back tail = "" ∨ ∃ r, Ext_loop back tail = String "." r.
Proof.
  revert tail. induction back as [|c back IH]; intros tail; simpl; [by left|].
  destruct (c =? "/")%char; [by left|].
  destruct (Ascii.eqb_spec c "."); [subst; right; by eexists|apply IH].
Qed.

Lemma unix_Ext_point (path : string) :
  unix_Ext path = "" ∨ ∃ r, unix_Ext path = String "." r.
Proof. apply Ext_loop_point. Qed.

(** The extension of a name to which [.mp3] was added. *)
Lemma unix_Ext_mp3 (name : string) : unix_Ext (name +:+ ".mp3") = ".mp3".
Proof. unfold unix_Ext. rewrite string_rev_append. reflexivity. Qed.

Section Files.

Context {H : Platform}.

(** The paths are those of a Unix target. *)
Hypothesis Base_unix : ∀ path, filepath_Base path = unix_Base path.
Hypothesis Ext_unix : ∀ path, filepath_Ext path = unix_Ext path.

Lemma basename_no_separator (inputFile : string) :
  unix_Base inputFile ≠ "/" →
  one_of (TrimSuffix (filepath_Base inputFile) (filepath_Ext inputFile)) "/" = false.
Proof.
  intros Hb. rewrite Base_unix. apply one_of_TrimSuffix.
  by destruct (unix_Base_no_separator inputFile).
Qed.

(** The transcript of the audio file is the transcript of the input. *)
Lemma vttFile_audio_name (inputFile : string) :
  unix_Base inputFile ≠ "/" →
  vttFile (audio_name inputFile) = vttFile inputFile.
Proof.
  intros Hb. unfold vttFile at 1. unfold audio_name.
  set (b := TrimSuffix (filepath_Base inputFile) (filepath_Ext inputFile)).
  assert (Hs : one_of b "/" = false) by by apply basename_no_separator.
  rewrite Base_unix, Ext_unix.
  rewrite unix_Base_plain.
  - by rewrite unix_Ext_mp3, TrimSuffix_append.
  - by destruct b.
  - rewrite one_of_append, Hs. done.
Qed.

(** X21.  The second run finds what the first run left. When the command of
    [extractAudioCmd] has made the audio file of an input and the command of
    [transcribeAudioCmd] has ended well on it, then the transcript was written
    under the name that [main] looks for, before the audio file was removed;
    and [main], started again on the same input, finds it, does not load, and
    shows the same transcript items in the same list as [Update] did on the
    message of the first run. *)
Theorem second_run_resumes (run : exec_Cmd → option error)
  (transcribe : string → result string) (write : string → string → option error)
  (fs : file_system) (s : spinner_Model) (inputFile audioFile vtt : string)
  (items : list TranscriptItem) (calls : list os_call) :
  unix_Base inputFile ≠ "/" →
  extractAudioCmd_run run inputFile = audioExtractedMsg audioFile →
  transcribeAudioCmd_run transcribe write audioFile
  = (calls, transcriptionDoneMsg vtt items) →
  calls = [os_WriteFile (vttFile inputFile) vtt; os_Remove audioFile]
  ∧ ∃ m : model,
      main (foldl perform fs calls) s inputFile = tea_NewProgram m
      ∧ loading m = false
      ∧ transcriptItems m = items
      ∧ ∀ m1, list_ m = list_ (Update m1 (transcriptionDoneMsg vtt items)).1.1.
Proof.
  intros Hb Ha Ht.
  assert (audioFile = audio_name inputFile) as ->.
  { unfold extractAudioCmd_run, extractAudio in Ha.
    destruct (run _); simpl in Ha; [done|]. by injection Ha as <-. }
  unfold transcribeAudioCmd_run in Ht.
  destruct (transcribe _) as [v|]; [|done].
  fold (vttFile (audio_name inputFile)) in Ht. rewrite vttFile_audio_name in Ht by done.
  destruct (write _ _); [done|]. injection Ht as <- <- <-.
  split; [done|].
  assert (Hne : String.eqb (vttFile inputFile) (audio_name inputFile) = false).
  { apply String.eqb_neq. unfold vttFile, audio_name. by intros ?%String.app_inj. }
  unfold main. cbn [foldl perform Stat ReadFile].
  rewrite Hne, String.eqb_refl. cbn [negb andb orb].
  eexists. split; [reflexivity|]. done.
Qed.

(** X22.  No command is told to write over the input. The audio file that
    [extractAudio] has ffmpeg write, the transcript file, and the file that
    [compileVideoSegments] has ffmpeg write into the directory of the input
    all have a name other than the file name of the input, as long as the
    input is not itself an [.mp3] or a [.vtt] file. *)
Theorem outputs_are_not_the_input (run : exec_Cmd → option error)
  (inputFile : string) :
  (∀ audioFile, (extractAudio run inputFile).2 = Ok audioFile →
                filepath_Ext inputFile ≠ ".mp3" →
                audioFile ≠ filepath_Base inputFile)
  ∧ (filepath_Ext inputFile ≠ ".vtt" → vttFile inputFile ≠ filepath_Base inputFile)
  ∧ ∀ items outputFile,
      (compileVideoSegments run inputFile items).2 = Ok outputFile →
      ∃ name, outputFile = filepath_Join (filepath_Dir inputFile) name
              ∧ name ≠ filepath_Base inputFile.
Proof.
  assert (Hname : ∀ suf,
            filepath_Ext inputFile ≠ suf → suf ≠ "" →
            TrimSuffix (filepath_Base inputFile) (filepath_Ext inputFile) +:+ suf
            ≠ filepath_Base inputFile).
  { intros suf He Hs Heq.
    destruct (HasSuffix (filepath_Base inputFile) (filepath_Ext inputFile)) eqn:Hsuf.
    - pose proof (HasSuffix_split _ _ Hsuf) as Hsp.
      set (b := TrimSuffix _ _) in *. clearbody b. rewrite Hsp in Heq.
      apply String.app_inj in Heq. congruence.
    - unfold TrimSuffix in Heq. rewrite Hsuf in Heq.
      apply (f_equal String.length) in Heq. rewrite length_append in Heq.
      destruct suf; [done|]. simpl in Heq. lia. }
  split_and!.
  - intros audioFile Ha He. unfold extractAudio in Ha.
    destruct (run _); simpl in Ha; [done|]. injection Ha as <-. by apply Hname.
  - intros He. by apply Hname.
  - intros items outputFile Hc. unfold compileVideoSegments in Hc.
    destruct (collect_segments items []) as [segments|]; [|done].
    destruct (len segments =? 0); [done|].
    destruct (run _); simpl in Hc; [done|]. injection Hc as <-.
    eexists. split; [reflexivity|]. apply Hname; [|done].
    rewrite Ext_unix. by destruct (unix_Ext_point inputFile) as [->|[r ->]].
Qed.

End Files.

Lemma second_run_resumes_witness :
  let run := λ _ : exec_Cmd, @None error in
  let transcribe := λ _ : string, Ok demo_vtt in
  let write := λ _ _ : string, @None error in
  unix_Base "talk.mp4" ≠ "/"
  ∧ extractAudioCmd_run (H := unix_platform) run "talk.mp4" = audioExtractedMsg "talk.mp3"
  ∧ transcribeAudioCmd_run (H := unix_platform) transcribe write "talk.mp3"
    = ([os_WriteFile "talk.vtt" demo_vtt; os_Remove "talk.mp3"],
       transcriptionDoneMsg demo_vtt (fst <$> demo_segments))
  ∧ ∃ m : @model unix_platform,
      main (H := unix_platform)
        (foldl perform empty_fs [os_WriteFile "talk.vtt" demo_vtt; os_Remove "talk.mp3"])
        () "talk.mp4" = tea_NewProgram m
      ∧ loading m = false
      ∧ transcriptItems m = fst <$> demo_segments.
Proof.
  intros run transcribe write.
  assert (Hb : unix_Base "talk.mp4" ≠ "/") by (vm_compute; discriminate).
  assert (Ha : extractAudioCmd_run (H := unix_platform) run "talk.mp4"
               = audioExtractedMsg "talk.mp3") by reflexivity.
  assert (Ht : transcribeAudioCmd_run (H := unix_platform) transcribe write "talk.mp3"
               = ([os_WriteFile "talk.vtt" demo_vtt; os_Remove "talk.mp3"],
                  transcriptionDoneMsg demo_vtt (fst <$> demo_segments)))
    by (vm_compute; reflexivity).
  split_and!; [exact Hb|exact Ha|exact Ht|].
  destruct (second_run_resumes (H := unix_platform) (λ _, eq_refl) (λ _, eq_refl)
              run transcribe write empty_fs () "talk.mp4" "talk.mp3" demo_vtt
              (fst <$> demo_segments) _ Hb Ha Ht) as (_ & m & Hm & Hl & Hi & _).
  exists m. split_and!; [exact Hm|exact Hl|exact Hi].
Defined.

Lemma outputs_are_not_the_input_witness :
  (extractAudio (H := unix_platform) (λ _, None) "talk.mp4").2 = Ok "talk.mp3"
  ∧ filepath_Ext (Platform := unix_platform) "talk.mp4" ≠ ".mp3"
  ∧ "talk.mp3" ≠ filepath_Base (Platform := unix_platform) "talk.mp4".
Proof.
  assert (Ha : (extractAudio (H := unix_platform) (λ _, None) "talk.mp4").2
               = Ok "talk.mp3") by reflexivity.
  assert (He : filepath_Ext (Platform := unix_platform) "talk.mp4" ≠ ".mp3")
    by (vm_compute; discriminate).
  split_and!; [exact Ha|exact He|].
  destruct (outputs_are_not_the_input (H := unix_platform) (λ _, eq_refl)
              (λ _, None) "talk.mp4") as (Haudio & _ & _).
  exact (Haudio "talk.mp3" Ha He).
Defined.

(** ** The screen *)

Section Screen.

Context `{D : Display}.

Lemma styled_last (pre : list string) (x : string) (i : Z) :
  styled (i + len (pre ++ [x])) i (pre ++ [x])
  = ((λ s, BulletStyle_Render "├" +:+ TextStyle_Render s) <$> pre)
    ++ [BulletStyle_Render "└" +:+ TextStyle_Render x].
Proof.
  revert i. induction pre as [|s pre IH]; intros i.
  - unfold len. cbn [app length styled fmap list_fmap].
    replace (i + Z.of_nat 1 - 1) with i by lia. by rewrite Z.eqb_refl.
  - cbn [app styled fmap list_fmap].
    destruct (Z.eqb_spec i (i + len (s :: pre ++ [x]) - 1)) as [He|_].
    { unfold len in He. cbn [length] in He. rewrite length_app in He. simpl in He. lia. }
    f_equal. rewrite <- (IH (i + 1)). f_equal. unfold len. cbn [length]. lia.
Qed.

(** X23.  What [styleOutput] writes. For statuses of which [x] is the last, it
    writes one line for each status, in their order, each behind a bullet: the
    corner for the last one and the tee for every other one; the lines are
    joined by newlines and a newline ends the text. *)
Theorem styleOutput_lines (pre : list string) (x : string) :
  styleOutput (pre ++ [x])
  = Join (((λ s, BulletStyle_Render "├" +:+ TextStyle_Render s) <$> pre)
          ++ [BulletStyle_Render "└" +:+ TextStyle_Render x]) (String "010" "")
    +:+ String "010" "".
Proof.
  unfold styleOutput. f_equal. f_equal.
  rewrite <- (styled_last pre x 0). f_equal.
Qed.

(** X24.  An error reaches the screen. When a message with an error of a text
    that is not empty comes to a model that is not quitting, the view of the
    model that [Update] returns shows the statuses there were, then the text
    of the error as the last status, behind the corner, and then the hint to
    press [q]; it shows neither the spinner nor the list. *)
Theorem error_is_shown (m : model) (err : error) :
  quitting m = false →
  Error err ≠ "" →
  View (Update m (errorMsg_value err)).1.1
  = Join (((λ s, BulletStyle_Render "├" +:+ TextStyle_Render s) <$> statuses m)
          ++ [BulletStyle_Render "└" +:+ TextStyle_Render (Error err)])
      (String "010" "")
    +:+ String "010" "" +:+ String "010" "Press 'q' to quit".
Proof.
  intros Hq He. unfold View. cbn [Update fst].
  cbn [quitting errorMsg statuses set_errorMsg set_loading add_status].
  rewrite Hq, bool_decide_eq_false_2 by done. cbn [negb].
  unfold styleOutput. rewrite <- (styled_last (statuses m) (Error err) 0).
  by rewrite append_assoc.
Qed.

End Screen.

Lemma error_is_shown_witness :
  quitting (demo_model demo_segments 0) = false
  ∧ Error (H := demo_platform) no_segments_selected ≠ ""
  ∧ View (D := demo_display)
      (Update (demo_model demo_segments 0) (errorMsg_value no_segments_selected)).1.1
    = "├ Transcript already exists locally" +:+ String "010" ""
      +:+ "└ no segments selected" +:+ String "010" ""
      +:+ String "010" "Press 'q' to quit".
Proof.
  split_and!; [reflexivity|discriminate|].
  apply (error_is_shown (D := demo_display) (demo_model demo_segments 0)
           no_segments_selected); [reflexivity|discriminate].
Defined.

(** ** The user of the key ring *)

(** X25.  [getSystemUser] never returns the empty text: it returns [USER] when
    that is set, otherwise [USERNAME] when that is set, and otherwise [anon]. *)
Theorem getSystemUser_not_empty (Getenv : string → string) :
  getSystemUser Getenv ≠ ""
  ∧ (Getenv "USER" ≠ "" → getSystemUser Getenv = Getenv "USER")
  ∧ (Getenv "USER" = "" → Getenv "USERNAME" ≠ "" →
     getSystemUser Getenv = Getenv "USERNAME")
  ∧ (Getenv "USER" = "" → Getenv "USERNAME" = "" → getSystemUser Getenv = "anon").
Proof.
  unfold getSystemUser. repeat case_bool_decide; split_and!; congruence.
Qed.

(** ** Line ends *)

Lemma drop_space_rune_append (x r y : string) :
  drop_space_rune x = Some r → drop_space_rune (x +:+ y) = Some (r +:+ y).
Proof.
  destruct x as [|c x]; [done|]. rewrite append_cons.
  destruct c as [[] [] [] [] [] [] [] []]; cbn;
    try (by intros [= <-]);
    try done.
  all: destruct x as [|d x]; try done; rewrite ?append_cons.
  all: try (destruct (one_of _ d); [by intros [= <-]|done]).
  all: destruct x as [|e x]; try done; rewrite ?append_cons.
  all: repeat match goal with
           | |- context [match ?x with _ => _ end] => destruct x
           end; try done; by intros [= <-].
Qed.

(** A carriage return behind a text completes no white space character. *)
Lemma drop_space_rune_none_CR (x : string) :
  drop_space_rune x = None → x ≠ "" →
  drop_space_rune (x +:+ String "013" "") = None.
Proof.
  destruct x as [|c x]; [done|]. intros Hx _. revert Hx. rewrite append_cons.
  destruct c as [[] [] [] [] [] [] [] []]; cbn; try done.
  all: destruct x as [|d x]; rewrite ?append_cons; try done.
  all: try (destruct (one_of _ d); done).
  all: destruct x as [|e x]; rewrite ?append_cons; try done.
  all: try (destruct d as [[] [] [] [] [] [] [] []]; cbn; done).
  all: repeat match goal with
           | |- context [match ?x with _ => _ end] => destruct x
           end; done.
Qed.

Lemma drop_space_rune_shorter (x r : string) :
  drop_space_rune x = Some r → (String.length r < String.length x)%nat.
Proof.
  destruct x as [|c x]; [done|].
  destruct c as [[] [] [] [] [] [] [] []]; cbn;
    repeat match goal with
           | |- context [match ?x with _ => _ end] => destruct x
           end;
    intros [= <-]; cbn; lia.
Qed.

(** The white space at the head of a text with a carriage return behind it:
    the carriage return goes with it when nothing else is left. *)
Lemma trim_left_CR (n : nat) (s : string) :
  (String.length s ≤ n)%nat →
  trim_left drop_space_rune (S n) (s +:+ String "013" "")
  = match trim_left drop_space_rune n s with
    | "" => ""
    | String c l => String c l +:+ String "013" ""
    end.
Proof.
  revert s. induction n as [|n IH]; intros s Hn.
  { destruct s; [done|simpl in Hn; lia]. }
  destruct s as [|c s]; [done|].
  change (trim_left drop_space_rune (S (S n)) (String c s +:+ String "013" ""))
    with (match drop_space_rune (String c s +:+ String "013" "") with
          | Some r => trim_left drop_space_rune (S n) r
          | None => String c s +:+ String "013" ""
          end).
  change (trim_left drop_space_rune (S n) (String c s))
    with (match drop_space_rune (String c s) with
          | Some r => trim_left drop_space_rune n r
          | None => String c s
          end).
  destruct (drop_space_rune (String c s)) as [r|] eqn:E.
  - rewrite (drop_space_rune_append _ r) by done.
    apply IH. apply drop_space_rune_shorter in E. simpl in E, Hn. lia.
  - by rewrite drop_space_rune_none_CR.
Qed.

Lemma TrimSpace_CR (s : string) : TrimSpace (s +:+ String "013" "") = TrimSpace s.
Proof.
  unfold TrimSpace. rewrite length_append, Nat.add_1_r.
  rewrite trim_left_CR by done.
  destruct (trim_left drop_space_rune (String.length s) s) as [|c l]; [done|].
  rewrite length_append, Nat.add_1_r, string_rev_append.
  reflexivity.
Qed.

Lemma parseVTT_line_CR (st : string * string * list TranscriptItem)
  (line : string) :
  parseVTT_line st (line +:+ String "013" "") = parseVTT_line st line.
Proof. unfold parseVTT_line. by rewrite TrimSpace_CR. Qed.

Lemma foldl_CR_lines (lines : list string)
  (st : string * string * list TranscriptItem) :
  foldl parseVTT_line st (CR_lines lines) = foldl parseVTT_line st lines.
Proof.
  revert st. induction lines as [|x [|y rest] IH]; intros st; [done..|].
  change (CR_lines (x :: y :: rest))
    with ((x +:+ String "013" "") :: CR_lines (y :: rest)).
  cbn [foldl]. rewrite parseVTT_line_CR. apply IH.
Qed.

(** The lines of a file with carriage returns are those of the file, each
    but the last with a carriage return at its end. *)
Lemma Split_with_CR (s : string) :
  Split (with_CR s) (String "010" "") = CR_lines (Split s (String "010" "")).
Proof.
  unfold Split. induction s as [|c s IH]; [done|].
  cbn [with_CR]. destruct (Ascii.eqb_spec c "010") as [->|Hc].
  - assert (Hp : ∀ r, HasPrefix (String "010" r) (String "010" "") = true).
    { intros r. unfold HasPrefix. by destruct r. }
    assert (Hq : ∀ r, HasPrefix (String "013" r) (String "010" "") = false).
    { intros r. unfold HasPrefix. by destruct r. }
    cbn [split_from]. rewrite Hq, !Hp. cbn [String.length Nat.sub]. rewrite IH.
    pose proof (split_from_nonempty (String "010" "") 0 s) as Hne.
    by destruct (split_from (String "010" "") 0 s).
  - assert (Hp : ∀ r, HasPrefix (String c r) (String "010" "") = false).
    { intros r. unfold HasPrefix.
      destruct r; cbn [String.prefix];
        by destruct (ascii_dec "010" c) as [<-|_]. }
    cbn [split_from]. rewrite !Hp, IH.
    pose proof (split_from_nonempty (String "010" "") 0 s) as Hne.
    destruct (split_from (String "010" "") 0 s) as [|h [|h2 t]]; [done..|].
    reflexivity.
Qed.

(** X26.  A transcript file with the line ends of Windows, a carriage return
    before every newline, gives the items that the file with plain newlines
    gives: the carriage returns get into no item's text and break no line of
    times. *)
Theorem parseVTT_ignores_CR (vttContent : string) :
  parseVTT (with_CR vttContent) = parseVTT vttContent.
Proof.
  unfold parseVTT. cbv zeta.
  by rewrite Split_with_CR, foldl_CR_lines.
Qed.
